(** * MDnexa chat backend: the POST /message and POST /related handlers

    A shallow embedding of two Express route handlers:

    - [POST /message] (the chat route): optional authentication, the
      five-question usage gate, history formatting, the call to the
      robust generation client, and the best-effort persistence of the
      turn with its just-in-time session recovery;
    - [POST /related] (backend/routes/gemini.js): the related-questions
      route with its empty-array fallback.

    Every [await] of the source is an operation of type [op]; a handler is
    a tree of such operations ([prog]); an environment ([env]) decides, for
    each awaited operation, whether its promise resolves or rejects.  The
    list of operations issued by a run is its trace.  Console and file
    logging are left out. *)

From Stdlib Require Import ZArith String Ascii List Bool.
From Stdlib Require QArith.
From stdpp Require Import base option list gmap strings.

Local Open Scope string_scope.
Local Open Scope list_scope.
Local Open Scope Z_scope.

(** ** JavaScript values used by the handlers *)

Module Js.

(** A value that may be [undefined]/[null]; strings are falsy when empty. *)
Definition truthy (v : option string) : option string :=
  match v with
  | Some s => if String.eqb s "" then None else Some s
  | None => None
  end.

(** [a || b] on possibly-undefined strings, with [b] defined. *)
Definition or_default (a : option string) (b : string) : string :=
  match truthy a with Some s => s | None => b end.

(** [a || b] where [b] may itself be undefined. *)
Definition or_else (a b : option string) : option string :=
  match truthy a with Some s => Some s | None => b end.

(** [s.split(sep)] for a one-character separator. *)
Fixpoint split (sep : ascii) (s : string) : list string :=
  match s with
  | EmptyString => [EmptyString]
  | String c r =>
      if Ascii.eqb c sep then EmptyString :: split sep r
      else match split sep r with
           | h :: t => String c h :: t
           | [] => [String c EmptyString]
           end
  end.

(** [hay.includes(needle)]. *)
Fixpoint includes (needle hay : string) : bool :=
  String.prefix needle hay
  || match hay with
     | EmptyString => false
     | String _ r => includes needle r
     end.

Definition dquote : string := String (ascii_of_nat 34) EmptyString.

(** *** Code units

    A text is held as the bytes of its UTF-8 encoding, whereas
    JavaScript measures and cuts a string in UTF-16 code units: a
    character of up to three bytes is one unit, a character of four
    bytes is a surrogate pair of two units.  A surrogate left alone by a
    cut is held as the three bytes of its own code point. *)

(** The number of bytes of the character that starts with byte [c]. *)
Definition char_bytes (c : ascii) : nat :=
  let n := nat_of_ascii c in
  if (n <? 192)%nat then 1%nat
  else if (n <? 224)%nat then 2%nat
  else if (n <? 240)%nat then 3%nat
  else 4%nat.

(** The characters of a text, each with its bytes; a character cut short
    by the end of the text is taken byte by byte. *)
Fixpoint chars (s : string) : list string :=
  match s with
  | EmptyString => []
  | String c rest =>
      match char_bytes c, rest with
      | 2%nat, String c1 r1 => String c (String c1 "") :: chars r1
      | 3%nat, String c1 (String c2 r2) =>
          String c (String c1 (String c2 "")) :: chars r2
      | 4%nat, String c1 (String c2 (String c3 r3)) =>
          String c (String c1 (String c2 (String c3 ""))) :: chars r3
      | _, _ => String c "" :: chars rest
      end
  end.

(** The code units of one character. *)
Definition char_units (ch : string) : nat :=
  if (String.length ch =? 4)%nat then 2%nat else 1%nat.

Definition units (cs : list string) : nat :=
  foldr (fun ch n => (char_units ch + n)%nat) 0%nat cs.

(** [s.length] *)
Definition length (s : string) : nat := units (chars s).

Definition join (cs : list string) : string := foldr String.append "" cs.

(** The code point of a four-byte character, less 0x10000. *)
Definition astral_offset (ch : string) : N :=
  match ch with
  | String b0 (String b1 (String b2 (String b3 _))) =>
      (N.lor (N.shiftl (N.land (N_of_ascii b0) 7) 18)
         (N.lor (N.shiftl (N.land (N_of_ascii b1) 63) 12)
            (N.lor (N.shiftl (N.land (N_of_ascii b2) 63) 6)
               (N.land (N_of_ascii b3) 63))) - 65536)%N
  | _ => 0%N
  end.

(** A surrogate 0xD800 + [low], [low] below 0x800, as three bytes. *)
Definition surrogate (low : N) : string :=
  String (ascii_of_N 237)
    (String (ascii_of_N (160 + N.land (N.shiftr low 6) 31))
       (String (ascii_of_N (128 + N.land low 63)) "")).

Definition high_surrogate (ch : string) : string :=
  surrogate (N.land (N.shiftr (astral_offset ch) 10) 1023).

Definition low_surrogate (ch : string) : string :=
  surrogate (1024 + N.land (astral_offset ch) 1023).

(** The first [n] code units of a list of characters. *)
Fixpoint take_units (n : nat) (cs : list string) : list string :=
  match cs with
  | [] => []
  | ch :: rest =>
      match n, char_units ch with
      | 0%nat, _ => []
      | 1%nat, 2%nat => [high_surrogate ch]
      | _, u => ch :: take_units (n - u) rest
      end
  end.

(** What is left after the first [n] code units. *)
Fixpoint drop_units (n : nat) (cs : list string) : list string :=
  match cs with
  | [] => []
  | ch :: rest =>
      match n, char_units ch with
      | 0%nat, _ => cs
      | 1%nat, 2%nat => low_surrogate ch :: rest
      | _, u => drop_units (n - u) rest
      end
  end.

(** [s.slice(start, finish)] for indices that are not negative. *)
Definition slice (start finish : nat) (s : string) : string :=
  join (take_units (finish - start) (drop_units start (chars s))).

(** [s.substring(start, finish)]: the indices are swapped when
    [start] is the larger. *)
Definition substring (start finish : nat) (s : string) : string :=
  slice (Nat.min start finish) (Nat.max start finish) s.

(** A character with all its bytes. *)
Definition complete (ch : string) : Prop :=
  match ch with
  | String c t => S (String.length t) = char_bytes c
  | EmptyString => False
  end.

(** Characters that read back as they are when joined. *)
Fixpoint framed (cs : list string) : Prop :=
  match cs with
  | [] => True
  | ch :: rest =>
      (complete ch
       \/ exists c, ch = String c ""
                    /\ (String.length (join rest) < char_bytes c - 1)%nat)
      /\ framed rest
  end.

(** An ASCII text: every character is one byte below 128. *)
Definition is_ascii (s : string) : Prop :=
  Forall (fun c => (nat_of_ascii c < 128)%nat) (list_ascii_of_string s).

End Js.

(** ** Errors and promise outcomes *)

(** The fields of a thrown error that the handlers inspect. *)
Record JsError := mkError {
  err_code : option string;
  err_message : option string;
  err_details : option string
}.

(** What an [await] observes.  A rejection carries an error object: the
    handlers' [catch] clauses read [message], [code], [details] and
    [stack] from what they catch, and the last one serialises its
    [response], so a promise rejected with [null] or [undefined], or with
    an error whose [response] cannot be serialised, would make the clause
    itself throw; such rejections are outside this model. *)
Inductive outcome (A : Type) : Type :=
| Resolved (a : A)
| Rejected (e : JsError).
Arguments Resolved {A} a.
Arguments Rejected {A} e.

Definition is_resolved {A} (o : outcome A) : bool :=
  match o with Resolved _ => true | Rejected _ => false end.

(** ** Rows and replies of the collaborators *)

Record Metadata := mkMetadata {
  md_role : option string;
  md_professional_role : option string
}.

(** The identity returned by [supabase.auth.getUser]. *)
Record AuthUser := mkAuthUser {
  user_id : string;
  user_email : option string;
  user_role : option string;
  user_metadata : option Metadata;
  app_metadata : option Metadata
}.

Record Profile := mkProfile {
  profile_role : option string;
  profile_professional_role : option string;
  profile_specialty : option string;
  profile_title : option string
}.

Record UsageRow := mkUsage {
  usage_user_id : string;
  questions_count : Z
}.

Inductive Role := RoleUser | RoleModel.

Definition role_name (r : Role) : string :=
  match r with RoleUser => "user" | RoleModel => "model" end.

(** A row of [chat_messages]. *)
Record MessageRow := mkMessage {
  msg_session_id : string;
  msg_user_id : string;
  msg_role : Role;
  msg_content : string
}.

(** A row of [chat_sessions] as the just-in-time creation writes it. *)
Record SessionRow := mkSession {
  session_id : string;
  session_user_id : string;
  session_title : string;
  session_region : string;
  session_country : string
}.

(** One turn of the history handed to the generation client:
    [{ role, parts: [{ text }] }]. *)
Record Turn := mkTurn {
  turn_role : Role;
  turn_text : string
}.

(** The argument of [robustGemini.generateMessage]. *)
Record GenArgs := mkGenArgs {
  gen_message : string;
  gen_history : list Turn;
  gen_systemInstruction : string;
  gen_temperature : QArith_base.Q;
  gen_maxOutputTokens : Z
}.

Record GenReply := mkGenReply {
  gen_text : string;
  gen_model : string
}.

(** The value a store call resolves to: [{ data, error }]. *)
Record StoreReply (A : Type) := mkReply {
  data : option A;
  error : option JsError
}.
Arguments mkReply {A} data error.
Arguments data {A} _.
Arguments error {A} _.

(** ** Awaited operations *)

Inductive op :=
| AuthGetUser (token : string)
| ProfilesSelect (id : string)
| UsageSelect (uid : string)
| UsageInsert (uid : string) (count : Z)
| UsageUpdate (uid : string) (count : Z)
| GenerateMessage (args : GenArgs)
| MessagesInsert (row : MessageRow)
| SessionsTouch (id : string) (updated_at : Z)
| SessionsInsert (row : SessionRow)
| SessionsSetTitle (id : string) (title : string)
| GenerateContent (feature : string) (prompt : string).

Definition reply (o : op) : Type :=
  match o with
  | AuthGetUser _ => StoreReply AuthUser
  | ProfilesSelect _ => StoreReply Profile
  | UsageSelect _ => StoreReply UsageRow
  | GenerateMessage _ => GenReply
  | GenerateContent _ _ => string
  | _ => StoreReply unit
  end.

(** ** Handler programs *)

Inductive prog (A : Type) : Type :=
| Done (a : A)
| Raise (e : JsError)
| Clock (k : Z -> prog A)
| Await (o : op) (k : outcome (reply o) -> prog A).
Arguments Done {A} a.
Arguments Raise {A} e.
Arguments Clock {A} k.
Arguments Await {A} o k.

Fixpoint bind {A B} (m : prog A) (f : A -> prog B) : prog B :=
  match m with
  | Done a => f a
  | Raise e => Raise e
  | Clock k => Clock (fun t => bind (k t) f)
  | Await o k => Await o (fun r => bind (k r) f)
  end.

(** [try { m } catch (e) { h e }]. *)
Fixpoint try_catch {A} (m : prog A) (h : JsError -> prog A) : prog A :=
  match m with
  | Done a => Done a
  | Raise e => h e
  | Clock k => Clock (fun t => try_catch (k t) h)
  | Await o k => Await o (fun r => try_catch (k r) h)
  end.

(** [await o]: the value on resolution, a throw on rejection. *)
Definition await (o : op) : prog (reply o) :=
  Await o (fun r => match r with Resolved x => Done x | Rejected e => Raise e end).

(** [new Date()]. *)
Definition now : prog Z := Clock Done.

Declare Scope prog_scope.
Delimit Scope prog_scope with prog.
Notation "x <- m ;; k" := (bind m (fun x => k))
  (at level 100, m at next level, right associativity) : prog_scope.
Notation "m ;;; k" := (bind m (fun _ => k))
  (at level 100, right associativity) : prog_scope.
Local Open Scope prog_scope.

(** ** Environments and runs *)

Record env (S : Type) := mkEnv {
  exec : forall o : op, S -> outcome (reply o) * S;
  clock : S -> Z
}.
Arguments exec {S} _ _ _.
Arguments clock {S} _ _.

Definition trace := list op.

Fixpoint run {S A} (E : env S) (m : prog A) (s : S) : trace * outcome A * S :=
  match m with
  | Done a => ([], Resolved a, s)
  | Raise e => ([], Rejected e, s)
  | Clock k => run E (k (clock E s)) s
  | Await o k =>
      let '(r, s1) := exec E o s in
      let '(tr, res, s2) := run E (k r) s1 in
      (o :: tr, res, s2)
  end.

(** ** POST /message *)

(** [req.body.isShortAnswer], tested with [=== true || === 'true']. *)
Inductive JsFlag := FlagAbsent | FlagBool (b : bool) | FlagString (s : string).

Definition isShort (f : JsFlag) : bool :=
  match f with
  | FlagBool b => b
  | FlagString s => String.eqb s "true"
  | FlagAbsent => false
  end.

(** One entry of [req.body.history]. *)
Record HistoryMsg := mkHistoryMsg {
  hist_role : option string;
  hist_text : string
}.

(** The parts of the request the handler reads; body fields are taken
    with the types the handler uses them at. *)
Record ChatRequest := mkChatRequest {
  authorization : option string;
  message : string;
  history : list HistoryMsg;
  language : option string;
  region : option string;
  country : option string;
  userRole : option string;
  isShortAnswer : JsFlag;
  sessionId : option string
}.

Inductive Response :=
| Ok200 (text model : string)
| Forbidden403 (err msg : string)
| Error500 (err details : string).

Definition status (r : Response) : Z :=
  match r with
  | Ok200 _ _ => 200
  | Forbidden403 _ _ => 403
  | Error500 _ _ => 500
  end.

Definition limit_reached : Response :=
  Forbidden403 "LIMIT_REACHED"
    "You used your 5 free questions. Please upgrade your plan to continue.".

(** The object handed to [hasUnlimitedAccess]:
    [{ ...user, ...profile, roles: allRoles }]. *)
Record AccessSubject := mkSubject {
  subject_user : AuthUser;
  subject_profile : option Profile;
  subject_roles : list string
}.

(** [[profile?.role, user.role, user.user_metadata?.role,
      user.app_metadata?.role].filter(Boolean)] *)
Definition allRoles (user : AuthUser) (profile : option Profile) : list string :=
  omap Js.truthy
    [ profile ≫= profile_role;
      user_role user;
      user_metadata user ≫= md_role;
      app_metadata user ≫= md_role ].

(** The medical persona: profile fields, then user metadata, then the
    requested role. *)
Definition persona (user : AuthUser) (profile : option Profile) (requested : string) : string :=
  Js.or_default
    (Js.or_else (profile ≫= profile_professional_role)
       (Js.or_else (profile ≫= profile_specialty)
          (Js.or_else (profile ≫= profile_title)
             (user_metadata user ≫= md_professional_role))))
    requested.

(** 4. Format History: map every entry to a [Turn], then shift leading
    model turns away. *)
Definition formatTurn (msg : HistoryMsg) : Turn :=
  {| turn_role := match hist_role msg with
                  | Some r => if String.eqb r "user" then RoleUser else RoleModel
                  | None => RoleModel
                  end;
     turn_text := hist_text msg |}.

Fixpoint shiftModels (h : list Turn) : list Turn :=
  match h with
  | [] => []
  | t :: rest =>
      match turn_role t with
      | RoleModel => shiftModels rest
      | RoleUser => h
      end
  end.

Definition formatHistory (h : list HistoryMsg) : list Turn :=
  shiftModels (map formatTurn h).


(** The test of the persistence [catch]: a foreign-key error. *)
Definition missing_session_details : string :=
  "is not present in table " +:+ Js.dquote +:+ "chat_sessions" +:+ Js.dquote.

Definition isForeignKeyError (e : JsError) : bool :=
  match err_code e with Some c => String.eqb c "23503" | None => false end
  || match err_message e with Some m => Js.includes "foreign key" m | None => false end
  || match err_details e with Some d => Js.includes missing_session_details d | None => false end.

(** 1. Try to Authenticate (Optional): any failure means guest. *)
Definition authenticate (req : ChatRequest) : prog (option AuthUser) :=
  match Js.truthy (authorization req) with
  | None => Done None
  | Some authHeader =>
      match Js.truthy (nth_error (Js.split " " authHeader) 1) with
      | None => Done None
      | Some token =>
          if String.eqb token "null" then Done None
          else try_catch
                 (r <- await (AuthGetUser token) ;;
                  Done (match error r with
                        | None => data r
                        | Some _ => None
                        end))
                 (fun _ => Done None)
      end
  end.

(** The usage check of a limited user: [Some resp] is the early return. *)
Definition checkUsage (user : AuthUser) : prog (option Response) :=
  r <- await (UsageSelect (user_id user)) ;;
  let usage := data r in
  let currentCount := match usage with Some u => questions_count u | None => 0 end in
  if (5 <=? currentCount)%Z then Done (Some limit_reached)
  else
    (match usage with
     | None => await (UsageInsert (user_id user) 1)
     | Some _ => await (UsageUpdate (user_id user) (currentCount + 1))
     end) ;;;
    Done None.

Definition persistMessages (sid uid userText modelText : string) : prog unit :=
  await (MessagesInsert (mkMessage sid uid RoleUser userText)) ;;;
  await (MessagesInsert (mkMessage sid uid RoleModel modelText)) ;;;
  t <- now ;;
  await (SessionsTouch sid t) ;;;
  Done tt.

Definition generation_failed_details : string :=
  "The AI is currently unavailable after multiple retries. Please try again later.".

Section Handlers.

(** [hasUnlimitedAccess] of utils/accessControl. *)
Variable hasUnlimitedAccess : AccessSubject -> bool.

(** The system-instruction template, a function of country, region,
    language, persona and the short-answer flag. *)
Variable systemInstructionText :
  option string -> option string -> option string -> string -> bool -> string.

(** [d.toLocaleString('en-US', { month: 'short', day: 'numeric',
    hour: '2-digit', minute: '2-digit' })]. *)
Variable toLocaleString : Z -> string.

(** 2. Access Control (If User Logged In): [inl] is the early return,
    [inr] the persona for the prompt. *)
Definition accessControl (user : option AuthUser) (req : ChatRequest)
  : prog (Response + string) :=
  let requested := Js.or_default (userRole req) "Physician" in
  match user with
  | None => Done (inr requested)
  | Some u =>
      r <- await (ProfilesSelect (user_id u)) ;;
      let profile := data r in
      let isUnlimited :=
        hasUnlimitedAccess (mkSubject u profile (allRoles u profile)) in
      let professionalRole := persona u profile requested in
      if isUnlimited then Done (inr professionalRole)
      else
        g <- checkUsage u ;;
        match g with
        | Some resp => Done (inl resp)
        | None => Done (inr professionalRole)
        end
  end.

(** 6. Persistence, first part: insert the turn, creating the session
    just in time on a foreign-key error; the result is
    [persistenceSuccess]. *)
Definition persistTurn (sid : string) (user : AuthUser) (userText modelText : string)
    (region country : option string) : prog bool :=
  try_catch
    (persistMessages sid (user_id user) userText modelText ;;; Done true)
    (fun dbError =>
       if isForeignKeyError dbError then
         try_catch
           (t <- now ;;
            await (SessionsInsert
                     (mkSession sid (user_id user) (toLocaleString t)
                        (Js.or_default region "International")
                        (Js.or_default country "International"))) ;;;
            persistMessages sid (user_id user) userText modelText ;;;
            Done true)
           (fun retryError => Done false)
       else Done false).

(** 6. Persistence (If User Logged In & Session Provided), with the
    timestamp title of a first message. *)
Definition persistence (user : option AuthUser) (req : ChatRequest)
    (formattedHistory : list Turn) (responseText : string) : prog unit :=
  match user, Js.truthy (sessionId req) with
  | Some u, Some sid =>
      persistenceSuccess <-
        persistTurn sid u (message req) responseText (region req) (country req) ;;
      if persistenceSuccess && (length formattedHistory =? 0)%nat then
        t <- now ;;
        await (SessionsSetTitle sid (toLocaleString t)) ;;;
        Done tt
      else Done tt
  | _, _ => Done tt
  end.

Definition genArgs (req : ChatRequest) (professionalRole : string) : GenArgs :=
  {| gen_message := message req;
     gen_history := formatHistory (history req);
     gen_systemInstruction :=
       systemInstructionText (country req) (region req) (language req)
         professionalRole (isShort (isShortAnswer req));
     gen_temperature := QArith_base.Qmake 7 10;
     gen_maxOutputTokens := 4096 |}.

(** The body of the outer [try]. *)
Definition messageBody (user : option AuthUser) (req : ChatRequest) : prog Response :=
  ac <- accessControl user req ;;
  match ac with
  | inl resp => Done resp
  | inr professionalRole =>
      g <- await (GenerateMessage (genArgs req professionalRole)) ;;
      persistence user req (formatHistory (history req)) (gen_text g) ;;;
      Done (Ok200 (gen_text g) (gen_model g))
  end.

(** The outer [catch]: a 500 carrying the error's message.  (It also
    appends the error to a log file, which nothing below observes.) *)
Definition chatError (e : JsError) : Response :=
  Error500 (Js.or_default (err_message e) "AI Generation Failed")
    generation_failed_details.

Definition postMessage (req : ChatRequest) : prog Response :=
  user <- authenticate req ;;
  try_catch (messageBody user req) (fun e => Done (chatError e)).

End Handlers.

(** Modelled from the spec: [hasUnlimitedAccess] lives in
    utils/accessControl, which is not among the sources.  The spec derives
    privilege "from a union of all known role signals for that identity -
    any one source claiming elevated access is sufficient": a subject is
    privileged when one of its collected roles is an elevated one. *)
Definition hasUnlimitedAccess_spec (elevated : string -> bool) (s : AccessSubject) : bool :=
  existsb elevated (subject_roles s).

(** ** POST /related *)

#[local] Unset Elimination Schemes.
Inductive json :=
| JNull
| JBool (b : bool)
| JNumber (n : Z)
| JString (s : string)
| JArray (items : list json)
| JObject (fields : list (string * json)).
#[local] Set Elimination Schemes.

Record RelatedRequest := mkRelatedRequest {
  lastMessage : option string;
  lastResponse : option string;
  related_userRole : option string;
  related_language : option string
}.

(** [res.json(body)] answers with status 200. *)
Record RelatedResponse := mkRelatedResponse {
  related_status : Z;
  related_body : json
}.

Definition type_error : JsError :=
  mkError None (Some "Cannot read properties of undefined (reading 'substring')") None.

Definition syntax_error : JsError :=
  mkError None (Some "Unexpected token in JSON") None.

Section Related.

(** The prompt template, a function of the role, the language and the two
    truncated texts. *)
Variable relatedPrompt : option string -> option string -> string -> string -> string.

(** [JSON.parse]; [None] is its SyntaxError. *)
Variable JSON_parse : string -> option json.

Definition postRelated (req : RelatedRequest) : prog RelatedResponse :=
  try_catch
    (match lastMessage req, lastResponse req with
     | Some m, Some r =>
         text <- await (GenerateContent "related_questions"
                          (relatedPrompt (related_userRole req) (related_language req)
                             (Js.substring 0 200 m) (Js.substring 0 200 r))) ;;
         match JSON_parse text with
         | Some v => Done (mkRelatedResponse 200 v)
         | None => Raise syntax_error
         end
     | _, _ => Raise type_error
     end)
    (fun _ => Done (mkRelatedResponse 200 (JArray []))).

End Related.

(** ** Classes of operations *)

Definition is_usage_op (o : op) : bool :=
  match o with
  | UsageSelect _ | UsageInsert _ _ | UsageUpdate _ _ => true
  | _ => false
  end.

Definition is_usage_write (o : op) : bool :=
  match o with
  | UsageInsert _ _ | UsageUpdate _ _ => true
  | _ => false
  end.

Definition is_generation (o : op) : bool :=
  match o with
  | GenerateMessage _ | GenerateContent _ _ => true
  | _ => false
  end.

Definition is_user_insert (o : op) : bool :=
  match o with
  | MessagesInsert row => match msg_role row with RoleUser => true | RoleModel => false end
  | _ => false
  end.

Definition is_session_create (o : op) : bool :=
  match o with SessionsInsert _ => true | _ => false end.

Definition is_set_title (o : op) : bool :=
  match o with SessionsSetTitle _ _ => true | _ => false end.

Definition count_ops (p : op -> bool) (tr : trace) : nat :=
  length (List.filter p tr).

(** ** A reference relational store

    The store behind the handlers is an external service.  This reference
    model keeps its tables as finite maps and enforces the foreign key
    from [chat_messages.session_id] to [chat_sessions.id] and the primary
    key of [chat_sessions].  Its client never rejects: every call
    resolves to [{ data, error }], which is how the handlers read it
    ([const { data, error } = await ...; if (error) throw error]); a
    violated constraint, like a read that matches no row, is reported in
    [error].  Only the generation client can reject. *)

Record StoredSession := mkStored {
  stored_row : SessionRow;
  stored_updated_at : option Z
}.

Record RefStore := mkStore {
  rs_auth : gmap string AuthUser;
  rs_profiles : gmap string Profile;
  rs_usage : gmap string Z;
  rs_sessions : gmap string StoredSession;
  rs_messages : list MessageRow;
  rs_time : Z;
  rs_model : GenArgs -> outcome GenReply;
  rs_content : string -> string -> outcome string
}.

Definition set_usage (u : gmap string Z) (st : RefStore) : RefStore :=
  mkStore (rs_auth st) (rs_profiles st) u (rs_sessions st) (rs_messages st)
    (rs_time st) (rs_model st) (rs_content st).

Definition set_sessions (ss : gmap string StoredSession) (st : RefStore) : RefStore :=
  mkStore (rs_auth st) (rs_profiles st) (rs_usage st) ss (rs_messages st)
    (rs_time st) (rs_model st) (rs_content st).

Definition set_messages (ms : list MessageRow) (st : RefStore) : RefStore :=
  mkStore (rs_auth st) (rs_profiles st) (rs_usage st) (rs_sessions st) ms
    (rs_time st) (rs_model st) (rs_content st).

Definition no_rows : JsError :=
  mkError (Some "PGRST116") (Some "JSON object requested, multiple (or no) rows returned") None.

Definition invalid_token : JsError :=
  mkError None (Some "invalid JWT") None.

Definition duplicate_key : JsError :=
  mkError (Some "23505") (Some "duplicate key value violates unique constraint") None.

Definition fk_violation (sid : string) : JsError :=
  mkError (Some "23503")
    (Some "insert or update on table chat_messages violates foreign key constraint")
    (Some ("Key (session_id)=(" +:+ sid +:+ ") " +:+ missing_session_details +:+ ".")).

Definition found {A} (row : option A) (missing : JsError) : StoreReply A :=
  mkReply row (match row with Some _ => None | None => Some missing end).

Definition written : StoreReply unit := mkReply (Some tt) None.

Definition retitle (title : string) (s : StoredSession) : StoredSession :=
  mkStored
    (mkSession (session_id (stored_row s)) (session_user_id (stored_row s)) title
       (session_region (stored_row s)) (session_country (stored_row s)))
    (stored_updated_at s).

Definition touch (t : Z) (s : StoredSession) : StoredSession :=
  mkStored (stored_row s) (Some t).

Definition ref_exec (o : op) (st : RefStore) : outcome (reply o) * RefStore :=
  match o return outcome (reply o) * RefStore with
  | AuthGetUser token => (Resolved (found (rs_auth st !! token) invalid_token), st)
  | ProfilesSelect id => (Resolved (found (rs_profiles st !! id) no_rows), st)
  | UsageSelect uid => (Resolved (found (mkUsage uid <$> rs_usage st !! uid) no_rows), st)
  | UsageInsert uid n =>
      match rs_usage st !! uid with
      | None => (Resolved written, set_usage (<[uid := n]> (rs_usage st)) st)
      | Some _ => (Resolved (mkReply None (Some duplicate_key)), st)
      end
  | UsageUpdate uid n =>
      (Resolved written, set_usage (alter (fun _ => n) uid (rs_usage st)) st)
  | GenerateMessage args => (rs_model st args, st)
  | MessagesInsert row =>
      match rs_sessions st !! msg_session_id row with
      | Some _ => (Resolved written, set_messages (rs_messages st ++ [row]) st)
      | None => (Resolved (mkReply None (Some (fk_violation (msg_session_id row)))), st)
      end
  | SessionsTouch id t =>
      (Resolved written, set_sessions (alter (touch t) id (rs_sessions st)) st)
  | SessionsInsert row =>
      match rs_sessions st !! session_id row with
      | None =>
          (Resolved written,
           set_sessions (<[session_id row := mkStored row None]> (rs_sessions st)) st)
      | Some _ => (Resolved (mkReply None (Some duplicate_key)), st)
      end
  | SessionsSetTitle id title =>
      (Resolved written, set_sessions (alter (retitle title) id (rs_sessions st)) st)
  | GenerateContent feature prompt => (rs_content st feature prompt, st)
  end.

Definition ref_env : env RefStore := mkEnv RefStore ref_exec rs_time.

(** The same store behind a client whose inserts into the chat tables
    throw what they would report, the one configuration in which the
    handler's persistence [catch] has something to catch. *)
Definition strict_exec (o : op) (st : RefStore) : outcome (reply o) * RefStore :=
  match o return outcome (reply o) * RefStore with
  | MessagesInsert row =>
      match rs_sessions st !! msg_session_id row with
      | Some _ => ref_exec (MessagesInsert row) st
      | None => (Rejected (fk_violation (msg_session_id row)), st)
      end
  | SessionsInsert row =>
      match rs_sessions st !! session_id row with
      | None => ref_exec (SessionsInsert row) st
      | Some _ => (Rejected duplicate_key, st)
      end
  | o' => ref_exec o' st
  end.

Definition strict_env : env RefStore := mkEnv RefStore strict_exec rs_time.

(** An environment in which chosen operations reject. *)
Definition with_faults {S} (fault : op -> option JsError) (E : env S) : env S :=
  mkEnv S
    (fun o s => match fault o with
                | Some e => (Rejected e, s)
                | None => exec E o s
                end)
    (clock E).

(** Requests served one after the other. *)
Fixpoint serve {S Req Resp} (E : env S) (handler : Req -> prog Resp)
    (reqs : list Req) (s : S) : list (outcome Resp) * trace * S :=
  match reqs with
  | [] => ([], [], s)
  | r :: rest =>
      let '(tr, res, s1) := run E (handler r) s in
      let '(ress, trs, s2) := serve E handler rest s1 in
      (res :: ress, tr ++ trs, s2)
  end.

(** ** Names for parts of a run *)

(** The bearer token the handler validates, if any. *)
Definition token_of (req : ChatRequest) : option string :=
  match Js.truthy (authorization req) with
  | None => None
  | Some authHeader =>
      match Js.truthy (nth_error (Js.split " " authHeader) 1) with
      | None => None
      | Some token => if String.eqb token "null" then None else Some token
      end
  end.

(** [usage ? usage.questions_count : 0] *)
Definition currentCount (usage : option UsageRow) : Z :=
  match usage with Some u => questions_count u | None => 0 end.

(** The write of "Increment Usage". *)
Definition usageWrite (uid : string) (usage : option UsageRow) : op :=
  match usage with
  | None => UsageInsert uid 1
  | Some _ => UsageUpdate uid (currentCount usage + 1)
  end.

(** The role the prompt is built for when nobody is logged in or no
    profile field overrides it. *)
Definition requestedRole (req : ChatRequest) : string :=
  Js.or_default (userRole req) "Physician".


(** The awaited call of the related-questions route. *)
Definition relatedCall (relatedPrompt : option string -> option string -> string -> string -> string)
    (req : RelatedRequest) (m r : string) : op :=
  GenerateContent "related_questions"
    (relatedPrompt (related_userRole req) (related_language req)
       (Js.substring 0 200 m) (Js.substring 0 200 r)).

Definition empty_array : RelatedResponse := mkRelatedResponse 200 (JArray []).

(** The question count the store holds for a user, 0 without a row. *)
Definition stored_count (st : RefStore) (uid : string) : Z :=
  default 0 (rs_usage st !! uid).

(** The store knows [token] as [user], who has no unlimited access. *)
Definition limited_identity (hasUnlimitedAccess : AccessSubject -> bool)
    (st : RefStore) (token : string) (user : AuthUser) : Prop :=
  rs_auth st !! token = Some user /\
  hasUnlimitedAccess
    (mkSubject user (rs_profiles st !! user_id user)
       (allRoles user (rs_profiles st !! user_id user))) = false.

(** ** Worked examples: a small store and a few requests *)

Module Demo.

Definition elevated (r : string) : bool := String.eqb r "admin".

Definition access : AccessSubject -> bool := hasUnlimitedAccess_spec elevated.

(** The CONTEXT line of the system instruction. *)
Definition instruction (country region language : option string) (role : string)
    (short : bool) : string :=
  "CONTEXT: Country = " +:+ Js.or_default country "International"
  +:+ ", Region = " +:+ Js.or_default region "International"
  +:+ ". User Role = " +:+ role +:+ ".".

(** One rendering of a date, whatever the instant. *)
Definition locale (t : Z) : string := "Nov 3, 12:31 AM".

Definition alice : AuthUser :=
  mkAuthUser "u1" (Some "alice@example.com") (Some "authenticated") None None.

Definition root : AuthUser :=
  mkAuthUser "u2" (Some "root@example.com") (Some "authenticated") None
    (Some (mkMetadata (Some "admin") None)).

Definition nurse : Profile := mkProfile None (Some "Nurse") None None.

Definition old_session : StoredSession :=
  mkStored (mkSession "s-old" "u1" "Old title" "Europe" "Germany") None.

Definition answer : GenReply := mkGenReply "Answer" "gemini-2.0-flash".

Definition store : RefStore :=
  {| rs_auth := {[ "tok-alice" := alice; "tok-root" := root ]};
     rs_profiles := {[ "u1" := nurse ]};
     rs_usage := ∅;
     rs_sessions := {[ "s-old" := old_session ]};
     rs_messages := [];
     rs_time := 1000;
     rs_model := fun _ => Resolved answer;
     rs_content := fun _ _ => Resolved "[]" |}.

(** The same store with alice at five questions. *)
Definition store_at_limit : RefStore := set_usage {[ "u1" := 5 ]} store.

(** The same store with a generation client that fails. *)
Definition overloaded : JsError := mkError None (Some "503 model overloaded") None.

Definition store_down : RefStore :=
  mkStore (rs_auth store) (rs_profiles store) (rs_usage store) (rs_sessions store)
    (rs_messages store) (rs_time store) (fun _ => Rejected overloaded)
    (fun _ _ => Rejected overloaded).

Definition request (token : string) (h : list HistoryMsg) (sid : option string)
  : ChatRequest :=
  {| authorization := Some ("Bearer " +:+ token);
     message := "Q";
     history := h;
     language := None;
     region := None;
     country := None;
     userRole := None;
     isShortAnswer := FlagAbsent;
     sessionId := sid |}.

(** A first turn in an existing session, in a session that does not exist
    yet, and a turn whose history holds only the welcome message. *)
Definition first_turn : ChatRequest := request "tok-alice" [] (Some "s-old").
Definition new_session_turn : ChatRequest := request "tok-alice" [] (Some "s-new").
Definition welcome_turn : ChatRequest :=
  request "tok-alice" [mkHistoryMsg (Some "model") "Welcome to MDnexa"] (Some "s-old").
Definition root_turn : ChatRequest := request "tok-root" [] None.

Definition post : ChatRequest -> prog Response := postMessage access instruction locale.

Definition related_request : RelatedRequest :=
  mkRelatedRequest (Some "Q") (Some "Answer") (Some "Nurse") (Some "en").

Definition related_prompt (role lang : option string) (m r : string) : string :=
  "USER QUESTION: " +:+ m +:+ " AI ANSWER: " +:+ r.

(** A parser that knows the empty array only. *)
Definition parse (text : string) : option json :=
  if String.eqb text "[]" then Some (JArray []) else None.

End Demo.

(** ** The writes of a turn *)

Definition userRow (sid uid text : string) : op :=
  MessagesInsert (mkMessage sid uid RoleUser text).

Definition modelRow (sid uid text : string) : op :=
  MessagesInsert (mkMessage sid uid RoleModel text).

(** The error shape that names the session table. *)
Definition names_session_table (e : JsError) : bool :=
  match err_details e with
  | Some d => Js.includes missing_session_details d
  | None => false
  end.

(** The session row of the just-in-time creation at time [t]. *)
Definition jitSession (toLocaleString : Z -> string) (sid : string) (user : AuthUser)
    (region country : option string) (t : Z) : op :=
  SessionsInsert
    (mkSession sid (user_id user) (toLocaleString t)
       (Js.or_default region "International")
       (Js.or_default country "International")).

(** ** Footprints *)

(** [only_ops P m]: every operation the program [m] can await satisfies [P]. *)
Inductive only_ops {A : Type} (P : op -> Prop) : prog A -> Prop :=
| only_done (a : A) : only_ops P (Done a)
| only_raise (e : JsError) : only_ops P (Raise e)
| only_clock (k : Z -> prog A) :
    (forall t, only_ops P (k t)) -> only_ops P (Clock k)
| only_await (o : op) (k : outcome (reply o) -> prog A) :
    P o -> (forall r, only_ops P (k r)) -> only_ops P (Await o k).

Definition is_persistence_op (o : op) : bool :=
  match o with
  | MessagesInsert _ | SessionsTouch _ _ | SessionsInsert _ | SessionsSetTitle _ _ => true
  | _ => false
  end.

(** A client that reports: no call of the persistence step rejects. *)
Definition reporting {S} (E : env S) : Prop :=
  forall (o : op) (s : S),
    is_persistence_op o = true -> exists r, (exec E o s).1 = Resolved r.

Definition is_generate_message (o : op) : bool :=
  match o with GenerateMessage _ => true | _ => false end.

Definition is_message_insert (o : op) : bool :=
  match o with MessagesInsert _ => true | _ => false end.

Definition is_turn_op (o : op) : bool :=
  match o with
  | MessagesInsert _ | SessionsTouch _ _ | SessionsInsert _ => true
  | _ => false
  end.

(** One of the four role sources names an elevated role. *)
Definition claims_elevated (elevated : string -> bool) (user : AuthUser)
    (profile : option Profile) : Prop :=
  exists r, elevated r = true /\ r <> "" /\
    (profile ≫= profile_role = Some r
     \/ user_role user = Some r
     \/ user_metadata user ≫= md_role = Some r
     \/ app_metadata user ≫= md_role = Some r).

(** ** The other routes

    The remaining handlers await a different set of collaborators: the
    generation client's [generateContent], the mailer, the auth admin API
    and a few more tables.  They are embedded like the chat handlers, over
    their own operations. *)

Module Routes.

(** [`${v}`] for a value that may be [undefined]. *)
Definition interpolate (v : option string) : string :=
  match v with Some s => s | None => "undefined" end.

(** *** Payloads *)

(** A literal object; a field whose value is [undefined] is left out by
    [res.json]. *)
Definition field (key : string) (value : option json) : option (string * json) :=
  pair key <$> value.

Definition object (fields : list (option (string * json))) : json :=
  JObject (omap id fields).

Record Reply := mkReply {
  code : Z;
  payload : json
}.

(** [req.user], set by the [requireAuth] middleware. *)
Record Requester := mkRequester {
  requester_id : string;
  requester_email : option string;
  requester_full_name : option string
}.

(** *** The generation client *)

Inductive ReqPart :=
| TextPart (text : string)
| InlinePart (mimeType data : string).

Inductive GenConfig :=
| NoConfig
| AudioConfig (voiceName : string)
| JsonConfig.

Record ContentRequest := mkContentRequest {
  featureName : string;
  role : option string;
  parts : list ReqPart;
  config : GenConfig
}.

(** [result.response], as far as the handlers look into it. *)
Record InlineData := mkInline { inline_data : option string }.
Record RespPart := mkPart { part_inlineData : option InlineData }.
Record RespContent := mkContent { content_parts : option (list RespPart) }.
Record Candidate := mkCandidate { candidate_content : option RespContent }.

Record ContentResult := mkResult {
  candidates : option (list Candidate);
  response_text : outcome string
}.

(** A row of [profiles] with its [preferences] column. *)
Record PrefRow := mkPrefRow {
  preferences : option (gmap string json)
}.

(** *** Awaited operations *)

Inductive call :=
| GenerateContentCall (request : ContentRequest)
| GenerateMessageCall (message systemInstruction : string) (maxOutputTokens : Z)
| UsageCount
| FeatureFlagsCount
| AcceptTerms (id accepted_terms_at : string)
| ProfileById (id : string)
| DeleteUser (id : string)
| SendMail (sender recipient subject html : string)
| UpdateLogo (id : string) (logo_url : option string)
| PreferencesOf (id : string)
| UpdatePreferences (id : string) (prefs : gmap string json).

Definition answer (c : call) : Type :=
  match c with
  | GenerateContentCall _ => ContentResult
  | GenerateMessageCall _ _ _ => GenReply
  | UsageCount => StoreReply (list json)
  | FeatureFlagsCount => StoreReply unit
  | AcceptTerms _ _ => StoreReply json
  | ProfileById _ => StoreReply json
  | DeleteUser _ => StoreReply unit
  | SendMail _ _ _ _ => unit
  | UpdateLogo _ _ => StoreReply (list json)
  | PreferencesOf _ => StoreReply PrefRow
  | UpdatePreferences _ _ => StoreReply (list json)
  end.

Inductive routine (A : Type) : Type :=
| Finish (a : A)
| Fail (e : JsError)
| Tick (k : Z -> routine A)
| Invoke (c : call) (k : outcome (answer c) -> routine A).
Arguments Finish {A} a.
Arguments Fail {A} e.
Arguments Tick {A} k.
Arguments Invoke {A} c k.

Fixpoint andThen {A B} (m : routine A) (f : A -> routine B) : routine B :=
  match m with
  | Finish a => f a
  | Fail e => Fail e
  | Tick k => Tick (fun t => andThen (k t) f)
  | Invoke c k => Invoke c (fun r => andThen (k r) f)
  end.

(** [try { m } catch (e) { h e }]. *)
Fixpoint attempt {A} (m : routine A) (h : JsError -> routine A) : routine A :=
  match m with
  | Finish a => Finish a
  | Fail e => h e
  | Tick k => Tick (fun t => attempt (k t) h)
  | Invoke c k => Invoke c (fun r => attempt (k r) h)
  end.

Definition invoke (c : call) : routine (answer c) :=
  Invoke c (fun r => match r with Resolved x => Finish x | Rejected e => Fail e end).

(** [Date.now()], [new Date()]. *)
Definition today : routine Z := Tick Finish.

(** [const { data, error } = await ...; if (error) throw error;] *)
Definition checked {A} (r : StoreReply A) : routine (option A) :=
  match error r with
  | Some e => Fail e
  | None => Finish (data r)
  end.

Declare Scope routine_scope.
Delimit Scope routine_scope with routine.
Notation "x <- m ;; k" := (andThen m (fun x => k))
  (at level 100, m at next level, right associativity) : routine_scope.
Notation "m ;;; k" := (andThen m (fun _ => k))
  (at level 100, right associativity) : routine_scope.
Local Open Scope routine_scope.

Record world (S : Type) := mkWorld {
  perform : forall c : call, S -> outcome (answer c) * S;
  time : S -> Z
}.
Arguments perform {S} _ _ _.
Arguments time {S} _ _.

Fixpoint play {S A} (W : world S) (m : routine A) (s : S)
  : list call * outcome A * S :=
  match m with
  | Finish a => ([], Resolved a, s)
  | Fail e => ([], Rejected e, s)
  | Tick k => play W (k (time W s)) s
  | Invoke c k =>
      let '(r, s1) := perform W c s in
      let '(tr, res, s2) := play W (k r) s1 in
      (c :: tr, res, s2)
  end.

(** A world without state that answers each call by a fixed table. *)
Definition fixed_world (table : forall c : call, outcome (answer c)) (t : Z)
  : world unit :=
  mkWorld unit (fun c s => (table c, s)) (fun _ => t).

(** [res.status(500).json({ error: error.message })] *)
Definition failure (e : JsError) : Reply :=
  mkReply 500 (object [field "error" (JString <$> err_message e)]).

(** *** gemini.js *)

Definition speechRequest (safeText : string) : ContentRequest :=
  mkContentRequest "speech" None [TextPart safeText] (AudioConfig "Charon").

(** [result.response.candidates?.[0]?.content?.parts?.[0]?.inlineData?.data] *)
Definition base64Audio (r : ContentResult) : option string :=
  candidate ← candidates r ≫= head;
  content ← candidate_content candidate;
  part ← content_parts content ≫= head;
  inline ← part_inlineData part;
  inline_data inline.

Definition no_audio : JsError := mkError None (Some "No audio data generated") None.

(** POST /speech *)
Definition speech (text : option string) : routine Reply :=
  attempt
    (match Js.truthy text with
     | None => Finish (mkReply 400 (object [field "error" (Some (JString "Text is required"))]))
     | Some t =>
         let safeText := Js.slice 0 4500 t in
         r <- invoke (GenerateContentCall (speechRequest safeText)) ;;
         match Js.truthy (base64Audio r) with
         | None => Fail no_audio
         | Some audio =>
             Finish (mkReply 200 (object [field "audioData" (Some (JString audio))]))
         end
     end)
    (fun e =>
       Finish (mkReply 500
                 (object [field "error"
                            (Some (JString (Js.or_default (err_message e)
                                              "Failed to generate speech")))]))).

Definition transcribePrompt (lang : string) : string :=
"ROLE: Expert Medical Transcriptionist.
TASK: Transcribe the audio verbatim. 
LANG: " +:+ lang +:+ ".
RULES:
1. Capture EXACT medical terminology, drug names, and dosages.
2. Do NOT paraphrase or summarize. Write exactly what is said.
3. If background noise is present, focus only on the voice.
4. Use correct capitalization for proprietary drug names.
5. If a term is ambiguous, use the most likely clinical spelling based on context.".

Definition transcribeRequest (audioBase64 : string) (mimeType languageCode : option string)
  : ContentRequest :=
  mkContentRequest "transcription" (Some "user")
    [InlinePart (Js.or_default mimeType "audio/wav") audioBase64;
     TextPart (transcribePrompt (Js.or_default languageCode "en-US"))]
    NoConfig.

(** [result.response.text()], which may throw. *)
Definition textOf (r : ContentResult) : routine string :=
  match response_text r with
  | Resolved t => Finish t
  | Rejected e => Fail e
  end.

(** POST /transcribe *)
Definition transcribe (audioBase64 mimeType languageCode : option string) : routine Reply :=
  attempt
    (match Js.truthy audioBase64 with
     | None =>
         Finish (mkReply 400 (object [field "error" (Some (JString "Audio data required"))]))
     | Some audio =>
         r <- invoke (GenerateContentCall (transcribeRequest audio mimeType languageCode)) ;;
         t <- textOf r ;;
         Finish (mkReply 200 (object [field "text" (Some (JString t))]))
     end)
    (fun e => Finish (failure e)).

Definition lookupPrompt (term region language : option string) : string :=
  "Define the medical term " +:+
  Js.dquote +:+
  interpolate term +:+
  Js.dquote +:+
  ". 
       CONTEXT: Medical Dictionary for Clinicians (" +:+
  Js.or_default region "International" +:+
  ").
       TARGET_LANGUAGE_CODE: " +:+
  Js.or_default language "en-US" +:+
  ".
       
       INSTRUCTIONS:
       1. TRANSLATE the term name/title into the target language specified by " +:+
  interpolate language +:+
  ".
       2. Provide the definition and context strictly in the target language.
       
       FORMAT:
       ## [Translated Term Name]
       **Definition**: [Precise clinical definition in target language]
       
       **Clinical Context**: [Brief pathophysiology or relevance in target language]
       
       **Key Points**:
       - [Bullet 1 in target language]
       - [Bullet 2 in target language]
       
       Keep it structured, concise, and professional. No conversational filler.".

Definition lookupRequest (term region language : option string) : ContentRequest :=
  mkContentRequest "dictionary" (Some "user")
    [TextPart (lookupPrompt term region language)] NoConfig.

(** POST /lookup *)
Definition lookup (term region language : option string) : routine Reply :=
  attempt
    (r <- invoke (GenerateContentCall (lookupRequest term region language)) ;;
     t <- textOf r ;;
     Finish (mkReply 200 (object [field "text" (Some (JString t))])))
    (fun e => Finish (failure e)).

(** *** The chat router's GET /debug *)

Definition debug : routine Reply :=
  attempt
    (r <- invoke UsageCount ;;
     rows <- checked r ;;
     Finish (mkReply 200
               (object [field "status" (Some (JString "ok"));
                        field "message" (Some (JString "question_usage table is accessible"));
                        field "count"
                          (Some (JNumber (Z.of_nat (length (default [] rows)))))])))
    (fun e =>
       Finish (mkReply 500
                 (object [field "error"
                            (Some (JString ("Table check failed: "
                                            +:+ interpolate (err_message e))))]))).

(** *** The user router *)

(** POST /accept-terms *)
Definition acceptTerms (toISOString : Z -> string) (user : Requester) : routine Reply :=
  attempt
    (t <- today ;;
     r <- invoke (AcceptTerms (requester_id user) (toISOString t)) ;;
     profile <- checked r ;;
     Finish (mkReply 200 (object [field "success" (Some (JBool true));
                                  field "profile" profile])))
    (fun e => Finish (failure e)).

(** GET /me *)
Definition me (user : Requester) : routine Reply :=
  attempt
    (r <- invoke (ProfileById (requester_id user)) ;;
     profile <- checked r ;;
     match profile with
     | None =>
         Finish (mkReply 200
                   (object [field "id" (Some (JString (requester_id user)));
                            field "email" (JString <$> requester_email user);
                            field "full_name"
                              (Some (JString (Js.or_default (requester_full_name user) "")))]))
     | Some row => Finish (mkReply 200 row)
     end)
    (fun e => Finish (failure e)).

Definition defaultSender : string :=
  Js.dquote +:+ "MDnexa Support" +:+ Js.dquote +:+ " <noreply@mdnexa.com>".

Definition goodbye (mailFrom : option string) (html recipient : string) : call :=
  SendMail (Js.or_default mailFrom defaultSender) recipient
    "Your account has been deactivated - MDnexa" html.

(** DELETE /delete-account; [mailFrom] is [process.env.MAIL_FROM], [html]
    the body of the goodbye mail. *)
Definition deleteAccount (mailFrom : option string) (html : string) (user : Requester)
  : routine Reply :=
  attempt
    (match Js.truthy (requester_email user) with
     | Some email =>
         attempt (invoke (goodbye mailFrom html email) ;;; Finish tt)
           (fun _ => Finish tt)
     | None => Finish tt
     end ;;;
     r <- invoke (DeleteUser (requester_id user)) ;;
     checked r ;;;
     Finish (mkReply 200
               (object [field "success" (Some (JBool true));
                        field "message" (Some (JString "Account deleted successfully"))])))
    (fun _ =>
       Finish (mkReply 500
                 (object [field "error"
                            (Some (JString "Failed to delete account. Please try again."))]))).

(** *** health.js *)

(** GET /api/health *)
Definition health (toISOString : Z -> string) : routine Reply :=
  timestamp <- today ;;
  attempt
    (start <- today ;;
     r <- invoke FeatureFlagsCount ;;
     finish <- today ;;
     checked r ;;;
     Finish (mkReply 200
               (object [field "server" (Some (JString "ok"));
                        field "database" (Some (JString "connected"));
                        field "timestamp" (Some (JString (toISOString timestamp)));
                        field "db_latency_ms" (Some (JNumber (finish - start)))])))
    (fun e =>
       Finish (mkReply 503
                 (object [field "server" (Some (JString "ok"));
                          field "database" (Some (JString "error"));
                          field "timestamp" (Some (JString (toISOString timestamp)));
                          field "error" (JString <$> err_message e)]))).

Definition smokeTest : call :=
  GenerateMessageCall "Say 'OK'" "Reply with strictly 'OK'." 5.

Definition unexpected (text : string) : JsError :=
  mkError None (Some ("AI generated unexpected content: " +:+ text)) None.

(** GET /api/health/ai *)
Definition healthAi : routine Reply :=
  attempt
    (g <- invoke smokeTest ;;
     if Js.includes "OK" (gen_text g)
     then Finish (mkReply 200
                    (object [field "status" (Some (JString "ok"));
                             field "model_used" (Some (JString (gen_model g)));
                             field "test_response" (Some (JString (gen_text g)))]))
     else Fail (unexpected (gen_text g)))
    (fun e =>
       Finish (mkReply 503
                 (object [field "status" (Some (JString "error"));
                          field "message" (JString <$> err_message e)]))).

(** *** settings.js *)

Definition no_rows_read : JsError :=
  mkError None (Some "Cannot read properties of null (reading '0')") None.

(** POST /logo *)
Definition logo (user : Requester) (logoUrl : option string) : routine Reply :=
  attempt
    (r <- invoke (UpdateLogo (requester_id user) logoUrl) ;;
     rows <- checked r ;;
     match rows with
     | None => Fail no_rows_read
     | Some l =>
         Finish (mkReply 200 (object [field "success" (Some (JBool true));
                                      field "profile" (head l)]))
     end)
    (fun e => Finish (failure e)).

Definition prefsJson (prefs : gmap string json) : json := JObject (map_to_list prefs).

(** [data?.preferences || {}] *)
Definition storedPrefs (row : option PrefRow) : gmap string json :=
  default ∅ (row ≫= preferences).

(** GET /preferences *)
Definition getPreferences (user : Requester) : routine Reply :=
  attempt
    (r <- invoke (PreferencesOf (requester_id user)) ;;
     row <- checked r ;;
     Finish (mkReply 200 (prefsJson (storedPrefs row))))
    (fun e => Finish (failure e)).

(** [{ ...existing, ...updates }]: the later spread wins. *)
Definition spread (existing updates : gmap string json) : gmap string json :=
  updates ∪ existing.

(** PUT /preferences *)
Definition putPreferences (user : Requester) (updates : gmap string json) : routine Reply :=
  attempt
    (existing <- invoke (PreferencesOf (requester_id user)) ;;
     let newPrefs := spread (storedPrefs (data existing)) updates in
     r <- invoke (UpdatePreferences (requester_id user) newPrefs) ;;
     checked r ;;;
     Finish (mkReply 200 (object [field "success" (Some (JBool true));
                                  field "preferences" (Some (prefsJson newPrefs))])))
    (fun e => Finish (failure e)).

End Routes.

(** ** The preferences column of [profiles], as a reference table *)

Module PrefStore.

(** User id to profile row.  Reading a user without a row resolves to no
    data and no error ([maybeSingle]); an update whose filter matches no
    row changes nothing and reports no error. *)
Definition table : Type := gmap string Routes.PrefRow.

Definition rowJson (id : string) (row : Routes.PrefRow) : json :=
  JObject [("id", JString id);
           ("preferences",
            match Routes.preferences row with
            | Some p => Routes.prefsJson p
            | None => JNull
            end)].

Definition not_served : JsError :=
  mkError None (Some "fetch failed") None.

Definition perform (c : Routes.call) (s : table)
  : outcome (Routes.answer c) * table :=
  match c return outcome (Routes.answer c) * table with
  | Routes.PreferencesOf id => (Resolved (mkReply (s !! id) None), s)
  | Routes.UpdatePreferences id prefs =>
      match s !! id with
      | Some _ =>
          let row := Routes.mkPrefRow (Some prefs) in
          (Resolved (mkReply (Some [rowJson id row]) None), <[id := row]> s)
      | None => (Resolved (mkReply (Some []) None), s)
      end
  | _ => (Rejected not_served, s)
  end.

Definition world : Routes.world table := Routes.mkWorld table perform (fun _ => 0).

Definition carol : Routes.Requester :=
  Routes.mkRequester "u1" (Some "carol@example.com") None.

Definition dave : Routes.Requester :=
  Routes.mkRequester "u9" (Some "dave@example.com") None.

Definition carol_row : Routes.PrefRow :=
  Routes.mkPrefRow (Some {[ "language" := JString "en-US"; "region" := JString "EU" ]}).

Definition profiles : table := {[ "u1" := carol_row ]}.

Definition german : gmap string json := {[ "language" := JString "de-DE" ]}.

End PrefStore.

(** ** Further scenarios over the reference store *)

Module Scenarios.

(** A request without an Authorization header that names a session. *)
Definition guest_turn : ChatRequest :=
  {| authorization := None;
     message := "Q";
     history := [];
     language := None;
     region := None;
     country := None;
     userRole := Some "Nurse";
     isShortAnswer := FlagAbsent;
     sessionId := Some "s-old" |}.

(** A store, behind the client whose inserts throw, from which another
    client deletes the session as soon as a user row of it has been
    stored. *)
Definition racing_exec (o : op) (st : RefStore) : outcome (reply o) * RefStore :=
  match o return outcome (reply o) * RefStore with
  | MessagesInsert row =>
      let '(r, st1) := strict_exec (MessagesInsert row) st in
      (r, match msg_role row with
          | RoleUser =>
              set_sessions (delete (msg_session_id row) (rs_sessions st1)) st1
          | RoleModel => st1
          end)
  | o' => strict_exec o' st
  end.

Definition racing_env : env RefStore := mkEnv RefStore racing_exec rs_time.

(** A foreign-key violation that has nothing to do with the session: the
    message's [user_id] has no row in [users]. *)
Definition orphan_user : JsError :=
  mkError (Some "23503")
    (Some "insert or update on table chat_messages violates foreign key constraint")
    (Some ("Key (user_id)=(u1) is not present in table "
           +:+ Js.dquote +:+ "users" +:+ Js.dquote +:+ ".")).

Definition orphan_fault (o : op) : option JsError :=
  match o with
  | MessagesInsert _ => Some orphan_user
  | _ => None
  end.

(** Texts outside ASCII: U+00E4, two bytes and one code unit, and
    U+1F600, four bytes and a surrogate pair. *)
Definition a_umlaut : string :=
  String (ascii_of_nat 195) (String (ascii_of_nat 164) "").

Definition grinning_face : string :=
  String (ascii_of_nat 240)
    (String (ascii_of_nat 159) (String (ascii_of_nat 152) (String (ascii_of_nat 128) ""))).

Fixpoint repeated (n : nat) (s : string) : string :=
  match n with
  | O => ""
  | Datatypes.S n' => s +:+ repeated n' s
  end.

End Scenarios.

(** * Properties *)

(** Membership in an explicit trace, one operation at a time. *)
Ltac in_trace H :=
  repeat match type of H with
         | _ ∈ _ :: _ => apply elem_of_cons in H as [H|H]; [simplify_eq/=; auto|]
         | _ ∈ [] => by apply elem_of_nil in H
         end.

(** ** Runs of composed programs *)

Section RunLemmas.

Context {S : Type} (E : env S).

Lemma run_bind {A B} (m : prog A) (f : A -> prog B) (s : S) :
  run E (bind m f) s =
  match run E m s with
  | (tr, Resolved a, s1) =>
      let '(tr2, r, s2) := run E (f a) s1 in (tr ++ tr2, r, s2)
  | (tr, Rejected e, s1) => (tr, Rejected e, s1)
  end.
Proof.
  revert s. induction m as [a|e|k IH|o k IH]; intros s; simpl.
  - by destruct (run E (f a) s) as [[tr r] s2].
  - done.
  - apply IH.
  - destruct (exec E o s) as [r s1]. rewrite IH.
    destruct (run E (k r) s1) as [[tr [a|e]] s2]; [|done].
    by destruct (run E (f a) s2) as [[tr2 r2] s3].
Qed.

Lemma run_try_catch {A} (m : prog A) (h : JsError -> prog A) (s : S) :
  run E (try_catch m h) s =
  match run E m s with
  | (tr, Resolved a, s1) => (tr, Resolved a, s1)
  | (tr, Rejected e, s1) =>
      let '(tr2, r, s2) := run E (h e) s1 in (tr ++ tr2, r, s2)
  end.
Proof.
  revert s. induction m as [a|e|k IH|o k IH]; intros s; simpl.
  - done.
  - by destruct (run E (h e) s) as [[tr r] s2].
  - apply IH.
  - destruct (exec E o s) as [r s1]. rewrite IH.
    destruct (run E (k r) s1) as [[tr [a|e]] s2]; [done|].
    by destruct (run E (h e) s2) as [[tr2 r2] s3].
Qed.

Lemma run_await (o : op) (s : S) :
  run E (await o) s = ([o], (exec E o s).1, (exec E o s).2).
Proof.
  unfold await. simpl. by destruct (exec E o s) as [[x|e] s1].
Qed.

Lemma run_now (s : S) : run E now s = ([], Resolved (clock E s), s).
Proof. done. Qed.

Lemma only_ops_bind {A B} (P : op -> Prop) (m : prog A) (f : A -> prog B) :
  only_ops P m -> (forall a, only_ops P (f a)) -> only_ops P (bind m f).
Proof.
  intros Hm Hf. induction Hm; simpl; try by constructor. apply Hf.
Qed.

Lemma only_ops_try_catch {A} (P : op -> Prop) (m : prog A) (h : JsError -> prog A) :
  only_ops P m -> (forall e, only_ops P (h e)) -> only_ops P (try_catch m h).
Proof.
  intros Hm Hh. induction Hm; simpl; try by constructor. apply Hh.
Qed.

Lemma only_ops_await (P : op -> Prop) (o : op) : P o -> only_ops P (await o).
Proof.
  intros Ho. constructor; [done|]. intros [x|e]; constructor.
Qed.

Lemma only_ops_now (P : op -> Prop) : only_ops P now.
Proof. constructor. intros t. constructor. Qed.

Lemma run_only_ops {A} (P : op -> Prop) (m : prog A) (s : S) :
  only_ops P m -> Forall P (run E m s).1.1.
Proof.
  intros Hm. revert s. induction Hm as [a|e|k Hk IH|o k Ho Hk IH]; intros s; simpl.
  - constructor.
  - constructor.
  - apply IH.
  - destruct (exec E o s) as [r s1]. specialize (IH r s1).
    destruct (run E (k r) s1) as [[tr res] s2]. simpl in *. by constructor.
Qed.

(** A property of the state kept by every operation of the footprint is
    kept by the run. *)
Lemma run_invariant {A} (P : op -> Prop) (I : S -> Prop) (m : prog A) (s : S) :
  (forall o s, P o -> I s -> I (exec E o s).2) ->
  only_ops P m -> I s -> I (run E m s).2.
Proof.
  intros Hstep Hm. revert s.
  induction Hm as [a|e|k Hk IH|o k Ho Hk IH]; intros s Hs; simpl; auto.
  pose proof (Hstep o s Ho Hs) as Hs1.
  destruct (exec E o s) as [r s1]. specialize (IH r s1 Hs1).
  by destruct (run E (k r) s1) as [[tr res] s2].
Qed.

Lemma count_ops_app (p : op -> bool) (tr1 tr2 : trace) :
  count_ops p (tr1 ++ tr2) = (count_ops p tr1 + count_ops p tr2)%nat.
Proof. unfold count_ops. by rewrite List.filter_app, length_app. Qed.

Lemma count_ops_cons (p : op -> bool) (o : op) (tr : trace) :
  count_ops p (o :: tr) = ((if p o then 1 else 0) + count_ops p tr)%nat.
Proof. unfold count_ops. simpl. by destruct (p o). Qed.

Lemma count_ops_none (p : op -> bool) (tr : trace) :
  Forall (fun o => p o = false) tr -> count_ops p tr = 0%nat.
Proof.
  unfold count_ops. induction 1 as [|o tr Ho _ IH]; simpl; [done|]. by rewrite Ho.
Qed.

(** An operation found in [pre ++ mid ++ post] that can occur in neither
    [pre] nor [post] lies in [mid]. *)
Lemma trace_split_middle (P : op -> Prop) (x : op) (pre mid post p q : trace) :
  Forall P pre -> Forall P post -> ~ P x ->
  pre ++ mid ++ post = p ++ x :: q ->
  exists p' q', mid = p' ++ x :: q' /\ p = pre ++ p'.
Proof.
  intros Hpre Hpost Hx. revert p.
  induction Hpre as [|a pre Ha _ IH]; intros p Heq.
  - simpl in Heq. revert p Heq. induction mid as [|m mid IHm]; intros p Heq.
    + simpl in Heq. subst post. apply Forall_app in Hpost as [_ Hpost].
      by inversion Hpost.
    + destruct p as [|b p]; simpl in Heq; injection Heq as -> Heq.
      * by exists [], mid.
      * destruct (IHm p Heq) as (p' & q' & -> & Hp). simpl in Hp. subst p.
        by exists (b :: p'), q'.
  - destruct p as [|b p]; simpl in Heq; injection Heq as -> Heq; [done|].
    destruct (IH p Heq) as (p' & q' & -> & ->). by exists p', q'.
Qed.

Lemma only_ops_any {A} (m : prog A) : only_ops (fun _ => True) m.
Proof. induction m; by constructor. Qed.

(** A property of the state kept by every operation is kept by every run. *)
Lemma run_preserves {A} (I : S -> Prop) (m : prog A) (s : S) :
  (forall o s, I s -> I (exec E o s).2) -> I s -> I (run E m s).2.
Proof.
  intros Hstep. apply (run_invariant (fun _ => True)); [auto|apply only_ops_any].
Qed.

End RunLemmas.

(** ** History formatting *)

Lemma formatTurn_user (m : HistoryMsg) :
  turn_role (formatTurn m) = RoleUser <-> hist_role m = Some "user".
Proof.
  unfold formatTurn; simpl. destruct (hist_role m) as [r|]; [|done].
  destruct (String.eqb_spec r "user") as [->|Hne]; split; try done.
  intros [= ->]. done.
Qed.

Lemma shiftModels_split (h : list Turn) :
  exists leading,
    h = leading ++ shiftModels h /\
    Forall (fun t => turn_role t = RoleModel) leading.
Proof.
  induction h as [|t rest (leading & Heq & Hall)]; simpl.
  - by exists [].
  - destruct (turn_role t) eqn:Hrole.
    + by exists [].
    + exists (t :: leading). split; [simpl; congruence | by constructor].
Qed.




(** ** The persistence attempt and its recovery *)

Lemma names_session_table_foreign_key (e : JsError) :
  names_session_table e = true -> isForeignKeyError e = true.
Proof.
  unfold names_session_table, isForeignKeyError.
  destruct (err_details e); [|done]. intros ->. by rewrite orb_true_r.
Qed.

Section Persistence.

Context {S : Type} (E : env S).
Variable toLocaleString : Z -> string.
Variables (sid : string) (user : AuthUser) (userText modelText : string).
Variables (region country : option string).

Let uid := user_id user.
Let attempt := persistMessages sid uid userText modelText.
Let U := userRow sid uid userText.
Let M := modelRow sid uid modelText.

(** The three writes of one attempt, stopped by the first rejection. *)
Lemma run_persistMessages (s : S) :
  run E attempt s =
  match exec E U s with
  | (Rejected e, s1) => ([U], Rejected e, s1)
  | (Resolved _, s1) =>
      match exec E M s1 with
      | (Rejected e, s2) => ([U; M], Rejected e, s2)
      | (Resolved _, s2) =>
          let T := SessionsTouch sid (clock E s2) in
          match exec E T s2 with
          | (Rejected e, s3) => ([U; M; T], Rejected e, s3)
          | (Resolved _, s3) => ([U; M; T], Resolved tt, s3)
          end
      end
  end.
Proof.
  unfold attempt, persistMessages, U, M, userRow, modelRow. simpl.
  destruct (exec E _ s) as [[x1|e1] s1]; simpl; [|done].
  destruct (exec E _ s1) as [[x2|e2] s2]; simpl; [|done].
  by destruct (exec E (SessionsTouch sid (clock E s2)) s2) as [[x3|e3] s3].
Qed.

(** Every attempt issues a prefix of user insert, model insert, touch. *)
Lemma attempt_trace (s : S) :
  exists t,
    (run E attempt s).1.1 = [U]
    \/ (run E attempt s).1.1 = [U; M]
    \/ (run E attempt s).1.1 = [U; M; SessionsTouch sid t].
Proof.
  rewrite run_persistMessages.
  destruct (exec E U s) as [[x1|e1] s1]; [|exists 0; by left].
  destruct (exec E M s1) as [[x2|e2] s2]; [|exists 0; right; by left].
  exists (clock E s2). cbv zeta.
  destruct (exec E (SessionsTouch sid (clock E s2)) s2) as [[x3|e3] s3];
    right; by right.
Qed.

(** The whole recovery, case by case. *)
Lemma run_persistTurn (s : S) :
  run E (persistTurn toLocaleString sid user userText modelText region country) s =
  match run E attempt s with
  | (tr1, Resolved _, s1) => (tr1, Resolved true, s1)
  | (tr1, Rejected e, s1) =>
      if isForeignKeyError e then
        let create := jitSession toLocaleString sid user region country (clock E s1) in
        match exec E create s1 with
        | (Resolved _, s2) =>
            let '(tr2, r2, s3) := run E attempt s2 in
            (tr1 ++ create :: tr2, Resolved (is_resolved r2), s3)
        | (Rejected _, s2) => (tr1 ++ [create], Resolved false, s2)
        end
      else (tr1, Resolved false, s1)
  end.
Proof.
  unfold persistTurn. rewrite run_try_catch, run_bind. fold uid. fold attempt.
  destruct (run E attempt s) as [[tr1 [[]|e]] s1]; cbn [run].
  { by rewrite app_nil_r. }
  destruct (isForeignKeyError e); [|cbn [run]; by rewrite app_nil_r].
  rewrite run_try_catch, run_bind, run_now. cbv zeta iota beta.
  rewrite run_bind, run_await. fold uid. unfold jitSession.
  destruct (exec E (SessionsInsert _) s1) as [[x|e2] s2]; cbn [fst snd run app];
    [|done].
  rewrite run_bind.
  destruct (run E attempt s2) as [[tr2 [[]|e3]] s3]; cbn [run app is_resolved];
    by rewrite ?app_nil_r.
Qed.

(** Case analysis on the writes a recovery can issue. *)
Lemma persistTurn_shapes (s : S) (P : trace * outcome bool * S -> Prop) :
  (forall r s1, P ([U], Resolved r, s1)) ->
  (forall r s1, P ([U; M], Resolved r, s1)) ->
  (forall r t s1, P ([U; M; SessionsTouch sid t], Resolved r, s1)) ->
  (forall tr1 tr2 r t s1,
      tr1 = [U] \/ tr1 = [U; M] \/ (exists t1, tr1 = [U; M; SessionsTouch sid t1]) ->
      tr2 = [] \/ tr2 = [U] \/ tr2 = [U; M]
        \/ (exists t2, tr2 = [U; M; SessionsTouch sid t2]) ->
      P (tr1 ++ jitSession toLocaleString sid user region country t :: tr2,
         Resolved r, s1)) ->
  P (run E (persistTurn toLocaleString sid user userText modelText region country) s).
Proof.
  intros H1 H2 H3 H4. rewrite run_persistTurn.
  destruct (attempt_trace s) as [t1 Ht1].
  destruct (run E attempt s) as [[tr1 r1] s1]. simpl in Ht1.
  assert (forall r s, P (tr1, Resolved r, s)) as Hfirst.
  { intros r s'. destruct Ht1 as [->| [->| ->]]; auto. }
  assert (tr1 = [U] \/ tr1 = [U; M] \/ (exists t1, tr1 = [U; M; SessionsTouch sid t1]))
    as Htr1 by (destruct Ht1 as [->| [->| ->]]; eauto).
  destruct r1 as [[]|e]; [apply Hfirst|].
  destruct (isForeignKeyError e); [|apply Hfirst]. cbv zeta.
  destruct (exec E _ s1) as [[x|e2] s2].
  - destruct (attempt_trace s2) as [t2 Ht2].
    destruct (run E attempt s2) as [[tr2 r2] s3]. simpl in Ht2.
    apply H4; [done|]. destruct Ht2 as [->| [->| ->]]; eauto 6.
  - change [?o] with (nil ++ o :: nil) at 1.
    rewrite <- (app_nil_r [jitSession _ _ _ _ _ _]).
    change ([?o] ++ []) with (o :: nil).
    apply H4; auto.
Qed.

(** The recovery in any environment: the trace when the first attempt is
    rejected with an error naming the session table and the creation is
    accepted; the trace when the first attempt goes through; the bounds
    that hold whatever fails. *)
Lemma persistTurn_recovery (s : S) :
  let turn := persistTurn toLocaleString sid user userText modelText region country in
  let tr := (run E turn s).1.1 in
  (forall tr1 e s1 x s2,
      run E attempt s = (tr1, Rejected e, s1) ->
      names_session_table e = true ->
      exec E (jitSession toLocaleString sid user region country (clock E s1)) s1
        = (Resolved x, s2) ->
      run E turn s =
        (tr1 ++ jitSession toLocaleString sid user region country (clock E s1)
               :: (run E attempt s2).1.1,
         Resolved (is_resolved (run E attempt s2).1.2),
         (run E attempt s2).2)
      /\ count_ops is_session_create tr = 1%nat
      /\ count_ops is_user_insert tr = 2%nat) /\
  (forall tr1 s1,
      run E attempt s = (tr1, Resolved tt, s1) ->
      run E turn s = (tr1, Resolved true, s1)
      /\ count_ops is_session_create tr = 0%nat) /\
  ((count_ops is_session_create tr <= 1)%nat
   /\ (count_ops is_user_insert tr <= 2)%nat
   /\ forall row, SessionsInsert row ∈ tr ->
        session_id row = sid /\ session_user_id row = user_id user).
Proof.
  intros turn tr. split; [|split].
  - intros tr1 e s1 x s2 Hfirst Hshape Hcreate.
    assert (run E turn s =
      (tr1 ++ jitSession toLocaleString sid user region country (clock E s1)
             :: (run E attempt s2).1.1,
       Resolved (is_resolved (run E attempt s2).1.2), (run E attempt s2).2)) as Hrun.
    { unfold turn. rewrite run_persistTurn, Hfirst.
      rewrite (names_session_table_foreign_key e Hshape). cbv zeta.
      rewrite Hcreate. by destruct (run E attempt s2) as [[tr2 r2] s3]. }
    split; [done|]. unfold tr. rewrite Hrun. cbn [fst snd].
    destruct (attempt_trace s) as [t1 Ht1]. rewrite Hfirst in Ht1. simpl in Ht1.
    destruct (attempt_trace s2) as [t2 Ht2].
    destruct Ht1 as [->| [->| ->]]; destruct Ht2 as [->| [->| ->]]; by split.
  - intros tr1 s1 Hfirst.
    assert (run E turn s = (tr1, Resolved true, s1)) as Hrun.
    { unfold turn. by rewrite run_persistTurn, Hfirst. }
    split; [done|]. unfold tr. rewrite Hrun. cbn [fst snd].
    destruct (attempt_trace s) as [t1 Ht1]. rewrite Hfirst in Ht1. simpl in Ht1.
    by destruct Ht1 as [->| [->| ->]].
  - unfold tr, turn. apply persistTurn_shapes; cbn [fst snd].
    + intros; (split; [|split]); [cbn; lia ..|]. intros row Hin.
      unfold U, userRow in Hin. by in_trace Hin.
    + intros; (split; [|split]); [cbn; lia ..|]. intros row Hin.
      unfold U, M, userRow, modelRow in Hin. by in_trace Hin.
    + intros; (split; [|split]); [cbn; lia ..|]. intros row Hin.
      unfold U, M, userRow, modelRow in Hin. by in_trace Hin.
    + intros tr1 tr2 r t s1 Htr1 Htr2.
      unfold U, M, userRow, modelRow, jitSession in *.
      destruct Htr1 as [->| [->| [t1 ->]]];
        destruct Htr2 as [->| [->| [->| [t2 ->]]]];
        (split; [cbn; lia | split; [cbn; lia |]]);
        intros row Hin; cbn [app] in Hin; by in_trace Hin.
Qed.

(** In the writes of a turn, the retry included, every insert of a model
    row is the model row of this turn and comes directly after the insert
    of its user row. *)
Lemma persistTurn_user_before_model (s : S) (pre post : trace) (row : MessageRow) :
  (run E (persistTurn toLocaleString sid user userText modelText region country) s).1.1
    = pre ++ MessagesInsert row :: post ->
  msg_role row = RoleModel ->
  row = mkMessage sid (user_id user) RoleModel modelText /\
  exists before, pre = before ++ [userRow sid (user_id user) userText].
Proof.
  revert pre post. apply persistTurn_shapes; cbn [fst snd].
  - intros _ _ pre post H Hrole. unfold U, M, userRow, modelRow in *.
    repeat (destruct pre as [|? pre]; simplify_eq/=).
  - intros _ _ pre post H Hrole. unfold U, M, userRow, modelRow in *.
    repeat (destruct pre as [|? pre]; simplify_eq/=). split; [done|]. by exists [].
  - intros _ t _ pre post H Hrole. unfold U, M, userRow, modelRow in *.
    repeat (destruct pre as [|? pre]; simplify_eq/=). split; [done|]. by exists [].
  - intros tr1 tr2 _ t _ Htr1 Htr2 pre post H Hrole.
    unfold uid, U, M, userRow, modelRow, jitSession in *.
    destruct Htr1 as [->| [->| [t1 ->]]];
      destruct Htr2 as [->| [->| [->| [t2 ->]]]];
      repeat (destruct pre as [|? pre]; simplify_eq/=);
      (split; [done|]);
      match goal with
      | |- exists before, ?l = _ => exists (removelast l); reflexivity
      end.
Qed.

End Persistence.

(** ** The handler, step by step *)

Section Handler.

Context {S : Type} (E : env S).
Variable hasUnlimitedAccess : AccessSubject -> bool.
Variable systemInstructionText :
  option string -> option string -> option string -> string -> bool -> string.
Variable toLocaleString : Z -> string.

#[local] Abbreviation postMessage := (postMessage hasUnlimitedAccess systemInstructionText toLocaleString).
#[local] Abbreviation messageBody := (messageBody hasUnlimitedAccess systemInstructionText toLocaleString).
#[local] Abbreviation accessControl := (accessControl hasUnlimitedAccess).
#[local] Abbreviation genArgs := (genArgs systemInstructionText).
#[local] Abbreviation persistence := (persistence toLocaleString).
#[local] Abbreviation persistTurn := (persistTurn toLocaleString).

Lemma run_authenticate (req : ChatRequest) (s : S) :
  run E (authenticate req) s =
  match token_of req with
  | None => ([], Resolved None, s)
  | Some token =>
      match exec E (AuthGetUser token) s with
      | (Resolved r, s1) =>
          ([AuthGetUser token],
           Resolved (match error r with None => data r | Some _ => None end), s1)
      | (Rejected _, s1) => ([AuthGetUser token], Resolved None, s1)
      end
  end.
Proof.
  unfold authenticate, token_of.
  destruct (Js.truthy (authorization req)) as [h|]; [|done].
  destruct (Js.truthy (nth_error (Js.split " " h) 1)) as [token|]; [|done].
  destruct (String.eqb token "null"); [done|]. simpl.
  by destruct (exec E (AuthGetUser token) s) as [[r|e] s1].
Qed.

(** Authentication never throws and only ever asks for the user. *)
Lemma authenticate_resolves (req : ChatRequest) (s : S) :
  exists tr u s1,
    run E (authenticate req) s = (tr, Resolved u, s1) /\
    (tr = [] \/ exists token, token_of req = Some token /\ tr = [AuthGetUser token]).
Proof.
  rewrite run_authenticate. destruct (token_of req) as [token|]; [|by eauto 6].
  destruct (exec E (AuthGetUser token) s) as [[r|e] s1]; eauto 8.
Qed.

Lemma run_checkUsage (user : AuthUser) (s : S) :
  run E (checkUsage user) s =
  let read := UsageSelect (user_id user) in
  match exec E read s with
  | (Rejected e, s1) => ([read], Rejected e, s1)
  | (Resolved r, s1) =>
      if (5 <=? currentCount (data r))%Z
      then ([read], Resolved (Some limit_reached), s1)
      else
        let write := usageWrite (user_id user) (data r) in
        match exec E write s1 with
        | (Resolved _, s2) => ([read; write], Resolved None, s2)
        | (Rejected e, s2) => ([read; write], Rejected e, s2)
        end
  end.
Proof.
  unfold checkUsage. simpl.
  destruct (exec E (UsageSelect (user_id user)) s) as [[r|e] s1]; simpl; [|done].
  fold (currentCount (data r)).
  destruct (5 <=? currentCount (data r))%Z; [done|].
  destruct (data r) as [row|]; simpl.
  - by destruct (exec E (UsageUpdate _ _) s1) as [[x|e] s2].
  - by destruct (exec E (UsageInsert _ _) s1) as [[x|e] s2].
Qed.

Lemma run_accessControl (user : option AuthUser) (req : ChatRequest) (s : S) :
  run E (accessControl user req) s =
  match user with
  | None => ([], Resolved (inr (requestedRole req)), s)
  | Some u =>
      let fetch := ProfilesSelect (user_id u) in
      match exec E fetch s with
      | (Rejected e, s1) => ([fetch], Rejected e, s1)
      | (Resolved r, s1) =>
          let role := persona u (data r) (requestedRole req) in
          if hasUnlimitedAccess (mkSubject u (data r) (allRoles u (data r)))
          then ([fetch], Resolved (inr role), s1)
          else
            match run E (checkUsage u) s1 with
            | (tr, Resolved (Some resp), s2) => (fetch :: tr, Resolved (inl resp), s2)
            | (tr, Resolved None, s2) => (fetch :: tr, Resolved (inr role), s2)
            | (tr, Rejected e, s2) => (fetch :: tr, Rejected e, s2)
            end
      end
  end.
Proof.
  unfold accessControl. destruct user as [u|]; [|done].
  rewrite run_bind, run_await. cbv zeta.
  destruct (exec E (ProfilesSelect (user_id u)) s) as [[r|e] s1]; cbn [fst snd];
    [|done].
  destruct (hasUnlimitedAccess _); [done|].
  rewrite run_bind.
  destruct (run E (checkUsage u) s1) as [[tr [[resp|]|e]] s2]; simpl;
    by rewrite ?app_nil_r.
Qed.

Lemma run_persistence (user : option AuthUser) (req : ChatRequest)
    (formatted : list Turn) (responseText : string) (s : S) :
  run E (persistence user req formatted responseText) s =
  match user, Js.truthy (sessionId req) with
  | Some u, Some sid =>
      match run E (persistTurn sid u (message req) responseText (region req) (country req)) s with
      | (tr, Resolved ok, s1) =>
          if ok && (length formatted =? 0)%nat then
            let title := SessionsSetTitle sid (toLocaleString (clock E s1)) in
            match exec E title s1 with
            | (Resolved _, s2) => (tr ++ [title], Resolved tt, s2)
            | (Rejected e, s2) => (tr ++ [title], Rejected e, s2)
            end
          else (tr, Resolved tt, s1)
      | (tr, Rejected e, s1) => (tr, Rejected e, s1)
      end
  | _, _ => ([], Resolved tt, s)
  end.
Proof.
  unfold persistence. destruct user as [u|]; [|done].
  destruct (Js.truthy (sessionId req)) as [sid|]; [|done].
  rewrite run_bind.
  destruct (run E (persistTurn _ _ _ _ _ _) s) as [[tr [ok|e]] s1]; [|done].
  destruct (ok && _); [|simpl; by rewrite app_nil_r].
  simpl. by destruct (exec E (SessionsSetTitle _ _) s1) as [[x|e] s2].
Qed.

Lemma run_messageBody (user : option AuthUser) (req : ChatRequest) (s : S) :
  run E (messageBody user req) s =
  match run E (accessControl user req) s with
  | (tr, Rejected e, s1) => (tr, Rejected e, s1)
  | (tr, Resolved (inl resp), s1) => (tr, Resolved resp, s1)
  | (tr, Resolved (inr role), s1) =>
      let generate := GenerateMessage (genArgs req role) in
      match exec E generate s1 with
      | (Rejected e, s2) => (tr ++ [generate], Rejected e, s2)
      | (Resolved g, s2) =>
          match run E (persistence user req (formatHistory (history req)) (gen_text g)) s2 with
          | (tr2, Resolved _, s3) =>
              (tr ++ generate :: tr2, Resolved (Ok200 (gen_text g) (gen_model g)), s3)
          | (tr2, Rejected e, s3) => (tr ++ generate :: tr2, Rejected e, s3)
          end
      end
  end.
Proof.
  unfold messageBody. rewrite run_bind.
  destruct (run E (accessControl user req) s) as [[tr [[resp|role]|e]] s1];
    [simpl; by rewrite app_nil_r| |done].
  rewrite run_bind, run_await. cbv zeta.
  destruct (exec E (GenerateMessage _) s1) as [[g|e] s2]; cbn [fst snd]; [|done].
  rewrite run_bind.
  destruct (run E (persistence _ _ _ _) s2) as [[tr2 [[]|e]] s3]; simpl;
    by rewrite ?app_nil_r.
Qed.

Lemma run_postMessage (req : ChatRequest) (s : S) :
  run E (postMessage req) s =
  match run E (authenticate req) s with
  | (tr0, Rejected e, s1) => (tr0, Rejected e, s1)
  | (tr0, Resolved user, s1) =>
      match run E (messageBody user req) s1 with
      | (tr, Resolved resp, s2) => (tr0 ++ tr, Resolved resp, s2)
      | (tr, Rejected e, s2) => (tr0 ++ tr, Resolved (chatError e), s2)
      end
  end.
Proof.
  unfold postMessage. rewrite run_bind.
  destruct (run E (authenticate req) s) as [[tr0 [user|e]] s1]; [|done].
  rewrite run_try_catch.
  destruct (run E (messageBody user req) s1) as [[tr [resp|e]] s2]; simpl;
    by rewrite ?app_nil_r.
Qed.

(** *** Footprints of the persistence steps *)

Lemma persistMessages_footprint (sid uid userText modelText : string) :
  only_ops (fun o => is_turn_op o = true) (persistMessages sid uid userText modelText).
Proof.
  unfold persistMessages.
  apply only_ops_bind; [by apply only_ops_await|]. intros _.
  apply only_ops_bind; [by apply only_ops_await|]. intros _.
  apply only_ops_bind; [apply only_ops_now|]. intros t.
  apply only_ops_bind; [by apply only_ops_await|]. intros _. constructor.
Qed.

Lemma persistTurn_footprint (sid : string) (u : AuthUser) (userText modelText : string)
    (region country : option string) :
  only_ops (fun o => is_turn_op o = true)
    (persistTurn sid u userText modelText region country).
Proof.
  unfold persistTurn. apply only_ops_try_catch.
  - apply only_ops_bind; [apply persistMessages_footprint | constructor].
  - intros e. destruct (isForeignKeyError e); [|constructor].
    apply only_ops_try_catch; [|constructor].
    apply only_ops_bind; [apply only_ops_now|]. intros t.
    apply only_ops_bind; [by apply only_ops_await|]. intros _.
    apply only_ops_bind; [apply persistMessages_footprint | constructor].
Qed.

Lemma persistence_footprint (user : option AuthUser) (req : ChatRequest)
    (formatted : list Turn) (text : string) :
  only_ops (fun o => is_persistence_op o = true) (persistence user req formatted text).
Proof.
  unfold persistence. destruct user as [u|]; [|constructor].
  destruct (Js.truthy (sessionId req)) as [sid|]; [|constructor].
  apply only_ops_bind.
  - pose proof (persistTurn_footprint sid u (message req) text (region req) (country req))
      as Hturn.
    induction Hturn as [| | |o k Ho Hk IH]; constructor; auto. by destruct o.
  - intros ok. destruct (ok && _); [|constructor].
    apply only_ops_bind; [apply only_ops_now|]. intros t.
    apply only_ops_bind; [by apply only_ops_await | constructor].
Qed.

(** [persistTurn] never throws: its result is [persistenceSuccess]. *)
Lemma persistTurn_resolves (sid : string) (u : AuthUser) (userText modelText : string)
    (region country : option string) (s : S) :
  exists ok, (run E (persistTurn sid u userText modelText region country) s).1.2
             = Resolved ok.
Proof. apply persistTurn_shapes; eauto. Qed.

Lemma authenticate_count (p : op -> bool) (req : ChatRequest) (s : S) :
  (forall token, p (AuthGetUser token) = false) ->
  count_ops p (run E (authenticate req) s).1.1 = 0%nat.
Proof.
  intros Hp. destruct (authenticate_resolves req s) as (tr & u & s1 & -> & Htr).
  destruct Htr as [->|(token & _ & ->)]; cbn; [done|]. by rewrite Hp.
Qed.

(** *** Where the message rows are written *)

Lemma authenticate_footprint (P : op -> Prop) (req : ChatRequest) :
  (forall token, P (AuthGetUser token)) -> only_ops P (authenticate req).
Proof.
  intros HP. unfold authenticate.
  destruct (Js.truthy (authorization req)) as [h|]; [|constructor].
  destruct (Js.truthy (nth_error (Js.split " " h) 1)) as [token|]; [|constructor].
  destruct (String.eqb token "null"); [constructor|].
  apply only_ops_try_catch; [|constructor].
  apply only_ops_bind; [by apply only_ops_await | constructor].
Qed.

Lemma accessControl_footprint (user : option AuthUser) (req : ChatRequest) :
  only_ops (fun o => is_message_insert o = false) (accessControl user req).
Proof.
  unfold accessControl. destruct user as [u|]; [|constructor].
  apply only_ops_bind; [by apply only_ops_await|]. intros r.
  destruct (hasUnlimitedAccess _); [constructor|].
  apply only_ops_bind.
  - unfold checkUsage. apply only_ops_bind; [by apply only_ops_await|]. intros ur.
    destruct (data ur) as [row|]; simpl.
    + destruct (5 <=? questions_count row)%Z; [constructor|].
      constructor; [done|]. intros [x|e]; simpl; constructor.
    + constructor; [done|]. intros [x|e]; simpl; constructor.
  - intros [resp|]; constructor.
Qed.

(** The trace of a request: operations that are no message insert, then
    the writes of at most one turn, then at most the title write. *)
Lemma postMessage_trace (req : ChatRequest) (s : S) :
  exists pre mid post,
    (run E (postMessage req) s).1.1 = pre ++ mid ++ post
    /\ Forall (fun o => is_message_insert o = false) pre
    /\ Forall (fun o => is_message_insert o = false) post
    /\ (mid = [] \/
        exists sid u text s1,
          mid = (run E (persistTurn sid u (message req) text (region req) (country req))
                   s1).1.1).
Proof.
  rewrite run_postMessage.
  pose proof (run_only_ops E (fun o => is_message_insert o = false) _ s
                (authenticate_footprint _ req (fun _ => eq_refl))) as H0.
  destruct (run E (authenticate req) s) as [[tr0 [user|e]] s1]; simpl in H0.
  2: { exists tr0, [], []. rewrite app_nil_r. repeat split; auto. }
  rewrite run_messageBody.
  pose proof (run_only_ops E _ _ s1 (accessControl_footprint user req)) as HA.
  destruct (run E (accessControl user req) s1) as [[trA [[resp|role]|e]] s2];
    simpl in HA.
  1, 3: exists (tr0 ++ trA), [], []; rewrite app_nil_r;
        repeat split; auto; by apply Forall_app.
  cbv zeta. set (G := GenerateMessage (genArgs req role)).
  assert (Forall (fun o => is_message_insert o = false) (tr0 ++ trA ++ [G])) as Hpre.
  { apply Forall_app; split; [done|]. apply Forall_app; split; [done|].
    by repeat constructor. }
  destruct (exec E G s2) as [[g|e] s3].
  2: { exists (tr0 ++ trA ++ [G]), [], []. rewrite app_nil_r. repeat split; auto. }
  rewrite run_persistence.
  destruct user as [u|].
  2: { exists (tr0 ++ trA ++ [G]), [], []. rewrite app_nil_r. repeat split; auto. }
  destruct (Js.truthy (sessionId req)) as [sid|].
  2: { exists (tr0 ++ trA ++ [G]), [], []. rewrite app_nil_r. repeat split; auto. }
  destruct (run E (persistTurn sid u (message req) (gen_text g) (region req)
                     (country req)) s3) as [[tr r] s4] eqn:Hturn.
  assert (exists sid u text s1,
            tr = (run E (persistTurn sid u (message req) text (region req)
                           (country req)) s1).1.1) as Hmid.
  { exists sid, u, (gen_text g), s3. by rewrite Hturn. }
  destruct r as [ok|e].
  2: { exists (tr0 ++ trA ++ [G]), tr, []. rewrite app_nil_r.
       split; [simpl; by rewrite <- !app_assoc|]. repeat split; auto. }
  destruct (ok && _).
  - cbv zeta. set (title := SessionsSetTitle sid (toLocaleString (clock E s4))).
    exists (tr0 ++ trA ++ [G]), tr, [title].
    split; [|repeat split; auto; by repeat constructor].
    destruct (exec E title s4) as [[x|e] s5]; simpl; by rewrite <- !app_assoc.
  - exists (tr0 ++ trA ++ [G]), tr, []. rewrite app_nil_r.
    split; [simpl; by rewrite <- !app_assoc|]. repeat split; auto.
Qed.

(** C8: in every run of the handler, the retry after a just-in-time
    session creation included, an insert of a model row comes directly
    after the insert of the user row of the same session, user and
    request. *)
Theorem user_write_precedes_model_write
    (req : ChatRequest) (s : S) (pre post : trace) (row : MessageRow) :
  (run E (postMessage req) s).1.1 = pre ++ MessagesInsert row :: post ->
  msg_role row = RoleModel ->
  exists before,
    pre = before
          ++ [MessagesInsert
                (mkMessage (msg_session_id row) (msg_user_id row) RoleUser (message req))].
Proof.
  intros Htrace Hrole.
  destruct (postMessage_trace req s) as (pre0 & mid & post0 & Heq & Hpre & Hpost & Hmid).
  rewrite Heq in Htrace.
  destruct (trace_split_middle (fun o => is_message_insert o = false)
              (MessagesInsert row) pre0 mid post0 pre post Hpre Hpost)
    as (p' & q' & Hmid' & ->); [done|done|].
  destruct Hmid as [->|(sid & u & text & s1 & Hturn)].
  { by destruct p'. }
  rewrite Hturn in Hmid'.
  destruct (persistTurn_user_before_model E toLocaleString sid u (message req) text
              (region req) (country req) s1 p' q' row Hmid' Hrole)
    as (-> & before & ->).
  exists (pre0 ++ before). by rewrite app_assoc.
Qed.

(** *** The usage gate *)

(** C3: a logged-in user without unlimited access whose usage row counts
    five questions or more is answered 403 LIMIT_REACHED after the profile
    and usage reads; no usage write and no generation call is issued. *)
Theorem limit_reached_denies_before_generation
    (req : ChatRequest) (s0 s1 s2 s3 : S) (tr0 : trace) (user : AuthUser)
    (pr : StoreReply Profile) (ur : StoreReply UsageRow) :
  run E (authenticate req) s0 = (tr0, Resolved (Some user), s1) ->
  exec E (ProfilesSelect (user_id user)) s1 = (Resolved pr, s2) ->
  hasUnlimitedAccess (mkSubject user (data pr) (allRoles user (data pr))) = false ->
  exec E (UsageSelect (user_id user)) s2 = (Resolved ur, s3) ->
  5 <= currentCount (data ur) ->
  let tr := tr0 ++ [ProfilesSelect (user_id user); UsageSelect (user_id user)] in
  run E (postMessage req) s0 = (tr, Resolved limit_reached, s3)
  /\ status limit_reached = 403
  /\ count_ops is_usage_write tr = 0%nat
  /\ count_ops is_generation tr = 0%nat.
Proof.
  intros Hauth Hprofile Hlimited Husage Hcount tr.
  assert (count_ops is_usage_write tr0 = 0%nat) as Hw.
  { pose proof (authenticate_count is_usage_write req s0) as H.
    rewrite Hauth in H. by apply H. }
  assert (count_ops is_generation tr0 = 0%nat) as Hg.
  { pose proof (authenticate_count is_generation req s0) as H.
    rewrite Hauth in H. by apply H. }
  split; [|split; [done|]].
  - rewrite run_postMessage, Hauth, run_messageBody, run_accessControl.
    cbv zeta. rewrite Hprofile, Hlimited, run_checkUsage. cbv zeta.
    rewrite Husage. by destruct (Z.leb_spec 5 (currentCount (data ur))); [|lia].
  - unfold tr. rewrite !count_ops_app, Hw, Hg. by split.
Qed.

(** C9: the usage write is issued, and resolves, before the generation
    call; when that call then fails the handler answers 500 and issues
    nothing further, so the write stands. *)
Theorem failed_generation_keeps_increment
    (req : ChatRequest) (s0 s1 s2 s3 s4 s5 : S) (tr0 : trace) (user : AuthUser)
    (pr : StoreReply Profile) (ur : StoreReply UsageRow)
    (x : reply (usageWrite (user_id user) (data ur))) (e : JsError) :
  run E (authenticate req) s0 = (tr0, Resolved (Some user), s1) ->
  exec E (ProfilesSelect (user_id user)) s1 = (Resolved pr, s2) ->
  hasUnlimitedAccess (mkSubject user (data pr) (allRoles user (data pr))) = false ->
  exec E (UsageSelect (user_id user)) s2 = (Resolved ur, s3) ->
  currentCount (data ur) < 5 ->
  exec E (usageWrite (user_id user) (data ur)) s3 = (Resolved x, s4) ->
  exec E (GenerateMessage (genArgs req (persona user (data pr) (requestedRole req)))) s4
    = (Rejected e, s5) ->
  run E (postMessage req) s0 =
    (tr0 ++ [ProfilesSelect (user_id user);
             UsageSelect (user_id user);
             usageWrite (user_id user) (data ur);
             GenerateMessage (genArgs req (persona user (data pr) (requestedRole req)))],
     Resolved (chatError e), s5)
  /\ status (chatError e) = 500
  /\ is_usage_write (usageWrite (user_id user) (data ur)) = true.
Proof.
  intros Hauth Hprofile Hlimited Husage Hcount Hwrite Hgen.
  split; [|split; [done|by destruct (data ur)]].
  rewrite run_postMessage, Hauth, run_messageBody, run_accessControl.
  cbv zeta. rewrite Hprofile, Hlimited, run_checkUsage. cbv zeta.
  rewrite Husage. destruct (Z.leb_spec 5 (currentCount (data ur))); [lia|].
  by rewrite Hwrite, Hgen.
Qed.

(** *** The timestamp title *)

Lemma formatHistory_empty (h : list HistoryMsg) :
  formatHistory h = [] <-> Forall (fun m => hist_role m <> Some "user") h.
Proof.
  unfold formatHistory. induction h as [|m h IH]; cbn [map shiftModels].
  - split; [constructor|done].
  - destruct (turn_role (formatTurn m)) eqn:Hrole.
    + apply formatTurn_user in Hrole. split; [done|].
      intros Hall. by inversion Hall.
    + rewrite IH. split.
      * intros Hall. constructor; [|done].
        intros Hu. apply formatTurn_user in Hu. congruence.
      * intros Hall. by inversion Hall.
Qed.

(** After the turn the title write is issued exactly when the flag
    [persistenceSuccess] is set and the formatted history is empty, that
    is when the incoming history holds no user entry; in every other
    case the step issues no title write. *)
Lemma title_write_step
    (req : ChatRequest) (u : AuthUser) (sid text : string) (s : S) :
  Js.truthy (sessionId req) = Some sid ->
  let turn := run E (persistTurn sid u (message req) text (region req) (country req)) s in
  let step := run E (persistence (Some u) req (formatHistory (history req)) text) s in
  count_ops is_set_title turn.1.1 = 0%nat /\
  (turn.1.2 = Resolved true ->
   Forall (fun m => hist_role m <> Some "user") (history req) ->
   step.1.1 = turn.1.1 ++ [SessionsSetTitle sid (toLocaleString (clock E turn.2))]) /\
  (turn.1.2 = Resolved false
   \/ Exists (fun m => hist_role m = Some "user") (history req) ->
   step = (turn.1.1, Resolved tt, turn.2)).
Proof.
  intros Hsid turn step. split; [|split].
  - apply count_ops_none. unfold turn.
    pose proof (run_only_ops E _ _ s
      (persistTurn_footprint sid u (message req) text (region req) (country req))) as H.
    eapply Forall_impl; [exact H|]. by intros [].
  - intros Hok Hempty. unfold step. rewrite run_persistence, Hsid. fold turn.
    destruct turn as [[tr r] s1]. simpl in *. subst r.
    apply formatHistory_empty in Hempty. rewrite Hempty. simpl.
    by destruct (exec E (SessionsSetTitle _ _) s1) as [[x|e] s2].
  - intros Hcase. unfold step. rewrite run_persistence, Hsid. fold turn.
    destruct (persistTurn_resolves sid u (message req) text (region req) (country req) s)
      as [ok Hok]. fold turn in Hok.
    destruct turn as [[tr r] s1]. simpl in *. subst r.
    destruct Hcase as [[= ->]|Hex]; [done|].
    destruct (formatHistory (history req)) eqn:Hfmt.
    + apply formatHistory_empty in Hfmt. apply Exists_exists in Hex as (m & Hin & Hm).
      rewrite Forall_forall in Hfmt. by destruct (Hfmt m Hin).
    + by rewrite andb_false_r.
Qed.

(** The persistence step throws only out of the title write. *)
Lemma persistence_rejects_only_on_title (user : option AuthUser) (req : ChatRequest)
    (formatted : list Turn) (text : string) (s s1 : S) (tr : trace) (e : JsError) :
  run E (persistence user req formatted text) s = (tr, Rejected e, s1) ->
  formatted = [] /\
  exists sid t before, tr = before ++ [SessionsSetTitle sid t].
Proof.
  rewrite run_persistence. destruct user as [u|]; [|done].
  destruct (Js.truthy (sessionId req)) as [sid|]; [|done].
  destruct (persistTurn_resolves sid u (message req) text (region req) (country req) s)
    as [ok Hok].
  destruct (run E (persistTurn _ _ _ _ _ _) s) as [[tr1 r] s2]. simpl in Hok. subst r.
  destruct ok; [|done]. destruct formatted; [|done]. simpl.
  destruct (exec E (SessionsSetTitle _ _) s2) as [[x|e'] s3]; [done|].
  intros [= <- <- <-]. split; [done|]. by exists sid, (toLocaleString (clock E s2)), tr1.
Qed.

(** *** A client that reports its failures *)

(** With a client that reports, the persistence step throws nothing,
    whatever its calls report. *)
Lemma reporting_persistence (user : option AuthUser) (req : ChatRequest)
    (formatted : list Turn) (text : string) (s : S) :
  reporting E ->
  (run E (persistence user req formatted text) s).1.2 = Resolved tt.
Proof.
  intros Hrep. rewrite run_persistence.
  destruct user as [u|]; [|done]. destruct (Js.truthy (sessionId req)) as [sid|]; [|done].
  destruct (persistTurn_resolves sid u (message req) text (region req) (country req) s)
    as [ok Hok].
  destruct (run E (persistTurn _ _ _ _ _ _) s) as [[tr1 r] s2]. simpl in Hok. subst r.
  destruct (ok && _); [|done]. cbv zeta.
  destruct (Hrep (SessionsSetTitle sid (toLocaleString (clock E s2))) s2 eq_refl)
    as [x Hx].
  by destruct (exec E (SessionsSetTitle _ _) s2) as [[x'|e'] s3].
Qed.

(** C2: with a client that reports its failures, as the handlers read
    them, a request whose generation call has resolved is answered 200
    with the generated text and model, whatever the writes of the
    persistence step report: the message inserts, the touch and the
    title write included.  The response is fixed by the generation result
    alone. *)
Theorem persistence_failure_keeps_answer
    (req : ChatRequest) (s s1 s2 s3 : S) (tr0 trA : trace) (user : option AuthUser)
    (role : string) (g : GenReply) :
  reporting E ->
  run E (authenticate req) s = (tr0, Resolved user, s1) ->
  run E (accessControl user req) s1 = (trA, Resolved (inr role), s2) ->
  exec E (GenerateMessage (genArgs req role)) s2 = (Resolved g, s3) ->
  (run E (postMessage req) s).1.2 = Resolved (Ok200 (gen_text g) (gen_model g)).
Proof.
  intros Hrep Hauth Hgate Hgen.
  rewrite run_postMessage, Hauth, run_messageBody, Hgate. cbv zeta. rewrite Hgen.
  pose proof (reporting_persistence user req (formatHistory (history req))
                (gen_text g) s3 Hrep) as Hstep.
  by destruct (run E (persistence _ _ _ _) s3) as [[tr2 [[]|e]] s4].
Qed.

(** *** Unlimited access *)

Lemma claims_elevated_role (elevated : string -> bool) (user : AuthUser)
    (profile : option Profile) :
  claims_elevated elevated user profile ->
  exists r, r ∈ allRoles user profile /\ elevated r = true.
Proof.
  intros (r & Hr & Hne & Hsrc). exists r. split; [|done].
  unfold allRoles. apply list_elem_of_omap. exists (Some r). split.
  - destruct Hsrc as [<-| [<-| [<-| <-]]]; set_solver.
  - unfold Js.truthy. by destruct (String.eqb_spec r "").
Qed.

(** A request of a user with unlimited access goes from the profile read
    straight to the generation call. *)
Lemma unlimited_request (req : ChatRequest) (s0 s1 s2 : S) (tr0 : trace)
    (user : AuthUser) (pr : StoreReply Profile) :
  run E (authenticate req) s0 = (tr0, Resolved (Some user), s1) ->
  exec E (ProfilesSelect (user_id user)) s1 = (Resolved pr, s2) ->
  hasUnlimitedAccess (mkSubject user (data pr) (allRoles user (data pr))) = true ->
  exists tr resp,
    (run E (postMessage req) s0).1 =
      (tr0 ++ ProfilesSelect (user_id user)
           :: GenerateMessage (genArgs req (persona user (data pr) (requestedRole req)))
           :: tr,
       Resolved resp)
    /\ Forall (fun o => is_persistence_op o = true) tr
    /\ resp <> limit_reached.
Proof.
  intros Hauth Hprofile Hunlimited.
  rewrite run_postMessage, Hauth, run_messageBody, run_accessControl.
  cbv zeta. rewrite Hprofile, Hunlimited.
  destruct (exec E (GenerateMessage _) s2) as [[g|e] s3].
  - pose proof (run_only_ops E _ _ s3
      (persistence_footprint (Some user) req (formatHistory (history req)) (gen_text g)))
      as Hfoot.
    destruct (run E (persistence _ _ _ _) s3) as [[tr2 [[]|e]] s4]; simpl in *;
      eauto 6.
  - exists [], (chatError e). simpl. by repeat split.
Qed.

(** Whatever [hasUnlimitedAccess] is, provided it honours an elevated role
    among the collected ones: every request of an identity one of whose
    four role sources names such a role reaches the generation call, is
    never answered LIMIT_REACHED, and issues no read or write on the usage
    table, however many requests are served in sequence. *)
Lemma unlimited_identity_never_touches_usage
    (elevated : string -> bool) (I : S -> Prop) (token : string) (user : AuthUser)
    (reqs : list ChatRequest) (s0 : S) :
  (forall subject r,
      r ∈ subject_roles subject -> elevated r = true ->
      hasUnlimitedAccess subject = true) ->
  (forall o s, I s -> I (exec E o s).2) ->
  (forall s, I s ->
     exists r, (exec E (AuthGetUser token) s).1 = Resolved r
               /\ error r = None /\ data r = Some user) ->
  (forall s, I s ->
     exists pr, (exec E (ProfilesSelect (user_id user)) s).1 = Resolved pr
                /\ claims_elevated elevated user (data pr)) ->
  I s0 ->
  Forall (fun req => token_of req = Some token) reqs ->
  let served := serve E postMessage reqs s0 in
  count_ops is_usage_op served.1.2 = 0%nat
  /\ count_ops is_generate_message served.1.2 = length reqs
  /\ Forall (fun r => exists resp, r = Resolved resp /\ resp <> limit_reached) served.1.1.
Proof.
  intros Hcontract Hinv Hauth Hprofile Hs0 Hreqs. revert s0 Hs0.
  induction Hreqs as [|req reqs Htoken _ IH]; intros s0 Hs0; [by repeat split|].
  cbn [serve].
  destruct (Hauth s0 Hs0) as (r & Hr & Herr & Hdata).
  assert (exists s1, run E (authenticate req) s0 = ([AuthGetUser token], Resolved (Some user), s1)
                     /\ I s1) as (s1 & Hrun & Hs1).
  { exists (exec E (AuthGetUser token) s0).2. split; [|by apply Hinv].
    rewrite run_authenticate, Htoken.
    destruct (exec E (AuthGetUser token) s0) as [o s1]. simpl in Hr. subst o.
    by rewrite Herr, Hdata. }
  destruct (Hprofile s1 Hs1) as (pr & Hpr & Hclaims).
  destruct (claims_elevated_role _ _ _ Hclaims) as (role & Hin & Hrole).
  destruct (unlimited_request req s0 s1 (exec E (ProfilesSelect (user_id user)) s1).2
              _ user pr Hrun) as (tr & resp & Hrun' & Hfoot & Hresp).
  { destruct (exec E (ProfilesSelect (user_id user)) s1) as [o s2]. simpl in Hpr. by subst o. }
  { by apply (Hcontract _ role). }
  pose proof (run_preserves E I (postMessage req) s0 Hinv Hs0) as Hs'.
  destruct (run E (postMessage req) s0) as [[tr' res] s']. simpl in Hrun', Hs'.
  injection Hrun' as -> ->.
  specialize (IH s' Hs').
  destruct (serve E postMessage reqs s') as [[ress trs] s'']. simpl in *.
  destruct IH as (IH1 & IH2 & IH3).
  assert (forall p, (forall row, p (MessagesInsert row) = false) ->
                    (forall i t, p (SessionsTouch i t) = false) ->
                    (forall row, p (SessionsInsert row) = false) ->
                    (forall i t, p (SessionsSetTitle i t) = false) ->
                    count_ops p tr = 0%nat) as Htr.
  { intros p H1 H2 H3 H4. apply count_ops_none.
    eapply Forall_impl; [exact Hfoot|]. intros [] Ho; try done; auto. }
  split; [|split].
  - rewrite !count_ops_cons, count_ops_app, IH1, Htr by done. done.
  - rewrite !count_ops_cons, count_ops_app, IH2, Htr by done. done.
  - constructor; eauto.
Qed.

End Handler.

(** C5: with privilege derived as the spec says, from the union of the
    role signals, an identity one of whose four role sources (profile
    role, auth-user role, user metadata role, app metadata role) names an
    elevated role has every request let through to the generation call,
    never answered LIMIT_REACHED, and no read or write issued on the usage
    table, across any number of requests served in sequence. *)
Theorem privileged_identity_never_touches_usage
    {S : Type} (E : env S) (elevated : string -> bool)
    (systemInstructionText :
       option string -> option string -> option string -> string -> bool -> string)
    (toLocaleString : Z -> string)
    (I : S -> Prop) (token : string) (user : AuthUser)
    (reqs : list ChatRequest) (s0 : S) :
  (forall o s, I s -> I (exec E o s).2) ->
  (forall s, I s ->
     exists r, (exec E (AuthGetUser token) s).1 = Resolved r
               /\ error r = None /\ data r = Some user) ->
  (forall s, I s ->
     exists pr, (exec E (ProfilesSelect (user_id user)) s).1 = Resolved pr
                /\ claims_elevated elevated user (data pr)) ->
  I s0 ->
  Forall (fun req => token_of req = Some token) reqs ->
  let served :=
    serve E (postMessage (hasUnlimitedAccess_spec elevated) systemInstructionText
               toLocaleString) reqs s0 in
  count_ops is_usage_op served.1.2 = 0%nat
  /\ count_ops is_generate_message served.1.2 = length reqs
  /\ Forall (fun r => exists resp, r = Resolved resp /\ resp <> limit_reached) served.1.1.
Proof.
  intros Hinv Hauth Hprofile Hs0 Hreqs.
  apply (unlimited_identity_never_touches_usage E (hasUnlimitedAccess_spec elevated)
           systemInstructionText toLocaleString elevated I token user reqs s0);
    try done.
  intros subject r Hin Hr. unfold hasUnlimitedAccess_spec.
  apply existsb_exists. exists r. split; [by apply list_elem_of_In|exact Hr].
Qed.

(** ** The related-questions route *)

Section RelatedRoute.

Context {S : Type} (E : env S).
Variable relatedPrompt : option string -> option string -> string -> string -> string.
Variable JSON_parse : string -> option json.

#[local] Abbreviation route := (postRelated relatedPrompt JSON_parse).
#[local] Abbreviation relatedCall := (relatedCall relatedPrompt).

Lemma run_postRelated (req : RelatedRequest) (s : S) :
  run E (route req) s =
  match lastMessage req, lastResponse req with
  | Some m, Some r =>
      match exec E (relatedCall req m r) s with
      | (Resolved text, s1) =>
          ([relatedCall req m r],
           Resolved (match JSON_parse text with
                     | Some v => mkRelatedResponse 200 v
                     | None => empty_array
                     end), s1)
      | (Rejected _, s1) => ([relatedCall req m r], Resolved empty_array, s1)
      end
  | _, _ => ([], Resolved empty_array, s)
  end.
Proof.
  unfold postRelated, relatedCall.
  destruct (lastMessage req) as [m|]; [|done].
  destruct (lastResponse req) as [r|]; [|done]. simpl.
  destruct (exec E _ s) as [[text|e] s1]; simpl; [|done].
  by destruct (JSON_parse text).
Qed.

(** C10: the route always answers with status 200; a rejected generation
    call, an unparseable payload and a missing request field all answer
    with the empty array, the very response given when the model returns
    an empty array of questions. *)
Theorem related_failure_answers_empty_array (req : RelatedRequest) (s : S) :
  (exists resp, (run E (route req) s).1.2 = Resolved resp
                /\ related_status resp = 200) /\
  (forall m r e s1,
      lastMessage req = Some m -> lastResponse req = Some r ->
      exec E (relatedCall req m r) s = (Rejected e, s1) ->
      (run E (route req) s).1.2 = Resolved empty_array) /\
  (forall m r text s1,
      lastMessage req = Some m -> lastResponse req = Some r ->
      exec E (relatedCall req m r) s = (Resolved text, s1) ->
      JSON_parse text = None ->
      (run E (route req) s).1.2 = Resolved empty_array) /\
  (lastMessage req = None \/ lastResponse req = None ->
   (run E (route req) s).1.2 = Resolved empty_array) /\
  (forall m r text s1,
      lastMessage req = Some m -> lastResponse req = Some r ->
      exec E (relatedCall req m r) s = (Resolved text, s1) ->
      JSON_parse text = Some (JArray []) ->
      (run E (route req) s).1.2 = Resolved empty_array).
Proof.
  rewrite run_postRelated. repeat split.
  - destruct (lastMessage req) as [m|]; [|by eexists].
    destruct (lastResponse req) as [r|]; [|by eexists].
    destruct (exec E _ s) as [[text|e] s1]; [|by eexists].
    destruct (JSON_parse text); by eexists.
  - intros m r e s1 -> -> Hcall. by rewrite Hcall.
  - intros m r text s1 -> -> Hcall Hparse. by rewrite Hcall, Hparse.
  - intros [->| Hr]; [done|]. rewrite Hr. by destruct (lastMessage req).
  - intros m r text s1 -> -> Hcall Hparse. by rewrite Hcall, Hparse.
Qed.

End RelatedRoute.

(** ** The usage gate over the reference store *)

Section ReferenceGate.

Variable hasUnlimitedAccess : AccessSubject -> bool.
Variable systemInstructionText :
  option string -> option string -> option string -> string -> bool -> string.
Variable toLocaleString : Z -> string.

#[local] Abbreviation postMessage :=
  (postMessage hasUnlimitedAccess systemInstructionText toLocaleString).

#[local] Abbreviation limited_identity := (limited_identity hasUnlimitedAccess).

Lemma data_found {A} (row : option A) (missing : JsError) : data (found row missing) = row.
Proof. done. Qed.

(** No operation rewrites the identities or the profiles. *)
Lemma ref_identity_frame {A} (m : prog A) (st : RefStore) :
  rs_auth (run ref_env m st).2 = rs_auth st /\
  rs_profiles (run ref_env m st).2 = rs_profiles st.
Proof.
  apply (run_preserves ref_env
           (fun s => rs_auth s = rs_auth st /\ rs_profiles s = rs_profiles st));
    [|done].
  intros o s [Ha Hp]. destruct o; simpl; try done.
  - by destruct (rs_usage s !! uid).
  - by destruct (rs_sessions s !! msg_session_id row).
  - by destruct (rs_sessions s !! session_id row).
Qed.

(** Only the two usage writes change the usage table. *)
Lemma ref_usage_frame {A} (m : prog A) (st : RefStore) :
  only_ops (fun o => is_usage_write o = false) m ->
  rs_usage (run ref_env m st).2 = rs_usage st.
Proof.
  intros Hm.
  apply (run_invariant ref_env (fun o => is_usage_write o = false)
           (fun s => rs_usage s = rs_usage st)); [|done..].
  intros o s Ho Hs. destruct o; simpl; try done.
  - by destruct (rs_sessions s !! msg_session_id row).
  - by destruct (rs_sessions s !! session_id row).
Qed.

Lemma ref_usage_write (st : RefStore) (uid : string) :
  rs_usage (ref_exec (usageWrite uid (mkUsage uid <$> rs_usage st !! uid)) st).2
  = <[uid := stored_count st uid + 1]> (rs_usage st).
Proof.
  unfold stored_count. destruct (rs_usage st !! uid) as [c|] eqn:Hc; simpl.
  - apply map_eq. intros k. rewrite lookup_alter, lookup_insert.
    destruct (decide (uid = k)) as [->|]; [by rewrite Hc|done].
  - by rewrite Hc.
Qed.

(** One request of a limited identity, at or below the limit. *)
Lemma ref_gate_step (st : RefStore) (token : string) (user : AuthUser) (req : ChatRequest) :
  limited_identity st token user ->
  token_of req = Some token ->
  let uid := user_id user in
  let out := run ref_env (postMessage req) st in
  if (5 <=? stored_count st uid)%Z
  then out = ([AuthGetUser token; ProfilesSelect uid; UsageSelect uid],
              Resolved limit_reached, st)
  else
    rs_usage out.2 = <[uid := stored_count st uid + 1]> (rs_usage st)
    /\ exists tr resp,
        out.1 = (AuthGetUser token :: ProfilesSelect uid :: UsageSelect uid
                   :: usageWrite uid (mkUsage uid <$> rs_usage st !! uid)
                   :: GenerateMessage
                        (genArgs systemInstructionText req
                           (persona user (rs_profiles st !! uid) (requestedRole req)))
                   :: tr,
                 Resolved resp)
        /\ Forall (fun o => is_persistence_op o = true) tr
        /\ resp <> limit_reached.
Proof.
  intros [Hauth Hlimited] Htoken uid out. unfold out.
  rewrite run_postMessage, run_authenticate, Htoken. cbn [exec ref_env ref_exec].
  rewrite Hauth. cbn [found error data].
  rewrite run_messageBody, run_accessControl. cbv zeta. cbn [exec ref_env ref_exec].
  rewrite data_found, Hlimited, run_checkUsage. cbv zeta.
  cbn [exec ref_env ref_exec]. rewrite data_found. fold uid.
  assert (currentCount (mkUsage uid <$> rs_usage st !! uid) = stored_count st uid) as ->.
  { unfold stored_count. by destruct (rs_usage st !! uid). }
  destruct (5 <=? stored_count st uid)%Z; [done|].
  pose proof (ref_usage_write st uid) as Hwrite.
  set (w := usageWrite uid (mkUsage uid <$> rs_usage st !! uid)) in *.
  change (exec ref_env w st) with (ref_exec w st).
  assert (exists x, (ref_exec w st).1 = Resolved x) as [x Hx].
  { unfold w. destruct (rs_usage st !! uid) as [c|] eqn:Hc; simpl; [by eexists|].
    rewrite Hc. by eexists. }
  destruct (ref_exec w st) as [o st1]. simpl in Hx, Hwrite. subst o.
  cbn [exec ref_env ref_exec].
  destruct (rs_model st1 _) as [g|e].
  - pose proof (persistence_footprint toLocaleString (Some user) req
                  (formatHistory (history req)) (gen_text g)) as Hfoot.
    pose proof (run_only_ops ref_env _ _ st1 Hfoot) as Htr.
    assert (rs_usage (run ref_env (persistence toLocaleString (Some user) req
                                     (formatHistory (history req)) (gen_text g)) st1).2
            = rs_usage st1) as Hframe.
    { apply ref_usage_frame. clear Htr.
      induction Hfoot as [| | |o k Ho Hk IH]; constructor; auto. by destruct o. }
    destruct (run ref_env (persistence _ _ _ _ _) st1) as [[tr2 [[]|e]] st2];
      simpl in *; (split; [congruence|]); eauto 6.
  - simpl. split; [done|]. exists [], (chatError e). by repeat split.
Qed.

Lemma limited_identity_frame {A} (m : prog A) (st : RefStore) (token : string)
    (user : AuthUser) :
  limited_identity st token user ->
  limited_identity (run ref_env m st).2 token user.
Proof.
  unfold limited_identity. destruct (ref_identity_frame m st) as [-> ->]. done.
Qed.

(** Requests of one limited identity served in sequence, starting from a
    stored count [c]: request [i] is refused exactly when [c + i] has
    reached five, and the count ends at [min 5 (c + n)]. *)
Lemma ref_serve_counts (token : string) (user : AuthUser) (reqs : list ChatRequest) :
  forall (st : RefStore) (c : Z),
    limited_identity st token user ->
    stored_count st (user_id user) = c -> c <= 5 ->
    Forall (fun req => token_of req = Some token) reqs ->
    let served := serve ref_env postMessage reqs st in
    (forall (i : nat) r, served.1.1 !! i = Some r ->
                         (r = Resolved limit_reached <-> 5 <= c + Z.of_nat i))
    /\ stored_count served.2 (user_id user) = Z.min 5 (c + Z.of_nat (length reqs)).
Proof.
  induction reqs as [|req reqs IH]; intros st c Hid Hc Hle Hreqs.
  { simpl. split; [done|]. lia. }
  inversion Hreqs as [|? ? Htoken Hrest]; subst. cbn [serve].
  pose proof (ref_gate_step st token user req Hid Htoken) as Hstep.
  pose proof (limited_identity_frame (postMessage req) st token user Hid) as Hid'.
  cbv zeta in Hstep.
  destruct (Z.leb_spec 5 (stored_count st (user_id user))) as [Hfull|Hbelow].
  - rewrite Hstep in *. simpl in Hid'.
    specialize (IH st (stored_count st (user_id user)) Hid' eq_refl Hle Hrest).
    destruct (serve ref_env postMessage reqs st) as [[ress trs] st2].
    simpl in *. destruct IH as [IHr IHc]. split.
    + intros [|i] r Hr; simpl in Hr.
      * injection Hr as <-. split; [lia|done].
      * rewrite (IHr i r Hr). lia.
    + rewrite IHc. lia.
  - destruct Hstep as (Husage & tr & resp & Hout & _ & Hresp).
    destruct (run ref_env (postMessage req) st) as [[tr1 res] st1].
    simpl in Husage, Hout, Hid'. injection Hout as -> ->.
    assert (stored_count st1 (user_id user) = stored_count st (user_id user) + 1)
      as Hc1.
    { unfold stored_count at 1. by rewrite Husage, lookup_insert_eq. }
    specialize (IH st1 _ Hid' Hc1 ltac:(lia) Hrest).
    destruct (serve ref_env postMessage reqs st1) as [[ress trs] st2].
    simpl in *. destruct IH as [IHr IHc]. split.
    + intros [|i] r Hr; simpl in Hr.
      * injection Hr as <-. split; [congruence|lia].
      * rewrite (IHr i r Hr). lia.
    + rewrite IHc. lia.
Qed.

(** C4: for a logged-in user without unlimited access.  Below the limit
    the gate writes - an insert counting 1 when the read found no row,
    otherwise an update to the count plus one - and lets the request
    through (in any environment, when read and write resolve).  Over the
    reference store the stored count goes up by one and the generation
    call is made; starting without a row, requests served in sequence are
    refused exactly from the sixth on, and after the first the row
    counts 1. *)
Theorem usage_gate_counts_requests (st : RefStore) (token : string) (user : AuthUser) :
  limited_identity st token user ->
  let uid := user_id user in
  (forall c, usageWrite uid None = UsageInsert uid 1
             /\ usageWrite uid (Some (mkUsage uid c)) = UsageUpdate uid (c + 1)) /\
  (forall (S : Type) (E : env S) (s s1 s2 : S) (ur : StoreReply UsageRow) x,
      exec E (UsageSelect uid) s = (Resolved ur, s1) ->
      currentCount (data ur) < 5 ->
      exec E (usageWrite uid (data ur)) s1 = (Resolved x, s2) ->
      run E (checkUsage user) s
        = ([UsageSelect uid; usageWrite uid (data ur)], Resolved None, s2)) /\
  (forall req,
      token_of req = Some token ->
      stored_count st uid < 5 ->
      let out := run ref_env (postMessage req) st in
      usageWrite uid (mkUsage uid <$> rs_usage st !! uid) ∈ out.1.1
      /\ rs_usage out.2 !! uid = Some (stored_count st uid + 1)
      /\ count_ops is_generate_message out.1.1 = 1%nat
      /\ out.1.2 <> Resolved limit_reached) /\
  (rs_usage st !! uid = None ->
   forall reqs,
     Forall (fun req => token_of req = Some token) reqs ->
     let served := serve ref_env postMessage reqs st in
     (forall (i : nat) r, served.1.1 !! i = Some r ->
                          (r = Resolved limit_reached <-> (5 <= i)%nat))
     /\ (reqs <> [] ->
         rs_usage served.2 !! uid = Some (Z.min 5 (Z.of_nat (length reqs))))).
Proof.
  intros Hid uid. split; [done|split; [|split]].
  - intros S E s s1 s2 ur x Hread Hbelow Hwrite.
    rewrite run_checkUsage. cbv zeta. fold uid. rewrite Hread.
    destruct (Z.leb_spec 5 (currentCount (data ur))); [lia|]. by rewrite Hwrite.
  - intros req Htoken Hbelow out.
    pose proof (ref_gate_step st token user req Hid Htoken) as Hstep.
    cbv zeta in Hstep. fold uid in Hstep.
    destruct (Z.leb_spec 5 (stored_count st uid)); [lia|].
    destruct Hstep as (Husage & tr & resp & Hout & Hfoot & Hresp).
    unfold out. destruct (run ref_env (postMessage req) st) as [[tr1 res] st1].
    simpl in *. injection Hout as -> ->. repeat split.
    + set_solver.
    + by rewrite Husage, lookup_insert_eq.
    + rewrite !count_ops_cons. simpl.
      rewrite (count_ops_none is_generate_message tr).
      * by destruct (rs_usage st !! uid).
      * eapply Forall_impl; [exact Hfoot|]. by intros [].
    + congruence.
  - intros Hnone reqs Hreqs served.
    assert (stored_count st uid = 0) as Hc by (unfold stored_count; by rewrite Hnone).
    destruct (ref_serve_counts token user reqs st 0 Hid Hc ltac:(lia) Hreqs)
      as [Hr Hcount].
    fold served in Hr, Hcount. split.
    + intros i r Hi. rewrite (Hr i r Hi). lia.
    + intros Hne. fold uid in Hcount. unfold stored_count in Hcount.
      destruct (rs_usage served.2 !! uid) as [c|]; simpl in Hcount.
      * f_equal. lia.
      * destruct reqs; [done|]. simpl in Hcount. lia.
Qed.

(** *** Persistence over the reference store *)

Lemma ref_persistMessages_present (st : RefStore) (sid : string) (user : AuthUser)
    (userText modelText : string) :
  is_Some (rs_sessions st !! sid) ->
  (run ref_env (persistMessages sid (user_id user) userText modelText) st).1
  = ([userRow sid (user_id user) userText; modelRow sid (user_id user) modelText;
      SessionsTouch sid (rs_time st)],
     Resolved tt).
Proof.
  intros [row Hrow]. rewrite run_persistMessages. unfold userRow, modelRow.
  cbn [exec ref_env ref_exec msg_session_id]. rewrite Hrow.
  cbn [rs_sessions set_messages]. by rewrite Hrow.
Qed.

Lemma ref_persistMessages_state (st : RefStore) (sid : string) (user : AuthUser)
    (userText modelText : string) :
  is_Some (rs_sessions st !! sid) ->
  (run ref_env (persistMessages sid (user_id user) userText modelText) st).2
  = set_sessions (alter (touch (rs_time st)) sid (rs_sessions st))
      (set_messages
         ((rs_messages st ++ [mkMessage sid (user_id user) RoleUser userText])
          ++ [mkMessage sid (user_id user) RoleModel modelText]) st).
Proof.
  intros [row Hrow]. rewrite run_persistMessages. unfold userRow, modelRow.
  cbn [exec ref_env ref_exec msg_session_id]. rewrite Hrow.
  cbn [rs_sessions set_messages]. by rewrite Hrow.
Qed.

(** Against a session that exists: the three writes, no creation. *)
Lemma ref_persistTurn_present (st : RefStore) (sid : string) (user : AuthUser)
    (userText modelText : string) (region country : option string) :
  is_Some (rs_sessions st !! sid) ->
  (run ref_env (persistTurn toLocaleString sid user userText modelText region country) st).1
  = ([userRow sid (user_id user) userText; modelRow sid (user_id user) modelText;
      SessionsTouch sid (rs_time st)],
     Resolved true).
Proof.
  intros Hrow. rewrite run_persistTurn.
  pose proof (ref_persistMessages_present st sid user userText modelText Hrow)
    as Hrun.
  destruct (run ref_env (persistMessages _ _ _ _) st) as [[tr r] st1].
  simpl in Hrun. by injection Hrun as -> ->.
Qed.

(** Against a session that does not exist the three writes are issued
    and answered, the inserts with the violated foreign key in [error];
    nothing is thrown and the store is left as it was. *)
Lemma ref_persistMessages_absent (st : RefStore) (sid : string) (user : AuthUser)
    (userText modelText : string) :
  rs_sessions st !! sid = None ->
  run ref_env (persistMessages sid (user_id user) userText modelText) st
  = ([userRow sid (user_id user) userText; modelRow sid (user_id user) modelText;
      SessionsTouch sid (rs_time st)],
     Resolved tt, st).
Proof.
  intros Hnone. rewrite run_persistMessages. unfold userRow, modelRow.
  cbn [exec ref_env ref_exec msg_session_id]. rewrite Hnone.
  cbn [rs_sessions]. rewrite Hnone. cbn [clock ref_env].
  rewrite alter_id' by done. by destruct st.
Qed.

Lemma prefix_append (n b : string) : String.prefix n (n +:+ b) = true.
Proof.
  induction n as [|c n IH]; [by destruct b|].
  change (String c n +:+ b) with (String c (n +:+ b)). cbn [String.prefix].
  by destruct (Ascii.ascii_dec c c).
Qed.

Lemma includes_prefix (n b : string) : Js.includes n (n +:+ b) = true.
Proof. destruct (n +:+ b) eqn:Hnb; cbn [Js.includes]; rewrite <- ?Hnb; by rewrite prefix_append. Qed.

Lemma includes_skip (n a h : string) :
  Js.includes n h = true -> Js.includes n (a +:+ h) = true.
Proof.
  intros Hh. induction a as [|c a IH]; [done|].
  change (String c a +:+ h) with (String c (a +:+ h)).
  cbn [Js.includes]. rewrite IH. apply orb_true_r.
Qed.

Lemma fk_violation_names_session_table (sid : string) :
  names_session_table (fk_violation sid) = true.
Proof.
  unfold names_session_table, fk_violation. cbn [err_details].
  do 3 apply includes_skip. apply includes_prefix.
Qed.

Lemma ref_env_reporting : reporting ref_env.
Proof.
  intros o st Ho. destruct o; try done; cbn [exec ref_env ref_exec].
  - destruct (rs_sessions st !! msg_session_id row); by eexists.
  - by eexists.
  - destruct (rs_sessions st !! session_id row); by eexists.
  - by eexists.
Qed.

(** C1: not met.  The recovery waits for the insert to throw, but the
    attempt awaits its writes without reading what they resolve to: when
    the three writes resolve, whatever they report, the turn issues no
    session creation and no retry and counts as persisted.  Over the
    reference store, a turn against a session that does not exist has its
    insert answered with the foreign-key violation that names the session
    table, and ends after the three writes with the store as it was: no
    session created, no row stored. *)
Theorem missing_session_is_not_recovered (sid : string) (user : AuthUser)
    (userText modelText : string) (region country : option string) :
  let turn := persistTurn toLocaleString sid user userText modelText region country in
  let U := userRow sid (user_id user) userText in
  let M := modelRow sid (user_id user) modelText in
  (forall (S : Type) (E : env S) (s s1 s2 s3 : S)
          (x : reply U) (y : reply M) (z : StoreReply unit),
      exec E U s = (Resolved x, s1) ->
      exec E M s1 = (Resolved y, s2) ->
      exec E (SessionsTouch sid (clock E s2)) s2 = (Resolved z, s3) ->
      run E turn s = ([U; M; SessionsTouch sid (clock E s2)], Resolved true, s3)) /\
  (forall st : RefStore,
      rs_sessions st !! sid = None ->
      (exec ref_env U st).1 = Resolved (mkReply None (Some (fk_violation sid)))
      /\ names_session_table (fk_violation sid) = true
      /\ run ref_env turn st = ([U; M; SessionsTouch sid (rs_time st)], Resolved true, st)
      /\ count_ops is_session_create (run ref_env turn st).1.1 = 0%nat
      /\ count_ops is_user_insert (run ref_env turn st).1.1 = 1%nat).
Proof.
  intros turn U M. split.
  - intros S E s s1 s2 s3 x y z HU HM HT. unfold turn.
    rewrite run_persistTurn, run_persistMessages. fold U. fold M.
    rewrite HU, HM. cbv zeta. by rewrite HT.
  - intros st Hnone.
    assert (run ref_env turn st
            = ([U; M; SessionsTouch sid (rs_time st)], Resolved true, st)) as Hrun.
    { unfold turn. rewrite run_persistTurn.
      by rewrite (ref_persistMessages_absent st sid user userText modelText Hnone). }
    split; [|split; [|split; [exact Hrun|]]].
    + unfold U, userRow. cbn [exec ref_env ref_exec msg_session_id]. by rewrite Hnone.
    + apply fk_violation_names_session_table.
    + by rewrite Hrun.
Qed.

(** C7, as the code has it.  In any environment: when the flag
    [persistenceSuccess] is set and the incoming history holds no user
    entry, so that the formatted history is empty, the title write is the
    last call of the step; when the incoming history holds a user entry
    no title write is issued.  Over the reference store, for a session
    that exists: the turn is stored, and the stored title becomes the
    timestamp in the first case and stays what it was in the second. *)
Theorem title_written_when_formatted_history_empty
    (req : ChatRequest) (u : AuthUser) (sid text : string) :
  Js.truthy (sessionId req) = Some sid ->
  let attempt :=
    persistTurn toLocaleString sid u (message req) text (region req) (country req) in
  let step :=
    persistence toLocaleString (Some u) req (formatHistory (history req)) text in
  (forall (S : Type) (E : env S) (s : S),
      let turn := run E attempt s in
      (turn.1.2 = Resolved true ->
       Forall (fun m => hist_role m <> Some "user") (history req) ->
       (run E step s).1.1
       = turn.1.1 ++ [SessionsSetTitle sid (toLocaleString (clock E turn.2))]) /\
      (Exists (fun m => hist_role m = Some "user") (history req) ->
       run E step s = (turn.1.1, Resolved tt, turn.2)
       /\ count_ops is_set_title (run E step s).1.1 = 0%nat)) /\
  (forall (st : RefStore) (stored : StoredSession),
      rs_sessions st !! sid = Some stored ->
      let out := run ref_env step st in
      rs_messages out.2
      = rs_messages st ++ [mkMessage sid (user_id u) RoleUser (message req);
                           mkMessage sid (user_id u) RoleModel text]
      /\ (Forall (fun m => hist_role m <> Some "user") (history req) ->
          session_title ∘ stored_row <$> rs_sessions out.2 !! sid
          = Some (toLocaleString (rs_time st)))
      /\ (Exists (fun m => hist_role m = Some "user") (history req) ->
          session_title ∘ stored_row <$> rs_sessions out.2 !! sid
          = Some (session_title (stored_row stored)))).
Proof.
  intros Hsid attempt step. split.
  - intros S E s turn.
    destruct (title_write_step E toLocaleString req u sid text s Hsid)
      as (Hnone & Hset & Hskip).
    split; [exact Hset|]. intros Huser. fold attempt in Hnone, Hskip. fold step in Hskip.
    fold turn in Hnone, Hskip.
    rewrite (Hskip (or_intror Huser)). by split.
  - intros st stored Hrow out.
    assert (run ref_env attempt st
            = ([userRow sid (user_id u) (message req); modelRow sid (user_id u) text;
                SessionsTouch sid (rs_time st)],
               Resolved true,
               set_sessions (alter (touch (rs_time st)) sid (rs_sessions st))
                 (set_messages
                    ((rs_messages st ++ [mkMessage sid (user_id u) RoleUser (message req)])
                     ++ [mkMessage sid (user_id u) RoleModel text]) st))) as Hturn.
    { unfold attempt. rewrite run_persistTurn.
      pose proof (ref_persistMessages_present st sid u (message req) text
                    ltac:(eauto)) as Hrun.
      pose proof (ref_persistMessages_state st sid u (message req) text
                    ltac:(eauto)) as Hstate.
      destruct (run ref_env (persistMessages _ _ _ _) st) as [[tr r] st1].
      simpl in Hrun, Hstate. injection Hrun as -> ->. by subst st1. }
    unfold out, step. rewrite run_persistence, Hsid. fold attempt. rewrite Hturn.
    destruct (formatHistory (history req)) as [|t rest] eqn:Hfmt.
    + apply formatHistory_empty in Hfmt.
      cbn [andb length Nat.eqb]. cbv zeta. cbn [exec ref_env ref_exec clock snd].
      cbn [rs_messages rs_sessions rs_time set_sessions set_messages].
      split; [by rewrite <- app_assoc|]. split.
      * intros _. by rewrite !lookup_alter_eq, Hrow.
      * intros Huser. apply Exists_exists in Huser as (m & Hin & Hm).
        rewrite Forall_forall in Hfmt. by destruct (Hfmt m Hin).
    + cbn [andb length Nat.eqb snd].
      cbn [rs_messages rs_sessions rs_time set_sessions set_messages].
      split; [by rewrite <- app_assoc|]. split.
      * intros Hnone. apply formatHistory_empty in Hnone. congruence.
      * intros _. by rewrite lookup_alter_eq, Hrow.
Qed.

End ReferenceGate.

(** ** Worked runs *)

Example demo_first_turn :
  (run ref_env (Demo.post Demo.first_turn) Demo.store).1 =
  ([AuthGetUser "tok-alice"; ProfilesSelect "u1"; UsageSelect "u1"; UsageInsert "u1" 1;
    GenerateMessage (genArgs Demo.instruction Demo.first_turn "Nurse");
    userRow "s-old" "u1" "Q"; modelRow "s-old" "u1" "Answer";
    SessionsTouch "s-old" 1000; SessionsSetTitle "s-old" "Nov 3, 12:31 AM"],
   Resolved (Ok200 "Answer" "gemini-2.0-flash")).
Proof. vm_compute. reflexivity. Qed.

(** A logged-in turn for a session id that is not in [chat_sessions]:
    no session is created, no row is stored, the title write goes to a
    session that does not exist, and the caller gets the answer. *)
Example demo_new_session_turn :
  let out := run ref_env (Demo.post Demo.new_session_turn) Demo.store in
  out.1 =
  ([AuthGetUser "tok-alice"; ProfilesSelect "u1"; UsageSelect "u1"; UsageInsert "u1" 1;
    GenerateMessage (genArgs Demo.instruction Demo.new_session_turn "Nurse");
    userRow "s-new" "u1" "Q"; modelRow "s-new" "u1" "Answer";
    SessionsTouch "s-new" 1000; SessionsSetTitle "s-new" "Nov 3, 12:31 AM"],
   Resolved (Ok200 "Answer" "gemini-2.0-flash"))
  /\ rs_messages out.2 = []
  /\ rs_sessions out.2 !! "s-new" = None.
Proof. vm_compute. repeat split; reflexivity. Qed.

(** The same turn behind the client whose inserts throw: the recovery
    runs, and the turn is stored in the session it created. *)
Example demo_new_session_turn_strict :
  let out := run strict_env (Demo.post Demo.new_session_turn) Demo.store in
  out.1.1 =
  [AuthGetUser "tok-alice"; ProfilesSelect "u1"; UsageSelect "u1"; UsageInsert "u1" 1;
   GenerateMessage (genArgs Demo.instruction Demo.new_session_turn "Nurse");
   userRow "s-new" "u1" "Q";
   jitSession Demo.locale "s-new" Demo.alice None None 1000;
   userRow "s-new" "u1" "Q"; modelRow "s-new" "u1" "Answer";
   SessionsTouch "s-new" 1000; SessionsSetTitle "s-new" "Nov 3, 12:31 AM"]
  /\ rs_messages out.2
     = [mkMessage "s-new" "u1" RoleUser "Q"; mkMessage "s-new" "u1" RoleModel "Answer"].
Proof. vm_compute. split; reflexivity. Qed.

(** The [catch] of the persistence step asks for any foreign-key error,
    not for one that names the session table: behind a client that
    throws, a violation on the message's user starts a session creation
    for a session that exists. *)
Example foreign_key_test_is_wider :
  let out := run (with_faults Scenarios.orphan_fault ref_env)
               (persistTurn Demo.locale "s-old" Demo.alice "Q" "Answer" None None)
               Demo.store in
  is_Some (rs_sessions Demo.store !! "s-old")
  /\ isForeignKeyError Scenarios.orphan_user = true
  /\ names_session_table Scenarios.orphan_user = false
  /\ out.1 = ([userRow "s-old" "u1" "Q";
               jitSession Demo.locale "s-old" Demo.alice None None 1000;
               userRow "s-old" "u1" "Q"],
              Resolved false).
Proof. split; [by eexists|]. vm_compute. repeat split; reflexivity. Qed.

(** ** A history holding only the welcome message *)

(** C7, as stated, at a history that is not empty: the turn is stored and
    the session loses its existing title. *)
Lemma welcome_turn_retitles_session :
  let out := run ref_env (Demo.post Demo.welcome_turn) Demo.store in
  history Demo.welcome_turn <> []
  /\ session_title ∘ stored_row <$> rs_sessions Demo.store !! "s-old" = Some "Old title"
  /\ SessionsSetTitle "s-old" "Nov 3, 12:31 AM" ∈ out.1.1
  /\ session_title ∘ stored_row <$> rs_sessions out.2 !! "s-old" = Some "Nov 3, 12:31 AM".
Proof.
  split; [done|]. split; [by vm_compute|]. split.
  - vm_compute. set_solver.
  - by vm_compute.
Qed.

(** ** The theorems at the example store *)

Lemma missing_session_is_not_recovered_witness :
  let turn := persistTurn Demo.locale "s-new" Demo.alice "Q" "Answer" None None in
  rs_sessions Demo.store !! "s-new" = None
  /\ (exec ref_env (userRow "s-new" "u1" "Q") Demo.store).1
     = Resolved (mkReply None (Some (fk_violation "s-new")))
  /\ run ref_env turn Demo.store
     = ([userRow "s-new" "u1" "Q"; modelRow "s-new" "u1" "Answer";
         SessionsTouch "s-new" 1000],
        Resolved true, Demo.store)
  /\ count_ops is_session_create (run ref_env turn Demo.store).1.1 = 0%nat.
Proof.
  intros turn.
  assert (rs_sessions Demo.store !! "s-new" = None)
    as Habsent by (vm_compute; reflexivity).
  destruct (missing_session_is_not_recovered Demo.locale "s-new" Demo.alice
              "Q" "Answer" None None) as [_ Hstore].
  destruct (Hstore Demo.store Habsent) as (Hreport & _ & Hrun & Hcreate & _).
  split; [exact Habsent|]. split; [exact Hreport|]. split; [exact Hrun|exact Hcreate].
Defined.

Lemma persistence_failure_keeps_answer_witness :
  rs_sessions Demo.store !! "s-new" = None
  /\ (run ref_env (Demo.post Demo.new_session_turn) Demo.store).1.2
     = Resolved (Ok200 "Answer" "gemini-2.0-flash").
Proof.
  split; [vm_compute; reflexivity|].
  refine (persistence_failure_keeps_answer ref_env Demo.access Demo.instruction
            Demo.locale Demo.new_session_turn
            Demo.store Demo.store
            (ref_exec (UsageInsert "u1" 1) Demo.store).2
            (ref_exec (UsageInsert "u1" 1) Demo.store).2
            [AuthGetUser "tok-alice"]
            [ProfilesSelect "u1"; UsageSelect "u1"; UsageInsert "u1" 1]
            (Some Demo.alice) "Nurse" Demo.answer ref_env_reporting _ _ _);
    vm_compute; reflexivity.
Defined.

Lemma user_write_precedes_model_write_witness :
  let pre := [AuthGetUser "tok-alice"; ProfilesSelect "u1"; UsageSelect "u1";
              UsageInsert "u1" 1;
              GenerateMessage (genArgs Demo.instruction Demo.new_session_turn "Nurse");
              userRow "s-new" "u1" "Q";
              jitSession Demo.locale "s-new" Demo.alice None None 1000;
              userRow "s-new" "u1" "Q"] in
  (run strict_env (Demo.post Demo.new_session_turn) Demo.store).1.1
  = pre ++ MessagesInsert (mkMessage "s-new" "u1" RoleModel "Answer")
        :: [SessionsTouch "s-new" 1000; SessionsSetTitle "s-new" "Nov 3, 12:31 AM"]
  /\ exists before,
      pre = before ++ [MessagesInsert (mkMessage "s-new" "u1" RoleUser "Q")].
Proof.
  intros pre.
  assert ((run strict_env (Demo.post Demo.new_session_turn) Demo.store).1.1
          = pre ++ MessagesInsert (mkMessage "s-new" "u1" RoleModel "Answer")
                :: [SessionsTouch "s-new" 1000;
                    SessionsSetTitle "s-new" "Nov 3, 12:31 AM"])
    as Htrace by (vm_compute; reflexivity).
  split; [exact Htrace|].
  exact (user_write_precedes_model_write strict_env Demo.access Demo.instruction
           Demo.locale Demo.new_session_turn Demo.store _ _ _ Htrace eq_refl).
Defined.

Lemma limit_reached_denies_before_generation_witness :
  5 <= currentCount (Some (mkUsage "u1" 5))
  /\ run ref_env (Demo.post Demo.first_turn) Demo.store_at_limit
     = ([AuthGetUser "tok-alice"; ProfilesSelect "u1"; UsageSelect "u1"],
        Resolved limit_reached, Demo.store_at_limit).
Proof.
  split; [vm_compute; discriminate|].
  refine (proj1 (limit_reached_denies_before_generation ref_env Demo.access
                   Demo.instruction Demo.locale Demo.first_turn
                   Demo.store_at_limit Demo.store_at_limit Demo.store_at_limit
                   Demo.store_at_limit [AuthGetUser "tok-alice"] Demo.alice
                   (found (Some Demo.nurse) no_rows)
                   (found (Some (mkUsage "u1" 5)) no_rows) _ _ _ _ _)).
  - vm_compute. reflexivity.
  - vm_compute. reflexivity.
  - vm_compute. reflexivity.
  - vm_compute. reflexivity.
  - vm_compute. discriminate.
Defined.

Lemma failed_generation_keeps_increment_witness :
  let after := run ref_env (Demo.post Demo.first_turn) Demo.store_down in
  after.1 =
    ([AuthGetUser "tok-alice"; ProfilesSelect "u1"; UsageSelect "u1"; UsageInsert "u1" 1;
      GenerateMessage (genArgs Demo.instruction Demo.first_turn "Nurse")],
     Resolved (Error500 "503 model overloaded" generation_failed_details))
  /\ rs_usage Demo.store_down !! "u1" = None
  /\ rs_usage after.2 !! "u1" = Some 1.
Proof.
  intros after.
  pose proof (failed_generation_keeps_increment ref_env Demo.access
                Demo.instruction Demo.locale Demo.first_turn
                Demo.store_down Demo.store_down Demo.store_down Demo.store_down
                (ref_exec (UsageInsert "u1" 1) Demo.store_down).2
                (ref_exec (UsageInsert "u1" 1) Demo.store_down).2
                [AuthGetUser "tok-alice"] Demo.alice
                (found (Some Demo.nurse) no_rows) (found None no_rows)
                written Demo.overloaded) as Hkeep.
  destruct Hkeep as (Hrun & _ & _).
  - vm_compute. reflexivity.
  - vm_compute. reflexivity.
  - vm_compute. reflexivity.
  - vm_compute. reflexivity.
  - vm_compute. reflexivity.
  - vm_compute. reflexivity.
  - vm_compute. reflexivity.
  - unfold after, Demo.post. rewrite Hrun. vm_compute. repeat split; reflexivity.
Defined.

Lemma title_written_when_formatted_history_empty_witness :
  let step := persistence Demo.locale (Some Demo.alice) Demo.first_turn
                (formatHistory (history Demo.first_turn)) "Answer" in
  Js.truthy (sessionId Demo.first_turn) = Some "s-old"
  /\ (run ref_env step Demo.store).1.1
     = [userRow "s-old" "u1" "Q"; modelRow "s-old" "u1" "Answer";
        SessionsTouch "s-old" 1000; SessionsSetTitle "s-old" "Nov 3, 12:31 AM"]
  /\ session_title ∘ stored_row <$> rs_sessions (run ref_env step Demo.store).2 !! "s-old"
     = Some "Nov 3, 12:31 AM".
Proof.
  intros step.
  assert (Js.truthy (sessionId Demo.first_turn) = Some "s-old") as Hsid by reflexivity.
  split; [exact Hsid|].
  destruct (title_written_when_formatted_history_empty Demo.locale
              Demo.first_turn Demo.alice "s-old" "Answer" Hsid)
    as [Hany Hstore].
  split.
  - destruct (Hany RefStore ref_env Demo.store) as [Hset _]. unfold step.
    rewrite Hset.
    + vm_compute. reflexivity.
    + vm_compute. reflexivity.
    + constructor.
  - destruct (Hstore Demo.store Demo.old_session) as (_ & Htitle & _).
    + vm_compute. reflexivity.
    + unfold step. rewrite Htitle; [reflexivity|constructor].
Defined.

Lemma usage_gate_counts_requests_witness :
  limited_identity Demo.access Demo.store "tok-alice" Demo.alice
  /\ rs_usage (run ref_env (Demo.post Demo.first_turn) Demo.store).2 !! "u1" = Some 1
  /\ (serve ref_env Demo.post (replicate 6 Demo.first_turn) Demo.store).1.1 !! 5%nat
     = Some (Resolved limit_reached).
Proof.
  assert (limited_identity Demo.access Demo.store "tok-alice" Demo.alice) as Hid.
  { split; vm_compute; reflexivity. }
  split; [exact Hid|].
  destruct (usage_gate_counts_requests Demo.access Demo.instruction Demo.locale
              Demo.store "tok-alice" Demo.alice Hid) as (_ & _ & Hbelow & Hseq).
  split.
  - destruct (Hbelow Demo.first_turn) as (_ & Hcount & _).
    + vm_compute. reflexivity.
    + vm_compute. reflexivity.
    + exact Hcount.
  - destruct (Hseq eq_refl (replicate 6 Demo.first_turn)) as [Hdenied _].
    + repeat constructor.
    + vm_compute. reflexivity.
Defined.

Lemma privileged_identity_never_touches_usage_witness :
  let served := serve ref_env Demo.post (replicate 3 Demo.root_turn) Demo.store in
  claims_elevated Demo.elevated Demo.root (rs_profiles Demo.store !! "u2")
  /\ count_ops is_usage_op served.1.2 = 0%nat
  /\ count_ops is_generate_message served.1.2 = 3%nat
  /\ rs_usage served.2 = rs_usage Demo.store.
Proof.
  intros served.
  assert (claims_elevated Demo.elevated Demo.root (rs_profiles Demo.store !! "u2"))
    as Hclaims.
  { exists "admin". split; [reflexivity|]. split; [discriminate|].
    right. right. right. reflexivity. }
  split; [exact Hclaims|].
  destruct (privileged_identity_never_touches_usage ref_env Demo.elevated
              Demo.instruction Demo.locale
              (fun st => rs_auth st = rs_auth Demo.store
                         /\ rs_profiles st = rs_profiles Demo.store)
              "tok-root" Demo.root (replicate 3 Demo.root_turn) Demo.store)
    as (Hnone & Hgen & _).
  - intros o st [Ha Hp]. destruct o; simpl; try done.
    + by destruct (rs_usage st !! uid).
    + by destruct (rs_sessions st !! msg_session_id row).
    + by destruct (rs_sessions st !! session_id row).
  - intros st [Ha Hp]. simpl. rewrite Ha. eexists. by repeat split.
  - intros st [Ha Hp]. simpl. rewrite Hp. eexists. split; [reflexivity|exact Hclaims].
  - done.
  - repeat constructor.
  - split; [exact Hnone|]. split; [exact Hgen|]. vm_compute. reflexivity.
Defined.

Lemma related_failure_answers_empty_array_witness :
  exec ref_env (relatedCall Demo.related_prompt Demo.related_request "Q" "Answer")
    Demo.store_down = (Rejected Demo.overloaded, Demo.store_down)
  /\ (run ref_env (postRelated Demo.related_prompt Demo.parse Demo.related_request)
        Demo.store_down).1.2 = Resolved empty_array
  /\ (run ref_env (postRelated Demo.related_prompt Demo.parse Demo.related_request)
        Demo.store).1.2 = Resolved empty_array.
Proof.
  assert (exec ref_env (relatedCall Demo.related_prompt Demo.related_request "Q" "Answer")
            Demo.store_down = (Rejected Demo.overloaded, Demo.store_down))
    as Hdown by reflexivity.
  split; [exact Hdown|]. split.
  - destruct (related_failure_answers_empty_array ref_env Demo.related_prompt
                Demo.parse Demo.related_request Demo.store_down)
      as (_ & Hreject & _).
    exact (Hreject "Q" "Answer" Demo.overloaded Demo.store_down eq_refl eq_refl Hdown).
  - destruct (related_failure_answers_empty_array ref_env Demo.related_prompt
                Demo.parse Demo.related_request Demo.store)
      as (_ & _ & _ & _ & Hempty).
    exact (Hempty "Q" "Answer" "[]" Demo.store eq_refl eq_refl eq_refl eq_refl).
Defined.


(** ** Code units *)

Lemma char_bytes_range (c : ascii) :
  Js.char_bytes c = 1%nat \/ Js.char_bytes c = 2%nat
  \/ Js.char_bytes c = 3%nat \/ Js.char_bytes c = 4%nat.
Proof.
  unfold Js.char_bytes. cbv zeta.
  destruct (_ <? 192)%nat; [by left|].
  destruct (_ <? 224)%nat; [by right; left|].
  destruct (_ <? 240)%nat; [by right; right; left|by right; right; right].
Qed.

Lemma chars_complete (ch t : string) :
  Js.complete ch -> Js.chars (ch +:+ t) = ch :: Js.chars t.
Proof.
  destruct ch as [|c [|c1 [|c2 [|c3 [|c4 ch]]]]]; cbn [Js.complete String.length];
    intros Hlen; try done.
  - change (Js.chars (String c t) = String c "" :: Js.chars t).
    cbn [Js.chars]. rewrite <- Hlen. by destruct t.
  - change (Js.chars (String c (String c1 t)) = String c (String c1 "") :: Js.chars t).
    cbn [Js.chars]. by rewrite <- Hlen.
  - change (Js.chars (String c (String c1 (String c2 t)))
            = String c (String c1 (String c2 "")) :: Js.chars t).
    cbn [Js.chars]. by rewrite <- Hlen.
  - change (Js.chars (String c (String c1 (String c2 (String c3 t))))
            = String c (String c1 (String c2 (String c3 ""))) :: Js.chars t).
    cbn [Js.chars]. by rewrite <- Hlen.
  - destruct (char_bytes_range c) as [H|[H|[H|H]]]; rewrite H in Hlen; lia.
Qed.

Lemma chars_cut_short (c : ascii) (t : string) :
  (String.length t < Js.char_bytes c - 1)%nat ->
  Js.chars (String c t) = String c "" :: Js.chars t.
Proof.
  intros Hshort. cbn [Js.chars].
  destruct (char_bytes_range c) as [H|[H|[H|H]]]; rewrite H in *.
  - cbn in Hshort. lia.
  - destruct t as [|c1 t]; [done|]. cbn in Hshort. lia.
  - destruct t as [|c1 [|c2 t]]; [done|done|]. cbn in Hshort. lia.
  - destruct t as [|c1 [|c2 [|c3 t]]]; [done|done|done|]. cbn in Hshort. lia.
Qed.

(** Induction along the characters of a text. *)
Lemma chars_ind (P : string -> Prop) :
  P "" ->
  (forall ch t, Js.complete ch -> P t -> P (ch +:+ t)) ->
  (forall c t, (String.length t < Js.char_bytes c - 1)%nat -> P t -> P (String c t)) ->
  forall s, P s.
Proof.
  intros Hnil Hfull Hshort s.
  remember (String.length s) as n eqn:Hn. revert s Hn.
  induction n as [n IH] using lt_wf_ind. intros [|c rest] ->; [done|].
  assert (forall t, (String.length t <= String.length rest)%nat -> P t) as Hrec.
  { intros t Ht. apply (IH (String.length t)); [cbn; lia|done]. }
  destruct (char_bytes_range c) as [H|[H|[H|H]]].
  - apply (Hfull (String c "") rest); [by cbn|]. by apply Hrec.
  - destruct rest as [|c1 r1].
    + apply Hshort; [rewrite H; cbn; lia|by apply Hrec].
    + apply (Hfull (String c (String c1 "")) r1); [by cbn|]. apply Hrec. cbn. lia.
  - destruct rest as [|c1 [|c2 r2]].
    + apply Hshort; [rewrite H; cbn; lia|by apply Hrec].
    + apply Hshort; [rewrite H; cbn; lia|by apply Hrec].
    + apply (Hfull (String c (String c1 (String c2 ""))) r2); [by cbn|].
      apply Hrec. cbn. lia.
  - destruct rest as [|c1 [|c2 [|c3 r3]]].
    + apply Hshort; [rewrite H; cbn; lia|by apply Hrec].
    + apply Hshort; [rewrite H; cbn; lia|by apply Hrec].
    + apply Hshort; [rewrite H; cbn; lia|by apply Hrec].
    + apply (Hfull (String c (String c1 (String c2 (String c3 "")))) r3); [by cbn|].
      apply Hrec. cbn. lia.
Qed.

Lemma join_cons (ch : string) (rest : list string) :
  Js.join (ch :: rest) = ch +:+ Js.join rest.
Proof. done. Qed.

Lemma join_chars (s : string) : Js.join (Js.chars s) = s.
Proof.
  induction s as [|ch t Hch IH|c t Hshort IH] using chars_ind.
  - done.
  - rewrite chars_complete by done. by rewrite join_cons, IH.
  - rewrite chars_cut_short by done. by rewrite join_cons, IH.
Qed.

Lemma framed_chars (s : string) : Js.framed (Js.chars s).
Proof.
  induction s as [|ch t Hch IH|c t Hshort IH] using chars_ind.
  - done.
  - rewrite chars_complete by done. by split; [left|].
  - rewrite chars_cut_short by done. split; [|done].
    right. exists c. by rewrite join_chars.
Qed.

Lemma chars_join (cs : list string) : Js.framed cs -> Js.chars (Js.join cs) = cs.
Proof.
  induction cs as [|ch rest IH]; [done|].
  intros [[Hch|(c & -> & Hshort)] Hrest]; rewrite join_cons.
  - rewrite chars_complete by done. by rewrite IH.
  - change (String c "" +:+ Js.join rest) with (String c (Js.join rest)).
    rewrite chars_cut_short by done. by rewrite IH.
Qed.

Lemma char_units_cases (ch : string) :
  (Js.char_units ch = 1%nat /\ String.length ch <> 4%nat)
  \/ (Js.char_units ch = 2%nat /\ String.length ch = 4%nat).
Proof.
  unfold Js.char_units. destruct (Nat.eqb_spec (String.length ch) 4); [by right|by left].
Qed.

Lemma length_append (a b : string) :
  String.length (a +:+ b) = (String.length a + String.length b)%nat.
Proof.
  induction a as [|c a IH]; [done|].
  change (String c a +:+ b) with (String c (a +:+ b)). cbn [String.length].
  by rewrite IH.
Qed.

Lemma take_units_0 (cs : list string) : Js.take_units 0 cs = [].
Proof. by destruct cs. Qed.

Lemma drop_units_0 (cs : list string) : Js.drop_units 0 cs = cs.
Proof. by destruct cs. Qed.

Lemma take_units_cons (n : nat) (ch : string) (rest : list string) :
  Js.take_units (S n) (ch :: rest)
  = if (n =? 0)%nat && (Js.char_units ch =? 2)%nat then [Js.high_surrogate ch]
    else ch :: Js.take_units (S n - Js.char_units ch) rest.
Proof.
  cbn [Js.take_units].
  destruct (char_units_cases ch) as [[-> _]|[-> _]]; by destruct n.
Qed.

Lemma framed_take_units (n : nat) (cs : list string) :
  Js.framed cs ->
  Js.framed (Js.take_units n cs)
  /\ (String.length (Js.join (Js.take_units n cs)) <= String.length (Js.join cs))%nat.
Proof.
  revert n. induction cs as [|ch rest IH]; intros n Hcs; [done|].
  destruct n as [|n]; [rewrite take_units_0; cbn; split; [done|lia]|].
  rewrite take_units_cons. destruct Hcs as [Hch Hrest].
  destruct (char_units_cases ch) as [[Hu Hlen]|[Hu Hlen]]; rewrite Hu.
  - rewrite andb_false_r.
    destruct (IH (S n - 1)%nat Hrest) as [Hframed Hshorter]. split.
    + split; [|done]. destruct Hch as [Hch|(c & -> & Hshort)]; [by left|].
      right. exists c. split; [done|lia].
    + rewrite !join_cons, !length_append. lia.
  - destruct n as [|n]; cbn [Nat.eqb andb].
    + split.
      * split; [|done]. left. reflexivity.
      * rewrite !join_cons, !length_append, Hlen. cbn. lia.
    + destruct (IH (S (S n) - 2)%nat Hrest) as [Hframed Hshorter]. split.
      * split; [|done]. destruct Hch as [Hch|(c & -> & Hshort)]; [by left|].
        right. exists c. split; [done|lia].
      * rewrite !join_cons, !length_append. lia.
Qed.

Lemma units_take_units (n : nat) (cs : list string) :
  Js.units (Js.take_units n cs) = Nat.min n (Js.units cs).
Proof.
  revert n. induction cs as [|ch rest IH]; intros n; [cbn; lia|].
  destruct n as [|n]; [by rewrite take_units_0|].
  rewrite take_units_cons. cbn [Js.units foldr]. fold (Js.units rest).
  destruct (char_units_cases ch) as [[Hu Hlen]|[Hu Hlen]]; rewrite Hu.
  - rewrite andb_false_r. cbn [Js.units foldr].
    fold (Js.units (Js.take_units (S n - 1) rest)). rewrite IH, Hu. lia.
  - destruct n as [|n]; cbn [Nat.eqb andb].
    + cbn. lia.
    + cbn [Js.units foldr]. fold (Js.units (Js.take_units (S (S n) - 2) rest)).
      rewrite IH, Hu. lia.
Qed.

Lemma take_units_all (n : nat) (cs : list string) :
  (Js.units cs <= n)%nat -> Js.take_units n cs = cs.
Proof.
  revert n. induction cs as [|ch rest IH]; intros n; [by destruct n|].
  cbn [Js.units foldr]. fold (Js.units rest). intros Hle.
  destruct (char_units_cases ch) as [[Hu Hlen]|[Hu Hlen]]; rewrite Hu in Hle.
  - destruct n as [|n]; [lia|]. rewrite take_units_cons, Hu, andb_false_r.
    f_equal. apply IH. lia.
  - destruct n as [|[|n]]; [lia|lia|]. rewrite take_units_cons, Hu. cbn [Nat.eqb andb].
    f_equal. apply IH. lia.
Qed.

Lemma substring_from_start (n : nat) (s : string) :
  Js.substring 0 n s = Js.join (Js.take_units n (Js.chars s))
  /\ Js.slice 0 n s = Js.join (Js.take_units n (Js.chars s)).
Proof.
  unfold Js.substring, Js.slice. rewrite Nat.min_0_l, Nat.max_0_l, Nat.sub_0_r.
  by rewrite drop_units_0.
Qed.

(** The cut keeps the first [n] code units, and the whole text when it
    has no more than [n]. *)
Lemma slice_from_start (n : nat) (s : string) :
  Js.length (Js.slice 0 n s) = Nat.min n (Js.length s)
  /\ ((Js.length s <= n)%nat -> Js.slice 0 n s = s).
Proof.
  destruct (substring_from_start n s) as [_ ->]. split.
  - unfold Js.length. rewrite chars_join by apply framed_take_units, framed_chars.
    apply units_take_units.
  - intros Hle. rewrite take_units_all by done. apply join_chars.
Qed.

(** An ASCII text is cut as its characters are. *)
Lemma slice_ascii (n : nat) (s : string) :
  Js.is_ascii s ->
  Js.slice 0 n s = String.substring 0 n s /\ Js.length s = String.length s.
Proof.
  destruct (substring_from_start n s) as [_ ->]. unfold Js.length, Js.is_ascii.
  revert n. induction s as [|c s IH]; intros n Hs.
  - by destruct n.
  - cbn [list_ascii_of_string] in Hs. apply Forall_cons in Hs as [Hc Hs].
    assert (Js.char_bytes c = 1%nat) as Hone.
    { unfold Js.char_bytes. cbv zeta.
      destruct (Nat.ltb_spec (nat_of_ascii c) 192); [done|lia]. }
    assert (Js.chars (String c s) = String c "" :: Js.chars s) as ->.
    { apply (chars_complete (String c "") s). by cbn. }
    assert (Js.units (String c "" :: Js.chars s) = String.length (String c s)) as Hlen.
    { change (Js.units (String c "" :: Js.chars s)) with (S (Js.units (Js.chars s))).
      by rewrite (proj2 (IH 0%nat Hs)). }
    split; [|exact Hlen]. destruct n as [|n]; [by rewrite take_units_0|].
    rewrite take_units_cons.
    change (Js.char_units (String c "")) with 1%nat. rewrite andb_false_r, join_cons.
    replace (S n - 1)%nat with n by lia. by rewrite (proj1 (IH n Hs)).
Qed.

(** Texts outside ASCII are measured and cut in code units, not bytes:
    150 times U+00E4 is 300 bytes and 150 units, and passes a cut at 200
    whole; 101 times U+1F600 is cut to 100 of them; a cut inside a
    surrogate pair keeps its first half. *)
Example texts_cut_by_code_units :
  String.length (Scenarios.repeated 150 Scenarios.a_umlaut) = 300%nat
  /\ Js.length (Scenarios.repeated 150 Scenarios.a_umlaut) = 150%nat
  /\ Js.substring 0 200 (Scenarios.repeated 150 Scenarios.a_umlaut)
     = Scenarios.repeated 150 Scenarios.a_umlaut
  /\ Js.length (Scenarios.repeated 101 Scenarios.grinning_face) = 202%nat
  /\ Js.substring 0 200 (Scenarios.repeated 101 Scenarios.grinning_face)
     = Scenarios.repeated 100 Scenarios.grinning_face
  /\ Js.slice 0 2 ("a" +:+ Scenarios.grinning_face)
     = "a" +:+ Js.high_surrogate Scenarios.grinning_face
  /\ Js.length (Js.slice 0 2 ("a" +:+ Scenarios.grinning_face)) = 2%nat.
Proof. vm_compute. repeat split; reflexivity. Qed.

Lemma substring_0_slice (n : nat) (s : string) : Js.substring 0 n s = Js.slice 0 n s.
Proof. destruct (substring_from_start n s) as [-> ->]. done. Qed.

Lemma substring_bound (n : nat) (t : string) :
  (String.length (String.substring 0 n t) <= n)%nat
  /\ String.prefix (String.substring 0 n t) t = true.
Proof.
  revert n. induction t as [|c t IH]; intros [|n]; simpl; try (split; [lia|done]).
  destruct (IH n) as [Hlen Hpre]. split; [lia|].
  by destruct (Ascii.ascii_dec c c).
Qed.

(** * Further properties of the chat handler *)

Section ChatHandler.

Context {S : Type} (E : env S).
Variable hasUnlimitedAccess : AccessSubject -> bool.
Variable systemInstructionText :
  option string -> option string -> option string -> string -> bool -> string.
Variable toLocaleString : Z -> string.

#[local] Abbreviation handler :=
  (postMessage hasUnlimitedAccess systemInstructionText toLocaleString).
#[local] Abbreviation gate := (accessControl hasUnlimitedAccess).
#[local] Abbreviation generation := (genArgs systemInstructionText).

(** The only early return of the access check is LIMIT_REACHED. *)
Lemma accessControl_early_return (user : option AuthUser) (req : ChatRequest) (s : S)
    (resp : Response) :
  (run E (gate user req) s).1.2 = Resolved (inl resp) -> resp = limit_reached.
Proof.
  rewrite run_accessControl. destruct user as [u|]; [|done]. cbv zeta.
  destruct (exec E (ProfilesSelect (user_id u)) s) as [[r|e] s1]; [|done].
  destruct (hasUnlimitedAccess _); [done|].
  rewrite run_checkUsage. cbv zeta.
  destruct (exec E (UsageSelect (user_id u)) s1) as [[ur|e] s2]; [|done].
  destruct (5 <=? _)%Z; [by intros [= <-]|].
  by destruct (exec E (usageWrite _ _) s2) as [[x|e] s3].
Qed.

(** X1: whether the awaited calls resolve or reject with an error
    object that the [catch] clauses can read, the handler answers: its
    run never ends in an uncaught error, and a 403 is always
    LIMIT_REACHED. *)
Theorem postMessage_always_answers (req : ChatRequest) (s : S) :
  exists resp,
    (run E (handler req) s).1.2 = Resolved resp
    /\ (status resp = 403 -> resp = limit_reached).
Proof.
  rewrite run_postMessage.
  destruct (authenticate_resolves E req s) as (tr0 & user & s1 & -> & _).
  rewrite run_messageBody.
  pose proof (accessControl_early_return user req s1) as Hearly.
  destruct (run E (gate user req) s1) as [[trA [[resp|role]|e]] s2]; simpl in Hearly.
  - exists resp. split; [done|]. intros _. by apply Hearly.
  - cbv zeta. destruct (exec E (GenerateMessage _) s2) as [[g|e] s3].
    + destruct (run E (persistence _ _ _ _ _) s3) as [[tr2 [[]|e]] s4];
        eexists; (split; [reflexivity|done]).
    + eexists. split; [reflexivity|done].
  - eexists. split; [reflexivity|done].
Qed.

(** X2: the request is served as a logged-in user exactly when a token is
    present, [getUser] resolves, reports no error and names a user; in
    every other case, a rejected [getUser] included, it is a guest. *)
Theorem authenticate_user_iff (req : ChatRequest) (s : S) (u : AuthUser) :
  (run E (authenticate req) s).1.2 = Resolved (Some u) <->
  exists token r,
    token_of req = Some token
    /\ (exec E (AuthGetUser token) s).1 = Resolved r
    /\ error r = None /\ data r = Some u.
Proof.
  rewrite run_authenticate. destruct (token_of req) as [token|].
  - destruct (exec E (AuthGetUser token) s) as [[r|e] s1] eqn:Hexec; simpl.
    + split.
      * intros Hu. exists token, r. rewrite Hexec.
        destruct (error r) as [e|]; [done|]. injection Hu as Hu. by repeat split.
      * intros (token' & r' & [= <-] & Hr & Herr & Hdata).
        rewrite Hexec in Hr. simpl in Hr. injection Hr as <-.
        by rewrite Herr, Hdata.
    + split; [done|]. intros (token' & r' & [= <-] & Hr & _). by rewrite Hexec in Hr.
  - split; [done|]. by intros (token' & r' & Ht & _).
Qed.

(** X3: a guest request goes straight to the generation call, with the
    requested role or "Physician"; no profile, usage or chat table is
    touched, whatever [sessionId] the body carries. *)
Theorem guest_request_only_generates (req : ChatRequest) (s s1 : S) (tr0 : trace) :
  run E (authenticate req) s = (tr0, Resolved None, s1) ->
  let call := GenerateMessage (generation req (requestedRole req)) in
  run E (handler req) s =
    (tr0 ++ [call],
     Resolved (match (exec E call s1).1 with
               | Resolved g => Ok200 (gen_text g) (gen_model g)
               | Rejected e => chatError e
               end),
     (exec E call s1).2).
Proof.
  intros Hauth call. subst call.
  rewrite run_postMessage, Hauth, run_messageBody. simpl. unfold requestedRole.
  by destruct (exec E (GenerateMessage _) s1) as [[g|e] s2].
Qed.

(** X4: once the generation call has resolved, the caller gets its text
    and model, whether the message inserts, the touch, the session
    creation and the retry resolve or reject with an error object; the
    one exception is a title write that rejects, which can only happen
    when the formatted history is empty. *)
Theorem answer_returned_unless_title_write_rejects
    (req : ChatRequest) (s s1 s2 s3 : S) (tr0 trA : trace) (user : option AuthUser)
    (role : string) (g : GenReply) :
  run E (authenticate req) s = (tr0, Resolved user, s1) ->
  run E (gate user req) s1 = (trA, Resolved (inr role), s2) ->
  exec E (GenerateMessage (generation req role)) s2 = (Resolved g, s3) ->
  (run E (handler req) s).1.2 = Resolved (Ok200 (gen_text g) (gen_model g))
  \/ (formatHistory (history req) = []
      /\ exists e sid t before,
          (run E (handler req) s).1
          = (before ++ [SessionsSetTitle sid t], Resolved (chatError e))).
Proof.
  intros Hauth Hgate Hgen.
  rewrite run_postMessage, Hauth, run_messageBody, Hgate. cbv zeta. rewrite Hgen.
  destruct (run E (persistence _ _ _ _ _) s3) as [[tr2 [[]|e]] s4] eqn:Hpersist;
    [by left|].
  right.
  destruct (persistence_rejects_only_on_title E toLocaleString _ _ _ _ _ _ _ _ Hpersist)
    as (Hempty & sid & t & before & ->).
  split; [done|]. exists e, sid, t.
  exists (tr0 ++ trA ++ GenerateMessage (generation req role) :: before).
  simpl. by rewrite <- !app_assoc.
Qed.

End ChatHandler.


Section ChatTrace.

Context {S : Type} (E : env S).
Variable hasUnlimitedAccess : AccessSubject -> bool.
Variable systemInstructionText :
  option string -> option string -> option string -> string -> bool -> string.
Variable toLocaleString : Z -> string.

#[local] Abbreviation handler :=
  (postMessage hasUnlimitedAccess systemInstructionText toLocaleString).

(** The trace of a request in three parts: the token check, the access
    check, and the generation call with the persistence writes. *)
Lemma postMessage_trace_parts (req : ChatRequest) (s : S) :
  exists tr0 trG rest,
    (run E (handler req) s).1.1 = tr0 ++ trG ++ rest
    /\ (tr0 = [] \/ exists token, token_of req = Some token /\ tr0 = [AuthGetUser token])
    /\ (trG = [] \/
        exists u,
          trG = [ProfilesSelect (user_id u)]
          \/ trG = [ProfilesSelect (user_id u); UsageSelect (user_id u)]
          \/ exists usage,
              currentCount usage < 5
              /\ trG = [ProfilesSelect (user_id u); UsageSelect (user_id u);
                        usageWrite (user_id u) usage])
    /\ (rest = [] \/
        exists args tr2,
          rest = GenerateMessage args :: tr2
          /\ Forall (fun o => is_persistence_op o = true) tr2).
Proof.
  rewrite run_postMessage.
  destruct (authenticate_resolves E req s) as (tr0 & user & s1 & -> & H0).
  rewrite run_messageBody, run_accessControl.
  destruct user as [u|].
  2: { cbv zeta. set (G := GenerateMessage _).
       destruct (exec E G s1) as [[g|e] s2].
       - pose proof (run_only_ops E _ _ s2
                       (persistence_footprint toLocaleString None req
                          (formatHistory (history req)) (gen_text g))) as Hfoot.
         destruct (run E (persistence _ _ _ _ _) s2) as [[tr2 [[]|e]] s3];
           exists tr0, [], (G :: tr2); simpl in *; (split; [done|]);
           repeat split; eauto 6.
       - exists tr0, [], [G]. simpl. repeat split; eauto 6. }
  cbv zeta.
  destruct (exec E (ProfilesSelect (user_id u)) s1) as [[pr|e] s2].
  2: { exists tr0, [ProfilesSelect (user_id u)], []. simpl.
       repeat split; eauto 6. }
  assert (forall trG role s2,
             (trG = [ProfilesSelect (user_id u)]
              \/ trG = [ProfilesSelect (user_id u); UsageSelect (user_id u)]
              \/ exists usage,
                  currentCount usage < 5
                  /\ trG = [ProfilesSelect (user_id u); UsageSelect (user_id u);
                            usageWrite (user_id u) usage]) ->
             exists tr0' trG' rest,
               (let generate := GenerateMessage (genArgs systemInstructionText req role) in
                match exec E generate s2 with
                | (Rejected e, s3) => (tr0 ++ trG ++ [generate], Resolved (chatError e), s3)
                | (Resolved g, s3) =>
                    match run E (persistence toLocaleString (Some u) req
                                   (formatHistory (history req)) (gen_text g)) s3 with
                    | (tr2, Resolved _, s4) =>
                        (tr0 ++ trG ++ generate :: tr2,
                         Resolved (Ok200 (gen_text g) (gen_model g)), s4)
                    | (tr2, Rejected e, s4) =>
                        (tr0 ++ trG ++ generate :: tr2, Resolved (chatError e), s4)
                    end
                end).1.1 = tr0' ++ trG' ++ rest
               /\ tr0' = tr0 /\ trG' = trG
               /\ (rest = [] \/
                   exists args tr2,
                     rest = GenerateMessage args :: tr2
                     /\ Forall (fun o => is_persistence_op o = true) tr2)) as Hgo.
  { intros trG role s' _. cbv zeta. set (G := GenerateMessage _).
    destruct (exec E G s') as [[g|e] s3].
    - pose proof (run_only_ops E _ _ s3
                    (persistence_footprint toLocaleString (Some u) req
                       (formatHistory (history req)) (gen_text g))) as Hfoot.
      destruct (run E (persistence _ _ _ _ _) s3) as [[tr2 [[]|e]] s4];
        exists tr0, trG, (G :: tr2); simpl in *; repeat split; eauto 6.
    - exists tr0, trG, [G]. simpl. repeat split; eauto 6. }
  destruct (hasUnlimitedAccess _).
  { destruct (Hgo [ProfilesSelect (user_id u)]
                (persona u (data pr) (requestedRole req)) s2)
      as (a & b & c & Heq & -> & -> & Hrest); [by left|].
    exists tr0, [ProfilesSelect (user_id u)], c.
    split; [|repeat split; eauto 6].
    rewrite <- Heq. cbv zeta.
    destruct (exec E (GenerateMessage _) s2) as [[g|e] s3]; [|done].
    by destruct (run E (persistence _ _ _ _ _) s3) as [[tr2 [[]|e]] s4]. }
  rewrite run_checkUsage. cbv zeta.
  destruct (exec E (UsageSelect (user_id u)) s2) as [[ur|e] s3].
  2: { exists tr0, [ProfilesSelect (user_id u); UsageSelect (user_id u)], [].
       simpl. repeat split; eauto 8. }
  destruct (Z.leb_spec 5 (currentCount (data ur))) as [Hfull|Hbelow].
  { exists tr0, [ProfilesSelect (user_id u); UsageSelect (user_id u)], [].
    simpl. repeat split; eauto 8. }
  destruct (exec E (usageWrite (user_id u) (data ur)) s3) as [[x|e] s4].
  2: { exists tr0, [ProfilesSelect (user_id u); UsageSelect (user_id u);
                    usageWrite (user_id u) (data ur)], [].
       simpl. repeat split; eauto 10. }
  destruct (Hgo [ProfilesSelect (user_id u); UsageSelect (user_id u);
                 usageWrite (user_id u) (data ur)]
              (persona u (data pr) (requestedRole req)) s4)
    as (a & b & c & Heq & -> & -> & Hrest); [eauto 8|].
  exists tr0, [ProfilesSelect (user_id u); UsageSelect (user_id u);
               usageWrite (user_id u) (data ur)], c.
  split; [|repeat split; eauto 10].
  rewrite <- Heq. cbv zeta.
  destruct (exec E (GenerateMessage _) s4) as [[g|e] s5]; [|done].
  by destruct (run E (persistence _ _ _ _ _) s5) as [[tr2 [[]|e]] s6].
Qed.

(** X5: one request issues at most one [getUser], one profile read, one
    usage write and one generation call: the handler itself never
    retries the model nor charges the quota twice. *)
Theorem one_request_bounds (req : ChatRequest) (s : S) :
  let tr := (run E (handler req) s).1.1 in
  (count_ops is_generate_message tr <= 1)%nat
  /\ (count_ops is_usage_write tr <= 1)%nat
  /\ (count_ops (fun o => match o with ProfilesSelect _ => true | _ => false end) tr <= 1)%nat
  /\ (count_ops (fun o => match o with AuthGetUser _ => true | _ => false end) tr <= 1)%nat.
Proof.
  intros tr. unfold tr.
  destruct (postMessage_trace_parts req s)
    as (tr0 & trG & rest & -> & H0 & HG & Hrest).
  assert (forall p, (forall row, p (MessagesInsert row) = false) ->
                    (forall i t, p (SessionsTouch i t) = false) ->
                    (forall row, p (SessionsInsert row) = false) ->
                    (forall i t, p (SessionsSetTitle i t) = false) ->
                    forall tr2, Forall (fun o => is_persistence_op o = true) tr2 ->
                                count_ops p tr2 = 0%nat) as Hfoot.
  { intros p H1 H2 H3 H4 tr2 Htr2. apply count_ops_none.
    eapply Forall_impl; [exact Htr2|]. intros [] Ho; try done; auto. }
  assert (exists tr2, Forall (fun o => is_persistence_op o = true) tr2
                      /\ (rest = [] \/ exists args, rest = GenerateMessage args :: tr2))
    as (tr2 & Htr2 & Hrest').
  { destruct Hrest as [->|(args & tr2 & -> & Htr2)]; [exists []|exists tr2]; eauto. }
  pose proof (Hfoot is_generate_message ltac:(done) ltac:(done) ltac:(done)
                ltac:(done) tr2 Htr2) as Hg.
  pose proof (Hfoot is_usage_write ltac:(done) ltac:(done) ltac:(done)
                ltac:(done) tr2 Htr2) as Hw.
  pose proof (Hfoot (fun o => match o with ProfilesSelect _ => true | _ => false end)
                ltac:(done) ltac:(done) ltac:(done) ltac:(done) tr2 Htr2) as Hp.
  pose proof (Hfoot (fun o => match o with AuthGetUser _ => true | _ => false end)
                ltac:(done) ltac:(done) ltac:(done) ltac:(done) tr2 Htr2) as Ha.
  rewrite !count_ops_app.
  destruct H0 as [->|(token & _ & ->)];
    (destruct HG as [->|(u & [->| [->| (usage & _ & ->)]])]);
    (destruct Hrest' as [->|(args & ->)]);
    rewrite ?count_ops_cons, ?Hg, ?Hw, ?Hp, ?Ha;
    cbn; try (destruct usage; cbn); lia.
Qed.

(** X6: the handler never writes a question count above five, and an
    inserted usage row always counts one. *)
Theorem usage_write_never_above_limit (req : ChatRequest) (s : S) (o : op) :
  o ∈ (run E (handler req) s).1.1 ->
  is_usage_write o = true ->
  exists uid n, (o = UsageInsert uid n /\ n = 1) \/ (o = UsageUpdate uid n /\ n <= 5).
Proof.
  destruct (postMessage_trace_parts req s)
    as (tr0 & trG & rest & -> & H0 & HG & Hrest).
  intros Hin Hw. apply elem_of_app in Hin as [Hin|Hin].
  { destruct H0 as [->|(token & _ & ->)]; in_trace Hin. }
  apply elem_of_app in Hin as [Hin|Hin].
  - destruct HG as [->|(u & [->| [->| (usage & Hbelow & ->)]])]; in_trace Hin.
    exists (user_id u). destruct usage as [row|]; simpl in *.
    + exists (questions_count row + 1). right. split; [done|lia].
    + exists 1. by left.
  - destruct Hrest as [->|(args & tr2 & -> & Htr2)]; [in_trace Hin|].
    apply elem_of_cons in Hin as [->|Hin]; [done|].
    rewrite Forall_forall in Htr2. specialize (Htr2 o Hin). by destruct o.
Qed.

End ChatTrace.


(** ** The bearer token *)

Lemma split_pieces_without_separator (sep : ascii) (s piece : string) :
  piece ∈ Js.split sep s -> Js.includes (String sep EmptyString) piece = false.
Proof.
  revert piece. induction s as [|c s IH]; intros piece Hin; simpl in Hin.
  - apply list_elem_of_singleton in Hin as ->. done.
  - destruct (Ascii.eqb_spec c sep) as [->|Hne].
    + apply elem_of_cons in Hin as [->|Hin]; [done|by apply IH].
    + destruct (Js.split sep s) as [|h t] eqn:Hsplit.
      * apply list_elem_of_singleton in Hin as ->. simpl.
        by destruct (Ascii.ascii_dec sep c) as [->|].
      * apply elem_of_cons in Hin as [->|Hin].
        -- simpl. destruct (Ascii.ascii_dec sep c) as [->|]; [done|]. simpl.
           apply IH. by left.
        -- apply IH. by right.
Qed.

(** X7: the token handed to [getUser] is the second space-separated piece
    of the Authorization header; it is never empty, never the text
    "null", and holds no space. *)
Theorem token_is_well_formed (req : ChatRequest) (token : string) :
  token_of req = Some token ->
  token <> "" /\ token <> "null" /\ Js.includes " " token = false
  /\ exists header, authorization req = Some header
                    /\ Js.split " " header !! 1%nat = Some token.
Proof.
  unfold token_of. destruct (authorization req) as [header|]; [|done].
  unfold Js.truthy at 1. destruct (String.eqb header ""); [done|].
  destruct (nth_error (Js.split " " header) 1) as [piece|] eqn:Hnth; [|done].
  unfold Js.truthy. destruct (String.eqb_spec piece "") as [|Hne]; [done|].
  destruct (String.eqb_spec piece "null") as [|Hnull]; [done|].
  intros [= <-]. repeat split; try done.
  - apply (split_pieces_without_separator " " header).
    apply list_elem_of_In. by eapply nth_error_In.
  - exists header. split; [done|]. clear -Hnth.
    destruct (Js.split " " header) as [|a [|b l]]; simpl in *; congruence.
Qed.

(** ** The persona *)

(** X8: the role the prompt is written for is the first non-empty value
    among the profile's professional role, specialty and title, the user
    metadata's professional role and the requested role, and "Physician"
    when all are missing; it is never empty. *)
Theorem persona_first_non_empty (user : AuthUser) (profile : option Profile)
    (req : ChatRequest) :
  persona user profile (requestedRole req) =
    default "Physician"
      (head (omap Js.truthy
               [profile ≫= profile_professional_role;
                profile ≫= profile_specialty;
                profile ≫= profile_title;
                user_metadata user ≫= md_professional_role;
                userRole req]))
  /\ persona user profile (requestedRole req) <> "".
Proof.
  assert (forall v s, Js.truthy v = Some s -> s <> "") as Htruthy.
  { intros [v|] s; simpl; [|done]. destruct (String.eqb_spec v ""); [done|].
    by intros [= <-]. }
  assert (forall v s, Js.truthy v = Some s ->
                      (if String.eqb s "" then None else Some s) = Some s) as Hfix.
  { intros v s Hv. apply Htruthy in Hv. by destruct (String.eqb_spec s ""). }
  unfold persona, requestedRole, Js.or_default, Js.or_else. simpl.
  destruct (Js.truthy (profile ≫= profile_professional_role)) as [a|] eqn:Ha; simpl.
  { rewrite (Hfix _ _ Ha). split; [done|]. by eapply Htruthy. }
  destruct (Js.truthy (profile ≫= profile_specialty)) as [b|] eqn:Hb; simpl.
  { rewrite (Hfix _ _ Hb). split; [done|]. by eapply Htruthy. }
  destruct (Js.truthy (profile ≫= profile_title)) as [c|] eqn:Hc; simpl.
  { rewrite (Hfix _ _ Hc). split; [done|]. by eapply Htruthy. }
  destruct (Js.truthy (user_metadata user ≫= md_professional_role)) as [d|] eqn:Hd; simpl.
  { split; [done|]. by eapply Htruthy. }
  destruct (Js.truthy (userRole req)) as [e|] eqn:He; simpl.
  { split; [done|]. by eapply Htruthy. }
  done.
Qed.

(** ** A first attempt that fails half way *)

Section HalfWay.

Context {S : Type} (E : env S).
Variable toLocaleString : Z -> string.

(** X9: when the user insert of the first attempt has resolved and the
    attempt then fails with a foreign-key error, the retry after the
    session creation issues the user insert a second time. *)
Theorem retry_repeats_user_insert
    (sid : string) (user : AuthUser) (userText modelText : string)
    (region country : option string) (s s1 s2 s3 : S)
    (x : StoreReply unit) (y : StoreReply unit) (e : JsError) :
  let U := userRow sid (user_id user) userText in
  let M := modelRow sid (user_id user) modelText in
  let create := jitSession toLocaleString sid user region country (clock E s2) in
  exec E U s = (Resolved x, s1) ->
  exec E M s1 = (Rejected e, s2) ->
  isForeignKeyError e = true ->
  exec E create s2 = (Resolved y, s3) ->
  exists rest,
    (run E (persistTurn toLocaleString sid user userText modelText region country) s).1.1
    = U :: M :: create :: U :: rest.
Proof.
  intros U M create HU HM Hfk Hcreate.
  rewrite run_persistTurn, run_persistMessages. fold U M.
  rewrite HU, HM, Hfk. cbv zeta. fold create. rewrite Hcreate.
  destruct (attempt_trace E sid user userText modelText s3) as [t Ht].
  fold U M in Ht.
  destruct (run E (persistMessages _ _ _ _) s3) as [[tr2 r2] s4]. simpl in *.
  destruct Ht as [->| [->| ->]]; eauto.
Qed.

End HalfWay.

(** ** The related-questions route, on success *)

Section RelatedSuccess.

Context {S : Type} (E : env S).
Variable relatedPrompt : option string -> option string -> string -> string -> string.
Variable JSON_parse : string -> option json.

(** X10: the route makes no generation call when [lastMessage] or
    [lastResponse] is missing and exactly one otherwise; a payload that
    parses is sent back as it is, whatever its shape. *)
Theorem related_calls_once_and_returns_payload (req : RelatedRequest) (s : S) :
  let out := run E (postRelated relatedPrompt JSON_parse req) s in
  (lastMessage req = None \/ lastResponse req = None -> out.1.1 = []) /\
  (forall m r, lastMessage req = Some m -> lastResponse req = Some r ->
               out.1.1 = [relatedCall relatedPrompt req m r]) /\
  (forall m r text s1 v,
      lastMessage req = Some m -> lastResponse req = Some r ->
      exec E (relatedCall relatedPrompt req m r) s = (Resolved text, s1) ->
      JSON_parse text = Some v ->
      out.1.2 = Resolved (mkRelatedResponse 200 v)).
Proof.
  intros out. unfold out. rewrite run_postRelated. repeat split.
  - intros [->|Hr]; [done|]. rewrite Hr. by destruct (lastMessage req).
  - intros m r -> ->. by destruct (exec E _ s) as [[text|e] s1].
  - intros m r text s1 v -> -> Hcall Hparse. by rewrite Hcall, Hparse.
Qed.

(** X11: the question and the answer reach the prompt cut to their first
    200 UTF-16 code units, as [substring(0, 200)] cuts them: the cut
    text has min(200, length) code units, and a text of at most 200 code
    units is passed whole; an ASCII text is cut to its first 200
    characters, a prefix of it. *)
Theorem related_prompt_texts_truncated (req : RelatedRequest) (m r : string) :
  let m' := Js.substring 0 200 m in
  let r' := Js.substring 0 200 r in
  relatedCall relatedPrompt req m r
  = GenerateContent "related_questions"
      (relatedPrompt (related_userRole req) (related_language req) m' r')
  /\ Js.length m' = Nat.min 200 (Js.length m)
  /\ Js.length r' = Nat.min 200 (Js.length r)
  /\ ((Js.length m <= 200)%nat -> m' = m)
  /\ ((Js.length r <= 200)%nat -> r' = r)
  /\ (Js.is_ascii m -> m' = String.substring 0 200 m /\ String.prefix m' m = true)
  /\ (Js.is_ascii r -> r' = String.substring 0 200 r /\ String.prefix r' r = true).
Proof.
  intros m' r'. unfold m', r'. rewrite !substring_0_slice.
  split; [unfold relatedCall; by rewrite !substring_0_slice|].
  set (limit := 200%nat). clearbody limit.
  destruct (slice_from_start limit m) as [Hm Hmall].
  destruct (slice_from_start limit r) as [Hr Hrall].
  split; [done|]. split; [done|]. split; [done|]. split; [done|]. split.
  - intros Hone. rewrite (proj1 (slice_ascii limit m Hone)).
    split; [done|apply substring_bound].
  - intros Hone. rewrite (proj1 (slice_ascii limit r Hone)).
    split; [done|apply substring_bound].
Qed.

End RelatedSuccess.


(** ** What a turn leaves in the reference store *)

Section StoredTurn.

Variable toLocaleString : Z -> string.

(** X12: over the reference store a turn against a session that exists
    issues the user insert, the model insert and the touch, and nothing
    else; it appends exactly two rows to [chat_messages], the user row
    then the model row, stamps the session with the time of the touch,
    and changes no other session and no usage row. *)
Theorem turn_stores_user_then_model_row (st : RefStore) (sid : string) (user : AuthUser)
    (userText modelText : string) (region country : option string)
    (stored : StoredSession) :
  rs_sessions st !! sid = Some stored ->
  let out := run ref_env
               (persistTurn toLocaleString sid user userText modelText region country) st in
  out.1 = ([userRow sid (user_id user) userText; modelRow sid (user_id user) modelText;
            SessionsTouch sid (rs_time st)],
           Resolved true)
  /\ rs_messages out.2
     = rs_messages st ++ [mkMessage sid (user_id user) RoleUser userText;
                          mkMessage sid (user_id user) RoleModel modelText]
  /\ rs_sessions out.2 !! sid = Some (mkStored (stored_row stored) (Some (rs_time st)))
  /\ (forall other, other <> sid ->
                    rs_sessions out.2 !! other = rs_sessions st !! other)
  /\ rs_usage out.2 = rs_usage st.
Proof.
  intros Hrow out. unfold out.
  destruct (run ref_env (persistTurn _ _ _ _ _ _ _) st) as [[tr0 r0] final] eqn:Hout.
  rewrite run_persistTurn in Hout. cbn [fst snd].
  pose proof (ref_persistMessages_present st sid user userText
                modelText ltac:(eauto)) as Hrun.
  pose proof (ref_persistMessages_state st sid user userText modelText ltac:(eauto))
    as Hstate.
  destruct (run ref_env (persistMessages _ _ _ _) st) as [[tr r] st1].
  simpl in Hrun, Hstate. injection Hrun as -> ->. subst st1.
  injection Hout as <- <- <-.
  cbn [rs_sessions rs_messages rs_usage set_sessions set_messages].
  split; [done|]. split; [by rewrite <- app_assoc|]. split; [|split; [|done]].
  - by rewrite lookup_alter_eq, Hrow.
  - intros other Hne. by rewrite lookup_alter_ne.
Qed.

End StoredTurn.


(** * The other routes *)

Section OtherRoutes.

Context {S : Type} (W : Routes.world S).

(** ** gemini.js *)

(** X13: POST /speech.  Without a text the answer is 400 and the model is
    not called.  Otherwise one call is made with the text cut to its
    first 4500 UTF-16 code units, as [slice(0, 4500)] cuts it; the answer
    is 200 with the audio exactly when the call resolves and the first
    part of the first candidate carries non-empty inline data, and 500 in
    every other case, a missing link in that chain included. *)
Theorem speech_outcomes (text : option string) (s : S) :
  let out := Routes.play W (Routes.speech text) s in
  exists reply,
    out.1.2 = Resolved reply
    /\ (Routes.code reply = 400 <-> Js.truthy text = None)
    /\ (Routes.code reply = 400 -> out.1.1 = [])
    /\ (forall t, Js.truthy text = Some t ->
          let call := Routes.GenerateContentCall
                        (Routes.speechRequest (Js.slice 0 4500 t)) in
          out.1.1 = [call]
          /\ Js.length (Js.slice 0 4500 t) = Nat.min 4500 (Js.length t)
          /\ ((Js.length t <= 4500)%nat -> Js.slice 0 4500 t = t)
          /\ (Routes.code reply = 200 <->
              exists r audio,
                (Routes.perform W call s).1 = Resolved r
                /\ Js.truthy (Routes.base64Audio r) = Some audio
                /\ Routes.payload reply
                   = Routes.object [Routes.field "audioData" (Some (JString audio))])
          /\ (Routes.code reply = 200 \/ Routes.code reply = 500)).
Proof.
  intros out. unfold out, Routes.speech.
  pose proof (slice_from_start 4500) as Hbound.
  set (limit := 4500%nat) in *. clearbody limit.
  destruct (Js.truthy text) as [t|]; simpl.
  2: { eexists. split; [reflexivity|]. simpl. by split; [|split]. }
  destruct (Routes.perform W _ s) as [[r|e] s1] eqn:Hcall; simpl.
  - destruct (Js.truthy (Routes.base64Audio r)) as [audio|] eqn:Haudio; simpl.
    + eexists. split; [reflexivity|]. simpl. split; [done|]. split; [done|].
      intros t' [= <-]. rewrite Hcall. simpl. split; [done|].
      split; [apply Hbound|]. split; [apply Hbound|]. split; [|by left].
      split; [|done]. intros _. by exists r, audio.
    + eexists. split; [reflexivity|]. simpl. split; [done|]. split; [done|].
      intros t' [= <-]. rewrite Hcall. simpl. split; [done|].
      split; [apply Hbound|]. split; [apply Hbound|]. split; [|by right].
      split; [done|]. intros (r' & audio & [= <-] & Ha & _). congruence.
  - eexists. split; [reflexivity|]. simpl. split; [done|]. split; [done|].
    intros t' [= <-]. rewrite Hcall. simpl. split; [done|].
    split; [apply Hbound|]. split; [apply Hbound|]. split; [|by right].
    split; [done|]. by intros (r' & audio & Hr & _).
Qed.

(** X14: POST /transcribe.  Without audio data the answer is 400 and the
    model is not called.  Otherwise one call is made, with the mime type
    defaulting to audio/wav and the language to en-US; the answer is 200
    with the text exactly when the call resolves and reading the text
    succeeds, and 500 with the error's message otherwise. *)
Theorem transcribe_outcomes (audioBase64 mimeType languageCode : option string) (s : S) :
  let out := Routes.play W (Routes.transcribe audioBase64 mimeType languageCode) s in
  exists reply,
    out.1.2 = Resolved reply
    /\ (Routes.code reply = 400 <-> Js.truthy audioBase64 = None)
    /\ (Routes.code reply = 400 -> out.1.1 = [])
    /\ (forall audio, Js.truthy audioBase64 = Some audio ->
          let call := Routes.GenerateContentCall
                        (Routes.mkContentRequest "transcription" (Some "user")
                           [Routes.InlinePart (Js.or_default mimeType "audio/wav") audio;
                            Routes.TextPart
                              (Routes.transcribePrompt
                                 (Js.or_default languageCode "en-US"))]
                           Routes.NoConfig) in
          out.1.1 = [call]
          /\ (Routes.code reply = 200 <->
              exists r t,
                (Routes.perform W call s).1 = Resolved r
                /\ Routes.response_text r = Resolved t
                /\ Routes.payload reply
                   = Routes.object [Routes.field "text" (Some (JString t))])
          /\ (Routes.code reply = 200 \/ Routes.code reply = 500)).
Proof.
  intros out. unfold out, Routes.transcribe, Routes.transcribeRequest.
  destruct (Js.truthy audioBase64) as [audio|]; simpl.
  2: { eexists. split; [reflexivity|]. simpl. by split; [|split]. }
  destruct (Routes.perform W _ s) as [[r|e] s1] eqn:Hcall; simpl.
  - unfold Routes.textOf. destruct (Routes.response_text r) as [t|e] eqn:Htext; simpl.
    + eexists. split; [reflexivity|]. simpl. split; [done|]. split; [done|].
      intros audio' [= <-]. rewrite Hcall. simpl. split; [done|]. split; [|by left].
      split; [|done]. intros _. by exists r, t.
    + eexists. split; [reflexivity|]. simpl. split; [done|]. split; [done|].
      intros audio' [= <-]. rewrite Hcall. simpl. split; [done|]. split; [|by right].
      split; [done|]. intros (r' & t & [= <-] & Ht & _). congruence.
  - eexists. split; [reflexivity|]. simpl. split; [done|]. split; [done|].
    intros audio' [= <-]. rewrite Hcall. simpl. split; [done|]. split; [|by right].
    split; [done|]. by intros (r' & t & Hr & _).
Qed.

(** X15: POST /lookup validates nothing: every request, one without a
    term included, makes exactly one call to the model; the answer is
    200 with the text exactly when the call resolves and reading the
    text succeeds, and 500 with the error's message otherwise. *)
Theorem lookup_outcomes (term region language : option string) (s : S) :
  let call := Routes.GenerateContentCall (Routes.lookupRequest term region language) in
  let out := Routes.play W (Routes.lookup term region language) s in
  out.1.1 = [call]
  /\ exists reply,
      out.1.2 = Resolved reply
      /\ (Routes.code reply = 200 <->
          exists r t,
            (Routes.perform W call s).1 = Resolved r
            /\ Routes.response_text r = Resolved t
            /\ Routes.payload reply
               = Routes.object [Routes.field "text" (Some (JString t))])
      /\ (Routes.code reply <> 200 ->
          exists e, reply = Routes.failure e
                    /\ ((Routes.perform W call s).1 = Rejected e
                        \/ exists r, (Routes.perform W call s).1 = Resolved r
                                     /\ Routes.response_text r = Rejected e)).
Proof.
  intros call out. unfold out, Routes.lookup. simpl. fold call.
  destruct (Routes.perform W call s) as [[r|e] s1]; simpl.
  - unfold Routes.textOf. destruct (Routes.response_text r) as [t|e] eqn:Htext; simpl.
    + split; [done|]. eexists. split; [reflexivity|]. simpl. split.
      * split; [|done]. intros _. by exists r, t.
      * done.
    + split; [done|]. eexists. split; [reflexivity|]. simpl. split.
      * split; [done|]. intros (r' & t & [= <-] & Ht & _). congruence.
      * intros _. exists e. split; [done|]. right. by exists r.
  - split; [done|]. eexists. split; [reflexivity|]. simpl. split.
    + split; [done|]. by intros (r' & t & Hr & _).
    + intros _. exists e. split; [done|]. by left.
Qed.

(** ** The user router *)

(** X16: DELETE /delete-account.  The goodbye mail is attempted only when
    the user has an email, at most once and before the deletion; whether
    it is sent, fails or is skipped, the user is then deleted, and the
    answer depends on the deletion alone: 200 when [deleteUser] resolves
    without error, otherwise 500 with a fixed text that does not carry
    the error. *)
Theorem deletion_not_blocked_by_mail
    (mailFrom : option string) (html : string) (user : Routes.Requester) (s : S) :
  let out := Routes.play W (Routes.deleteAccount mailFrom html user) s in
  let delete := Routes.DeleteUser (Routes.requester_id user) in
  exists mails s1 reply,
    out.1.1 = mails ++ [delete]
    /\ match Js.truthy (Routes.requester_email user) with
       | Some email =>
           mails = [Routes.goodbye mailFrom html email]
           /\ s1 = (Routes.perform W (Routes.goodbye mailFrom html email) s).2
       | None => mails = [] /\ s1 = s
       end
    /\ out.1.2 = Resolved reply
    /\ (Routes.code reply = 200 <->
        exists r, (Routes.perform W delete s1).1 = Resolved r /\ error r = None)
    /\ (Routes.code reply <> 200 ->
        reply = Routes.mkReply 500
                  (Routes.object
                     [Routes.field "error"
                        (Some (JString "Failed to delete account. Please try again."))])).
Proof.
  intros out delete. unfold out, Routes.deleteAccount, Routes.checked.
  destruct (Js.truthy (Routes.requester_email user)) as [email|]; simpl.
  - set (mail := Routes.goodbye mailFrom html email). fold delete.
    exists [mail], (Routes.perform W mail s).2.
    destruct (Routes.perform W mail s) as [[x|e] s1]; simpl;
      (destruct (Routes.perform W delete s1) as [[r|e'] s2]; simpl;
       [destruct (error r) as [e''|] eqn:Herr; simpl|]);
      eexists; (split; [reflexivity|]); (split; [done|]); (split; [reflexivity|]);
      simpl; (split; [|done]);
      first [ by (split; [intros _; exists r|done])
            | by (split; [done|intros (r' & [= <-] & He); congruence])
            | by (split; [done|intros (r' & Hr & _)]) ].
  - fold delete. exists [], s.
    destruct (Routes.perform W delete s) as [[r|e'] s2]; simpl;
      [destruct (error r) as [e''|] eqn:Herr; simpl|];
      eexists; (split; [reflexivity|]); (split; [done|]); (split; [reflexivity|]);
      simpl; (split; [|done]);
      first [ by (split; [intros _; exists r|done])
            | by (split; [done|intros (r' & [= <-] & He); congruence])
            | by (split; [done|intros (r' & Hr & _)]) ].
Qed.

(** X17: GET /me never answers "not found": when no profile row exists
    it answers 200 with the id, the email if any, and the full name or
    the empty text; an existing row is sent back as it is; only a failed
    read gives 500. *)
Theorem me_outcomes (user : Routes.Requester) (s : S) :
  let fetch := Routes.ProfileById (Routes.requester_id user) in
  let out := Routes.play W (Routes.me user) s in
  out.1.1 = [fetch]
  /\ exists reply,
      out.1.2 = Resolved reply
      /\ (forall r, (Routes.perform W fetch s).1 = Resolved r -> error r = None ->
            reply = match data r with
                    | Some row => Routes.mkReply 200 row
                    | None =>
                        Routes.mkReply 200
                          (Routes.object
                             [Routes.field "id" (Some (JString (Routes.requester_id user)));
                              Routes.field "email" (JString <$> Routes.requester_email user);
                              Routes.field "full_name"
                                (Some (JString (Js.or_default
                                                  (Routes.requester_full_name user) "")))])
                    end)
      /\ (forall e, (Routes.perform W fetch s).1 = Rejected e
                    \/ (exists r, (Routes.perform W fetch s).1 = Resolved r
                                  /\ error r = Some e) ->
                    reply = Routes.failure e).
Proof.
  intros fetch out. unfold out, Routes.me, Routes.checked. simpl. fold fetch.
  destruct (Routes.perform W fetch s) as [[r|e] s1]; simpl.
  - destruct (error r) as [e|] eqn:Herr; simpl.
    + split; [done|]. eexists. split; [reflexivity|]. split.
      * intros r' [= <-] He. congruence.
      * intros e' [He|(r' & [= <-] & He)]; congruence.
    + destruct (data r) as [row|] eqn:Hdata; simpl;
        (split; [done|]); eexists; (split; [reflexivity|]); split.
      * intros r' [= <-] _. by rewrite Hdata.
      * intros e' [He|(r' & [= <-] & He)]; congruence.
      * intros r' [= <-] _. by rewrite Hdata.
      * intros e' [He|(r' & [= <-] & He)]; congruence.
  - split; [done|]. eexists. split; [reflexivity|]. split.
    + by intros r' Hr.
    + intros e' [[= <-]|(r' & Hr & _)]; done.
Qed.

(** X18: POST /accept-terms writes the current instant, as an ISO text,
    for the requesting user; the answer is 200 with the updated row when
    the update resolves without error and 500 with the error's message
    when it is rejected or reports an error. *)
Theorem accept_terms_outcomes (toISOString : Z -> string) (user : Routes.Requester) (s : S) :
  let update := Routes.AcceptTerms (Routes.requester_id user)
                  (toISOString (Routes.time W s)) in
  let out := Routes.play W (Routes.acceptTerms toISOString user) s in
  out.1.1 = [update]
  /\ exists reply,
      out.1.2 = Resolved reply
      /\ (forall r, (Routes.perform W update s).1 = Resolved r -> error r = None ->
            reply = Routes.mkReply 200
                      (Routes.object [Routes.field "success" (Some (JBool true));
                                      Routes.field "profile" (data r)]))
      /\ (forall e, (Routes.perform W update s).1 = Rejected e
                    \/ (exists r, (Routes.perform W update s).1 = Resolved r
                                  /\ error r = Some e) ->
                    reply = Routes.failure e).
Proof.
  intros update out. unfold out, Routes.acceptTerms, Routes.checked. simpl. fold update.
  destruct (Routes.perform W update s) as [[r|e] s1]; simpl.
  - destruct (error r) as [e|] eqn:Herr; simpl;
      (split; [done|]); eexists; (split; [reflexivity|]); split.
    + intros r' [= <-] He. congruence.
    + intros e' [He|(r' & [= <-] & He)]; congruence.
    + by intros r' [= <-] _.
    + intros e' [He|(r' & [= <-] & He)]; congruence.
  - split; [done|]. eexists. split; [reflexivity|]. split.
    + by intros r' Hr.
    + intros e' [[= <-]|(r' & Hr & _)]; done.
Qed.

(** ** health.js *)

(** X19: GET /api/health issues one query.  It answers 200 with the
    database "connected" and the latency, the clock's advance over the
    query, exactly when the query resolves without error; in every other
    case it answers 503 with the database "error" and the error's
    message. *)
Theorem health_outcomes (toISOString : Z -> string) (s : S) :
  let out := Routes.play W (Routes.health toISOString) s in
  let after := (Routes.perform W Routes.FeatureFlagsCount s).2 in
  out.1.1 = [Routes.FeatureFlagsCount]
  /\ exists reply,
      out.1.2 = Resolved reply
      /\ (Routes.code reply = 200 \/ Routes.code reply = 503)
      /\ (Routes.code reply = 200 <->
          exists r, (Routes.perform W Routes.FeatureFlagsCount s).1 = Resolved r
                    /\ error r = None)
      /\ (Routes.code reply = 200 ->
          Routes.payload reply
          = Routes.object
              [Routes.field "server" (Some (JString "ok"));
               Routes.field "database" (Some (JString "connected"));
               Routes.field "timestamp" (Some (JString (toISOString (Routes.time W s))));
               Routes.field "db_latency_ms"
                 (Some (JNumber (Routes.time W after - Routes.time W s)))])
      /\ (forall e, (Routes.perform W Routes.FeatureFlagsCount s).1 = Rejected e
                    \/ (exists r, (Routes.perform W Routes.FeatureFlagsCount s).1 = Resolved r
                                  /\ error r = Some e) ->
                    reply = Routes.mkReply 503
                      (Routes.object
                         [Routes.field "server" (Some (JString "ok"));
                          Routes.field "database" (Some (JString "error"));
                          Routes.field "timestamp"
                            (Some (JString (toISOString (Routes.time W s))));
                          Routes.field "error" (JString <$> err_message e)])).
Proof.
  intros out after. unfold out, after, Routes.health, Routes.checked. simpl.
  destruct (Routes.perform W Routes.FeatureFlagsCount s) as [[r|e] s1]; simpl.
  - destruct (error r) as [e|] eqn:Herr; simpl;
      (split; [done|]); eexists; (split; [reflexivity|]); simpl.
    + split; [by right|]. split; [|split; [done|]].
      * split; [done|]. intros (r' & [= <-] & He). congruence.
      * intros e' [He|(r' & [= <-] & He)]; congruence.
    + split; [by left|]. split; [|split; [done|]].
      * split; [|done]. intros _. by exists r.
      * intros e' [He|(r' & [= <-] & He)]; congruence.
  - split; [done|]. eexists. split; [reflexivity|]. simpl.
    split; [by right|]. split; [|split; [done|]].
    + split; [done|]. by intros (r' & Hr & _).
    + intros e' [[= <-]|(r' & Hr & _)]; done.
Qed.

(** X20: GET /api/health/ai makes one generation call limited to five
    output tokens and answers 200 exactly when the call resolves with a
    text that contains "OK"; any other text, and any failure of the
    call, gives 503. *)
Theorem health_ai_outcomes (s : S) :
  let out := Routes.play W Routes.healthAi s in
  out.1.1 = [Routes.GenerateMessageCall "Say 'OK'" "Reply with strictly 'OK'." 5]
  /\ exists reply,
      out.1.2 = Resolved reply
      /\ (Routes.code reply = 200 \/ Routes.code reply = 503)
      /\ (Routes.code reply = 200 <->
          exists g, (Routes.perform W Routes.smokeTest s).1 = Resolved g
                    /\ Js.includes "OK" (gen_text g) = true)
      /\ (forall g, (Routes.perform W Routes.smokeTest s).1 = Resolved g ->
                    Js.includes "OK" (gen_text g) = false ->
                    Routes.payload reply
                    = Routes.object
                        [Routes.field "status" (Some (JString "error"));
                         Routes.field "message"
                           (Some (JString ("AI generated unexpected content: "
                                           +:+ gen_text g)))]).
Proof.
  intros out. unfold out, Routes.healthAi. simpl.
  change (Routes.GenerateMessageCall "Say 'OK'" "Reply with strictly 'OK'." 5)
    with Routes.smokeTest.
  destruct (Routes.perform W Routes.smokeTest s) as [[g|e] s1]; simpl.
  - destruct (Js.includes "OK" (gen_text g)) eqn:Hok; simpl;
      (split; [done|]); eexists; (split; [reflexivity|]); simpl.
    + split; [by left|]. split.
      * split; [|done]. intros _. by exists g.
      * intros g' [= <-] Hno. congruence.
    + split; [by right|]. split.
      * split; [done|]. intros (g' & [= <-] & Hyes). congruence.
      * by intros g' [= <-] _.
  - split; [done|]. eexists. split; [reflexivity|]. simpl.
    split; [by right|]. split.
    + split; [done|]. by intros (g' & Hg & _).
    + by intros g' Hg.
Qed.

(** ** settings.js *)

(** X21: POST /logo makes one update.  An update that resolves without
    error and without rows is answered 500, since the handler reads
    [data[0]]; with an empty list of rows it is answered 200 without a
    [profile] field; otherwise the first row is sent back. *)
Theorem logo_outcomes (user : Routes.Requester) (logoUrl : option string) (s : S) :
  let update := Routes.UpdateLogo (Routes.requester_id user) logoUrl in
  let out := Routes.play W (Routes.logo user logoUrl) s in
  out.1.1 = [update]
  /\ exists reply,
      out.1.2 = Resolved reply
      /\ (forall r, (Routes.perform W update s).1 = Resolved r -> error r = None ->
            match data r with
            | None => reply = Routes.failure Routes.no_rows_read
            | Some [] =>
                reply = Routes.mkReply 200 (JObject [("success", JBool true)])
            | Some (row :: _) =>
                reply = Routes.mkReply 200
                          (JObject [("success", JBool true); ("profile", row)])
            end)
      /\ (forall e, (Routes.perform W update s).1 = Rejected e
                    \/ (exists r, (Routes.perform W update s).1 = Resolved r
                                  /\ error r = Some e) ->
                    reply = Routes.failure e).
Proof.
  intros update out. unfold out, Routes.logo, Routes.checked. simpl. fold update.
  destruct (Routes.perform W update s) as [[r|e] s1]; simpl.
  - destruct (error r) as [e|] eqn:Herr; simpl.
    + split; [done|]. eexists. split; [reflexivity|]. split.
      * intros r' [= <-] He. congruence.
      * intros e' [He|(r' & [= <-] & He)]; congruence.
    + destruct (data r) as [[|row rows]|] eqn:Hdata; simpl;
        (split; [done|]); eexists; (split; [reflexivity|]);
        (split; [intros r' [= <-] _; by rewrite Hdata
                |intros e' [He|(r' & [= <-] & He)]; congruence]).
  - split; [done|]. eexists. split; [reflexivity|]. split.
    + by intros r' Hr.
    + intros e' [[= <-]|(r' & Hr & _)]; done.
Qed.

(** X22: GET /preferences answers the stored preferences, and the empty
    object when the user has no row or the column is null; only a failed
    read gives 500. *)
Theorem get_preferences_outcomes (user : Routes.Requester) (s : S) :
  let read := Routes.PreferencesOf (Routes.requester_id user) in
  let out := Routes.play W (Routes.getPreferences user) s in
  out.1.1 = [read]
  /\ exists reply,
      out.1.2 = Resolved reply
      /\ (forall r, (Routes.perform W read s).1 = Resolved r -> error r = None ->
            reply = Routes.mkReply 200
                      (match data r ≫= Routes.preferences with
                       | Some prefs => JObject (map_to_list prefs)
                       | None => JObject []
                       end))
      /\ (forall e, (Routes.perform W read s).1 = Rejected e
                    \/ (exists r, (Routes.perform W read s).1 = Resolved r
                                  /\ error r = Some e) ->
                    reply = Routes.failure e).
Proof.
  intros read out. unfold out, Routes.getPreferences, Routes.checked. simpl. fold read.
  destruct (Routes.perform W read s) as [[r|e] s1]; simpl.
  - destruct (error r) as [e|] eqn:Herr; simpl;
      (split; [done|]); eexists; (split; [reflexivity|]); split.
    + intros r' [= <-] He. congruence.
    + intros e' [He|(r' & [= <-] & He)]; congruence.
    + intros r' [= <-] _. unfold Routes.storedPrefs, Routes.prefsJson.
      destruct (data r ≫= Routes.preferences) as [prefs|]; simpl; [done|].
      by rewrite map_to_list_empty.
    + intros e' [He|(r' & [= <-] & He)]; congruence.
  - split; [done|]. eexists. split; [reflexivity|]. split.
    + by intros r' Hr.
    + intros e' [[= <-]|(r' & Hr & _)]; done.
Qed.

(** X23: PUT /preferences merges: when the read resolves, the update
    writes, and the answer repeats, a map in which every key of the body
    has the body's value and every other key keeps its stored value.  An
    error reported by the read is not looked at: the stored preferences
    then count as empty and the body alone is written.  A rejected read
    gives 500 and no update. *)
Theorem put_preferences_merges (user : Routes.Requester) (updates : gmap string json)
    (s : S) :
  let id := Routes.requester_id user in
  let read := Routes.PreferencesOf id in
  let out := Routes.play W (Routes.putPreferences user updates) s in
  match Routes.perform W read s with
  | (Rejected e, _) => out.1 = ([read], Resolved (Routes.failure e))
  | (Resolved existing, s1) =>
      exists newPrefs,
        let write := Routes.UpdatePreferences id newPrefs in
        out.1.1 = [read; write]
        /\ (forall k, newPrefs !! k
                      = match updates !! k with
                        | Some v => Some v
                        | None => (data existing ≫= Routes.preferences) ≫= (.!! k)
                        end)
        /\ (data existing = None -> newPrefs = updates)
        /\ exists reply,
            out.1.2 = Resolved reply
            /\ (forall r, (Routes.perform W write s1).1 = Resolved r -> error r = None ->
                  reply = Routes.mkReply 200
                            (JObject [("success", JBool true);
                                      ("preferences", JObject (map_to_list newPrefs))]))
            /\ (forall e, (Routes.perform W write s1).1 = Rejected e
                          \/ (exists r, (Routes.perform W write s1).1 = Resolved r
                                        /\ error r = Some e) ->
                          reply = Routes.failure e)
  end.
Proof.
  intros id read out. unfold out, Routes.putPreferences, Routes.checked. simpl.
  fold id. fold read.
  destruct (Routes.perform W read s) as [[existing|e] s1]; simpl; [|done].
  set (newPrefs := Routes.spread (Routes.storedPrefs (data existing)) updates).
  exists newPrefs. cbv zeta.
  assert (forall k, newPrefs !! k
                    = match updates !! k with
                      | Some v => Some v
                      | None => (data existing ≫= Routes.preferences) ≫= (.!! k)
                      end) as Hmerge.
  { intros k. unfold newPrefs, Routes.spread, Routes.storedPrefs.
    rewrite lookup_union. destruct (updates !! k) as [v|] eqn:Hk.
    - by destruct (default ∅ _ !! k).
    - rewrite (left_id None _).
      destruct (data existing ≫= Routes.preferences) as [prefs|]; simpl; [done|].
      apply lookup_empty. }
  assert (data existing = None -> newPrefs = updates) as Hnone.
  { intros Hdata. unfold newPrefs, Routes.spread, Routes.storedPrefs.
    rewrite Hdata. simpl. apply (right_id ∅ (∪)). }
  destruct (Routes.perform W (Routes.UpdatePreferences id newPrefs) s1)
    as [[r|e] s2]; simpl.
  - destruct (error r) as [e|] eqn:Herr; simpl;
      (split; [done|]); (split; [exact Hmerge|]); (split; [exact Hnone|]);
      eexists; (split; [reflexivity|]); split.
    + intros r' [= <-] He. congruence.
    + intros e' [He|(r' & [= <-] & He)]; congruence.
    + by intros r' [= <-] _.
    + intros e' [He|(r' & [= <-] & He)]; congruence.
  - split; [done|]. split; [exact Hmerge|]. split; [exact Hnone|].
    eexists. split; [reflexivity|]. split.
    + by intros r' Hr.
    + intros e' [[= <-]|(r' & Hr & _)]; done.
Qed.

End OtherRoutes.

(** ** Preferences over the reference table *)

Lemma get_preferences_reads_table (user : Routes.Requester) (s : PrefStore.table) :
  Routes.play PrefStore.world (Routes.getPreferences user) s
  = ([Routes.PreferencesOf (Routes.requester_id user)],
     Resolved (Routes.mkReply 200
                 (Routes.prefsJson (Routes.storedPrefs (s !! Routes.requester_id user)))),
     s).
Proof. done. Qed.

(** X24: for a user with a profile row, what PUT /preferences answers is
    what a following GET /preferences reads back: the stored preferences
    overridden by the body; every key of the body is read back with the
    body's value. *)
Theorem stored_preferences_round_trip (user : Routes.Requester)
    (updates : gmap string json) (s : PrefStore.table) (row : Routes.PrefRow) :
  s !! Routes.requester_id user = Some row ->
  let merged := updates ∪ default ∅ (Routes.preferences row) in
  let put := Routes.play PrefStore.world (Routes.putPreferences user updates) s in
  let get := Routes.play PrefStore.world (Routes.getPreferences user) put.2 in
  put.1.2 = Resolved (Routes.mkReply 200
                        (JObject [("success", JBool true);
                                  ("preferences", JObject (map_to_list merged))]))
  /\ get.1.2 = Resolved (Routes.mkReply 200 (JObject (map_to_list merged)))
  /\ (forall k v, updates !! k = Some v -> merged !! k = Some v)
  /\ (forall other, other <> Routes.requester_id user -> put.2 !! other = s !! other).
Proof.
  intros Hrow merged put get.
  assert (put = ([Routes.PreferencesOf (Routes.requester_id user);
                  Routes.UpdatePreferences (Routes.requester_id user) merged],
                 Resolved (Routes.mkReply 200
                             (JObject [("success", JBool true);
                                       ("preferences", JObject (map_to_list merged))])),
                 <[Routes.requester_id user := Routes.mkPrefRow (Some merged)]> s))
    as Hput.
  { unfold put, Routes.putPreferences, Routes.checked. simpl. rewrite Hrow. simpl.
    by unfold merged, Routes.spread, Routes.storedPrefs, Routes.prefsJson. }
  split; [by rewrite Hput|]. split; [|split].
  - unfold get. rewrite Hput, get_preferences_reads_table. cbn [fst snd].
    unfold PrefStore.table in *. by rewrite lookup_insert_eq.
  - intros k v Hk. unfold merged. by apply lookup_union_Some_l.
  - intros other Hother. rewrite Hput. cbn [fst snd].
    unfold PrefStore.table in *. by rewrite lookup_insert_ne.
Qed.

(** X25: for a user without a profile row PUT /preferences answers
    success with the body as the saved preferences, although nothing is
    stored: the table is unchanged and a following GET /preferences
    answers the empty object. *)
Theorem preferences_without_profile_not_stored (user : Routes.Requester)
    (updates : gmap string json) (s : PrefStore.table) :
  s !! Routes.requester_id user = None ->
  let put := Routes.play PrefStore.world (Routes.putPreferences user updates) s in
  let get := Routes.play PrefStore.world (Routes.getPreferences user) put.2 in
  put.1.2 = Resolved (Routes.mkReply 200
                        (JObject [("success", JBool true);
                                  ("preferences", JObject (map_to_list updates))]))
  /\ put.2 = s
  /\ get.1.2 = Resolved (Routes.mkReply 200 (JObject [])).
Proof.
  intros Hrow put get.
  assert (put = ([Routes.PreferencesOf (Routes.requester_id user);
                  Routes.UpdatePreferences (Routes.requester_id user) updates],
                 Resolved (Routes.mkReply 200
                             (JObject [("success", JBool true);
                                       ("preferences", JObject (map_to_list updates))])),
                 s)) as Hput.
  { unfold put, Routes.putPreferences, Routes.checked. simpl. rewrite Hrow. simpl.
    unfold Routes.storedPrefs, Routes.spread. simpl.
    rewrite (map_union_empty updates). rewrite ?Hrow. done. }
  split; [by rewrite Hput|]. split; [by rewrite Hput|].
  unfold get. rewrite Hput, get_preferences_reads_table. cbn [fst snd].
  rewrite Hrow. unfold Routes.storedPrefs, Routes.prefsJson. simpl.
  by rewrite map_to_list_empty.
Qed.

(** * Instances *)

Lemma guest_request_only_generates_witness :
  let call := GenerateMessage (genArgs Demo.instruction Scenarios.guest_turn "Nurse") in
  run ref_env (authenticate Scenarios.guest_turn) Demo.store
    = ([], Resolved None, Demo.store)
  /\ run ref_env (Demo.post Scenarios.guest_turn) Demo.store
     = ([call], Resolved (Ok200 "Answer" "gemini-2.0-flash"), Demo.store).
Proof.
  intros call.
  assert (run ref_env (authenticate Scenarios.guest_turn) Demo.store
          = ([], Resolved None, Demo.store)) as Hauth by reflexivity.
  split; [exact Hauth|].
  exact (guest_request_only_generates ref_env Demo.access Demo.instruction Demo.locale
           Scenarios.guest_turn Demo.store Demo.store [] Hauth).
Defined.

Lemma answer_returned_unless_title_write_rejects_witness :
  (run ref_env (Demo.post Demo.first_turn) Demo.store).1.2
    = Resolved (Ok200 "Answer" "gemini-2.0-flash")
  \/ (formatHistory (history Demo.first_turn) = []
      /\ exists e sid t before,
          (run ref_env (Demo.post Demo.first_turn) Demo.store).1
          = (before ++ [SessionsSetTitle sid t], Resolved (chatError e))).
Proof.
  refine (answer_returned_unless_title_write_rejects ref_env Demo.access
            Demo.instruction Demo.locale Demo.first_turn
            Demo.store Demo.store
            (ref_exec (UsageInsert "u1" 1) Demo.store).2
            (ref_exec (UsageInsert "u1" 1) Demo.store).2
            [AuthGetUser "tok-alice"]
            [ProfilesSelect "u1"; UsageSelect "u1"; UsageInsert "u1" 1]
            (Some Demo.alice) "Nurse" Demo.answer _ _ _);
    vm_compute; reflexivity.
Defined.

Lemma usage_write_never_above_limit_witness :
  exists uid n,
    (UsageInsert "u1" 1 = UsageInsert uid n /\ n = 1)
    \/ (UsageInsert "u1" 1 = UsageUpdate uid n /\ n <= 5).
Proof.
  apply (usage_write_never_above_limit ref_env Demo.access Demo.instruction Demo.locale
           Demo.first_turn Demo.store (UsageInsert "u1" 1)); [|reflexivity].
  apply list_elem_of_In. vm_compute. do 3 right. left. reflexivity.
Defined.

Lemma token_is_well_formed_witness :
  token_of Demo.first_turn = Some "tok-alice"
  /\ "tok-alice" <> "" /\ "tok-alice" <> "null" /\ Js.includes " " "tok-alice" = false
  /\ exists header, authorization Demo.first_turn = Some header
                    /\ Js.split " " header !! 1%nat = Some "tok-alice".
Proof.
  assert (token_of Demo.first_turn = Some "tok-alice") as Htoken by reflexivity.
  split; [exact Htoken|].
  exact (token_is_well_formed Demo.first_turn "tok-alice" Htoken).
Defined.

Lemma retry_repeats_user_insert_witness :
  exists rest,
    (run Scenarios.racing_env
       (persistTurn Demo.locale "s-old" Demo.alice "Q" "Answer" None None)
       Demo.store).1.1
    = userRow "s-old" "u1" "Q" :: modelRow "s-old" "u1" "Answer"
      :: jitSession Demo.locale "s-old" Demo.alice None None 1000
      :: userRow "s-old" "u1" "Q" :: rest.
Proof.
  refine (retry_repeats_user_insert Scenarios.racing_env Demo.locale "s-old" Demo.alice
            "Q" "Answer" None None Demo.store
            (Scenarios.racing_exec (userRow "s-old" "u1" "Q") Demo.store).2
            (Scenarios.racing_exec (userRow "s-old" "u1" "Q") Demo.store).2
            (Scenarios.racing_exec
               (jitSession Demo.locale "s-old" Demo.alice None None 1000)
               (Scenarios.racing_exec (userRow "s-old" "u1" "Q") Demo.store).2).2
            written written (fk_violation "s-old") _ _ _ _);
    vm_compute; reflexivity.
Defined.

Lemma turn_stores_user_then_model_row_witness :
  let out := run ref_env
               (persistTurn Demo.locale "s-old" Demo.alice "Q" "Answer" None None)
               Demo.store in
  rs_sessions Demo.store !! "s-old" = Some Demo.old_session
  /\ rs_messages out.2
     = [mkMessage "s-old" "u1" RoleUser "Q"; mkMessage "s-old" "u1" RoleModel "Answer"]
  /\ rs_sessions out.2 !! "s-old"
     = Some (mkStored (stored_row Demo.old_session) (Some 1000)).
Proof.
  intros out.
  assert (rs_sessions Demo.store !! "s-old" = Some Demo.old_session) as Hrow
    by (vm_compute; reflexivity).
  split; [exact Hrow|].
  destruct (turn_stores_user_then_model_row Demo.locale Demo.store "s-old" Demo.alice
              "Q" "Answer" None None Demo.old_session Hrow)
    as (_ & Hrows & Hstamp & _).
  split; [exact Hrows|exact Hstamp].
Defined.

Lemma stored_preferences_round_trip_witness :
  let merged : gmap string json :=
    {[ "language" := JString "de-DE"; "region" := JString "EU" ]} in
  let put := Routes.play PrefStore.world
               (Routes.putPreferences PrefStore.carol PrefStore.german)
               PrefStore.profiles in
  PrefStore.profiles !! "u1" = Some PrefStore.carol_row
  /\ (Routes.play PrefStore.world (Routes.getPreferences PrefStore.carol) put.2).1.2
     = Resolved (Routes.mkReply 200 (JObject (map_to_list merged)))
  /\ merged !! "language" = Some (JString "de-DE").
Proof.
  intros merged put.
  assert (PrefStore.profiles !! "u1" = Some PrefStore.carol_row) as Hrow
    by (vm_compute; reflexivity).
  split; [exact Hrow|].
  destruct (stored_preferences_round_trip PrefStore.carol PrefStore.german
              PrefStore.profiles PrefStore.carol_row Hrow) as (_ & Hget & Hkeys & _).
  split.
  - unfold put. rewrite Hget. vm_compute. reflexivity.
  - vm_compute. reflexivity.
Defined.

Lemma preferences_without_profile_not_stored_witness :
  let put := Routes.play PrefStore.world
               (Routes.putPreferences PrefStore.dave PrefStore.german)
               PrefStore.profiles in
  PrefStore.profiles !! "u9" = None
  /\ put.1.2 = Resolved (Routes.mkReply 200
                           (JObject [("success", JBool true);
                                     ("preferences",
                                      JObject [("language", JString "de-DE")])]))
  /\ put.2 = PrefStore.profiles
  /\ (Routes.play PrefStore.world (Routes.getPreferences PrefStore.dave) put.2).1.2
     = Resolved (Routes.mkReply 200 (JObject [])).
Proof.
  intros put.
  assert (PrefStore.profiles !! "u9" = None) as Hrow by (vm_compute; reflexivity).
  split; [exact Hrow|].
  destruct (preferences_without_profile_not_stored PrefStore.dave PrefStore.german
              PrefStore.profiles Hrow) as (Hput & Hsame & Hget).
  split; [|split; [exact Hsame|exact Hget]].
  unfold put. rewrite Hput. vm_compute. reflexivity.
Defined.
